(** * The chaos/tree particle animation: a shallow embedding

    The repository renders four particle populations (foliage points, ornament
    balls, boxes and lights) that blend between a "chaos" cloud and a cone
    shaped tree.  This development embeds

    - [types.ts]                (TreeState, OrnamentData),
    - the ornaments component   (generateOrnamentData, the per-frame callback,
                                 the colour layout effect),
    - the foliage component     (the vertex shader, the per-frame callback,
                                 the geometry generation),

    and proves the properties the specification states about them.

    JavaScript numbers and GLSL floats are idealised as real numbers: rounding
    of IEEE doubles and of [Float32Array] stores is not modelled.  Objects of
    three.js ([Vector3], [Euler], [Color]) live in an explicit store and are
    referred to by location, so that mutation through the shared scratch
    objects ([dummy], [tempVec3]) is visible in the model. *)

From Stdlib Require Import Reals Lra Lia List String Bool Arith ZArith.
Import ListNotations.
Open Scope R_scope.

(** ** JavaScript and GLSL numeric primitives *)

Definition Rltb (x y : R) : bool := if Rlt_dec x y then true else false.
Definition Rgtb (x y : R) : bool := Rltb y x.

(** [Math.floor], as an integer. *)
Definition Math_floor (x : R) : Z := Int_part x.

(** [Math.cbrt]: the real cube root, odd in its argument. *)
Definition Math_cbrt (x : R) : R :=
  if Rlt_dec 0 x then Rpower x (/ 3)
  else if Rlt_dec x 0 then - Rpower (- x) (/ 3)
  else 0.

(** [Math.max] and [Math.min] on two numbers. *)
Definition Math_max (a b : R) : R := if Rlt_dec a b then b else a.
Definition Math_min (a b : R) : R := if Rlt_dec b a then b else a.

(** [THREE.MathUtils]. *)
Module MathUtils.
(** [lerp(x, y, t) = (1 - t) * x + t * y]. *)
Definition lerp (x y t : R) : R := (1 - t) * x + t * y.
(** [clamp(value, min, max) = Math.max(min, Math.min(max, value))]. *)
Definition clamp (value lo hi : R) : R := Math_max lo (Math_min hi value).
End MathUtils.

(** GLSL built-ins used by the foliage vertex shader.  [pow x y] has an
    undefined result for [x < 0], and for [x = 0] with [y <= 0]. *)
Module GLSL.
Definition pow (x y : R) : option R :=
  if Rlt_dec x 0 then None
  else if Rlt_dec 0 x then Some (Rpower x y)
  else if Rlt_dec 0 y then Some 0 else None.
(** [mix(a, b, t) = a * (1 - t) + b * t]. *)
Definition mix (a b t : R) : R := a * (1 - t) + b * t.
End GLSL.

(** ** types.ts *)

Inductive TreeState : Type := CHAOS | FORMED.

Definition TreeState_eqb (a b : TreeState) : bool :=
  match a, b with
  | CHAOS, CHAOS | FORMED, FORMED => true
  | _, _ => false
  end.

(** Locations of objects in the store. *)
Definition loc := nat.

Record OrnamentData : Type := mkOrnamentData {
  chaosPos : loc;    (* a THREE.Vector3 *)
  targetPos : loc;   (* a THREE.Vector3 *)
  targetRot : loc;   (* a THREE.Euler *)
  color : loc;       (* a THREE.Color *)
  scale : R;
  speed : R
}.

(** ** The object store *)

Record Vec3 : Type := mkVec3 { vx : R; vy : R; vz : R }.

(** A [THREE.Color] is kept as the style string it was last set from; its RGB
    components are a function of that string. *)
Definition ColorValue := string.

Record Heap : Type := mkHeap {
  vectors : loc -> Vec3;        (* THREE.Vector3 objects *)
  nvectors : nat;               (* next free Vector3 location *)
  eulers : loc -> Vec3;         (* THREE.Euler objects, order XYZ *)
  neulers : nat;
  colors : loc -> ColorValue;   (* THREE.Color objects *)
  ncolors : nat
}.

Definition upd {A : Type} (f : loc -> A) (l : loc) (a : A) : loc -> A :=
  fun l' => if Nat.eqb l' l then a else f l'.

Definition set_vector (h : Heap) (l : loc) (v : Vec3) : Heap :=
  mkHeap (upd (vectors h) l v) (nvectors h) (eulers h) (neulers h)
         (colors h) (ncolors h).

Definition set_euler (h : Heap) (l : loc) (v : Vec3) : Heap :=
  mkHeap (vectors h) (nvectors h) (upd (eulers h) l v) (neulers h)
         (colors h) (ncolors h).

Definition set_color (h : Heap) (l : loc) (c : ColorValue) : Heap :=
  mkHeap (vectors h) (nvectors h) (eulers h) (neulers h)
         (upd (colors h) l c) (ncolors h).

(** The world a generator runs in: the store and the sequence of results that
    [Math.random()] is going to return, with the number already consumed. *)
Record World : Type := mkWorld {
  heap : Heap;
  rng : nat -> R;
  drawn : nat
}.

(** A small state monad over the world. *)
Definition M (A : Type) : Type := World -> A * World.
Definition ret {A : Type} (a : A) : M A := fun w => (a, w).
Definition bind {A B : Type} (m : M A) (k : A -> M B) : M B :=
  fun w => let (a, w') := m w in k a w'.

Declare Scope world_scope.
Delimit Scope world_scope with world.
Notation "x <- m ;; k" := (bind m (fun x => k))
  (at level 61, m at next level, right associativity) : world_scope.
Notation "m ;;; k" := (bind m (fun _ => k))
  (at level 61, right associativity) : world_scope.

Definition Math_random : M R :=
  fun w => (rng w (drawn w), mkWorld (heap w) (rng w) (S (drawn w))).

Definition new_Vector3 (x y z : R) : M loc :=
  fun w =>
    let h := heap w in
    let l := nvectors h in
    (l, mkWorld (mkHeap (upd (vectors h) l (mkVec3 x y z)) (S l)
                        (eulers h) (neulers h) (colors h) (ncolors h))
                (rng w) (drawn w)).

Definition new_Euler (x y z : R) : M loc :=
  fun w =>
    let h := heap w in
    let l := neulers h in
    (l, mkWorld (mkHeap (vectors h) (nvectors h)
                        (upd (eulers h) l (mkVec3 x y z)) (S l)
                        (colors h) (ncolors h))
                (rng w) (drawn w)).

(** [new THREE.Color()] is white. *)
Definition new_Color : M loc :=
  fun w =>
    let h := heap w in
    let l := ncolors h in
    (l, mkWorld (mkHeap (vectors h) (nvectors h) (eulers h) (neulers h)
                        (upd (colors h) l "#ffffff"%string) (S l))
                (rng w) (drawn w)).

Definition Color_set (l : loc) (style : ColorValue) : M unit :=
  fun w => (tt, mkWorld (set_color (heap w) l style) (rng w) (drawn w)).

(** ** The parts of three.js the components call *)

Module Three.

Record Quaternion : Type := mkQuaternion { qx : R; qy : R; qz : R; qw : R }.

(** A [Matrix4] is its sixteen [elements], column-major. *)
Definition Matrix4 := list R.

Definition Matrix4_identity : Matrix4 :=
  [1; 0; 0; 0;  0; 1; 0; 0;  0; 0; 1; 0;  0; 0; 0; 1].

(** [this.lerpVectors(v1, v2, alpha)]: writes [v1 + (v2 - v1) * alpha] into
    [this] and touches nothing else. *)
Definition Vector3_lerpVectors (this v1 v2 : loc) (alpha : R) (h : Heap)
  : Heap :=
  let a := vectors h v1 in
  let b := vectors h v2 in
  set_vector h this
    (mkVec3 (vx a + (vx b - vx a) * alpha)
            (vy a + (vy b - vy a) * alpha)
            (vz a + (vz b - vz a) * alpha)).

(** [this.copy(v)]. *)
Definition Vector3_copy (this v : loc) (h : Heap) : Heap :=
  set_vector h this (vectors h v).

(** [this.setScalar(s)]. *)
Definition Vector3_setScalar (this : loc) (s : R) (h : Heap) : Heap :=
  set_vector h this (mkVec3 s s s).

(** [this.x += d] and [this.y += d]. *)
Definition Vector3_add_x (this : loc) (d : R) (h : Heap) : Heap :=
  let v := vectors h this in
  set_vector h this (mkVec3 (vx v + d) (vy v) (vz v)).

Definition Vector3_add_y (this : loc) (d : R) (h : Heap) : Heap :=
  let v := vectors h this in
  set_vector h this (mkVec3 (vx v) (vy v + d) (vz v)).

(** [Quaternion.setFromEuler] for the default order XYZ. *)
Definition Quaternion_setFromEuler (e : Vec3) : Quaternion :=
  let c1 := cos (vx e / 2) in
  let c2 := cos (vy e / 2) in
  let c3 := cos (vz e / 2) in
  let s1 := sin (vx e / 2) in
  let s2 := sin (vy e / 2) in
  let s3 := sin (vz e / 2) in
  mkQuaternion (s1 * c2 * c3 + c1 * s2 * s3)
               (c1 * s2 * c3 - s1 * c2 * s3)
               (c1 * c2 * s3 + s1 * s2 * c3)
               (c1 * c2 * c3 - s1 * s2 * s3).

(** [Matrix4.compose(position, quaternion, scale)]. *)
Definition Matrix4_compose (p : Vec3) (q : Quaternion) (s : Vec3)
  : Matrix4 :=
  let x := qx q in let y := qy q in let z := qz q in let w := qw q in
  let x2 := x + x in let y2 := y + y in let z2 := z + z in
  let xx := x * x2 in let xy := x * y2 in let xz := x * z2 in
  let yy := y * y2 in let yz := y * z2 in let zz := z * z2 in
  let wx := w * x2 in let wy := w * y2 in let wz := w * z2 in
  let sx := vx s in let sy := vy s in let sz := vz s in
  [ (1 - (yy + zz)) * sx; (xy + wz) * sx; (xz - wy) * sx; 0;
    (xy - wz) * sy; (1 - (xx + zz)) * sy; (yz + wx) * sy; 0;
    (xz + wy) * sz; (yz - wx) * sz; (1 - (xx + yy)) * sz; 0;
    vx p; vy p; vz p; 1 ].

(** An [Object3D]: its position, rotation and scale are objects of the
    store; its quaternion follows every change of the rotation. *)
Record Object3D : Type := mkObject3D {
  position : loc;
  rotation : loc;
  quaternion : Quaternion;
  scale : loc;
  matrix : Matrix4
}.

(** [new THREE.Object3D()]. *)
Definition new_Object3D : M Object3D :=
  (p <- new_Vector3 0 0 0 ;;
   r <- new_Euler 0 0 0 ;;
   s <- new_Vector3 1 1 1 ;;
   ret (mkObject3D p r (mkQuaternion 0 0 0 1) s Matrix4_identity))%world.

(** [o.rotation.set(x, y, z)]: the change callback of the Euler angles
    recomputes the quaternion. *)
Definition rotation_set (x y z : R) (oh : Object3D * Heap)
  : Object3D * Heap :=
  let (o, h) := oh in
  let e := mkVec3 x y z in
  (mkObject3D (position o) (rotation o) (Quaternion_setFromEuler e)
              (scale o) (matrix o),
   set_euler h (rotation o) e).

(** [o.updateMatrix()]. *)
Definition updateMatrix (oh : Object3D * Heap) : Object3D * Heap :=
  let (o, h) := oh in
  (mkObject3D (position o) (rotation o) (quaternion o) (scale o)
              (Matrix4_compose (vectors h (position o)) (quaternion o)
                               (vectors h (scale o))),
   h).

(** An [InstancedMesh]: [count] instances, one matrix each and, once
    [setColorAt] has been called, one colour each.  Writes past [count]
    fall outside the typed arrays and are dropped. *)
Record InstancedMesh : Type := mkInstancedMesh {
  count : nat;
  instanceMatrix : nat -> Matrix4;
  instanceMatrix_needsUpdate : bool;
  instanceColor : option (nat -> ColorValue);
  instanceColor_needsUpdate : bool
}.

Definition setMatrixAt (i : nat) (m : Matrix4) (mesh : InstancedMesh)
  : InstancedMesh :=
  mkInstancedMesh (count mesh)
    (if Nat.ltb i (count mesh) then upd (instanceMatrix mesh) i m
     else instanceMatrix mesh)
    (instanceMatrix_needsUpdate mesh)
    (instanceColor mesh) (instanceColor_needsUpdate mesh).

(** [setColorAt] allocates the colour array (white) on first use. *)
Definition setColorAt (i : nat) (c : ColorValue) (mesh : InstancedMesh)
  : InstancedMesh :=
  let arr := match instanceColor mesh with
             | Some a => a
             | None => fun _ => "#ffffff"%string
             end in
  mkInstancedMesh (count mesh) (instanceMatrix mesh)
    (instanceMatrix_needsUpdate mesh)
    (Some (if Nat.ltb i (count mesh) then upd arr i c else arr))
    (instanceColor_needsUpdate mesh).

Definition mark_instanceMatrix (mesh : InstancedMesh) : InstancedMesh :=
  mkInstancedMesh (count mesh) (instanceMatrix mesh) true
    (instanceColor mesh) (instanceColor_needsUpdate mesh).

Definition mark_instanceColor (mesh : InstancedMesh) : InstancedMesh :=
  mkInstancedMesh (count mesh) (instanceMatrix mesh)
    (instanceMatrix_needsUpdate mesh) (instanceColor mesh) true.

End Three.


(** ** JavaScript arrays *)

(** [a[i]] on a JavaScript array: [undefined] outside the array. *)
Definition array_get {A : Type} (a : list A) (i : Z) : option A :=
  if (i <? 0)%Z then None else nth_error a (Z.to_nat i).

(** [a.forEach((x, i) => ...)], threading the state the callback mutates. *)
Fixpoint forEach_from {A St : Type} (f : A -> nat -> St -> St) (a : list A)
  (i : nat) (s : St) : St :=
  match a with
  | [] => s
  | x :: a' => forEach_from f a' (S i) (f x i s)
  end.

Definition forEach {A St : Type} (f : A -> nat -> St -> St) (a : list A)
  (s : St) : St := forEach_from f a 0%nat s.

(** A [Float32Array]: a fixed length, zero-filled at creation; stores outside
    the length are dropped. *)
Record Float32Array : Type := mkFloat32Array {
  f32_length : nat;
  f32_at : nat -> R
}.

Definition new_Float32Array (n : nat) : Float32Array :=
  mkFloat32Array n (fun _ => 0).

Definition f32_set (a : Float32Array) (i : nat) (v : R) : Float32Array :=
  if Nat.ltb i (f32_length a)
  then mkFloat32Array (f32_length a) (upd (f32_at a) i v)
  else a.

(** ** The ornaments component *)

Module Ornaments.

Definition BALL_COUNT : nat := 200.
Definition BOX_COUNT : nat := 50.
Definition LIGHT_COUNT : nat := 300.
Definition TREE_HEIGHT : R := 16.
Definition TREE_RADIUS : R := 6.

Inductive OrnamentType : Type := ball | box | light.

Definition is_light (t : OrnamentType) : bool :=
  match t with light => true | _ => false end.

Definition is_ball (t : OrnamentType) : bool :=
  match t with ball => true | _ => false end.

Definition palette : list ColorValue :=
  ["#D4AF37"; "#800000"; "#C0C0C0"; "#B8860B"]%string.

(** One iteration of the loop of [generateOrnamentData]. *)
Definition generate_one (type : OrnamentType) : M OrnamentData :=
  ( (* Chaos Position *)
    u <- Math_random ;;
    v <- Math_random ;;
    let theta := 2 * PI * u in
    let phi := acos (2 * v - 1) in
    r0 <- Math_random ;;
    let rChaos := 20 + r0 * 15 in
    chaosPos <- new_Vector3 (rChaos * sin phi * cos theta)
                            (rChaos * sin phi * sin theta + 10)
                            (rChaos * cos phi) ;;
    (* Target Position (spiral on tree) *)
    hNorm <- Math_random ;;
    let y := hNorm * TREE_HEIGHT in
    let rCone := (1 - hNorm) * TREE_RADIUS in
    r1 <- Math_random ;;
    let spiralAngle := hNorm * PI * 10 + (r1 * PI * 2) in
    let rFinal := rCone * (if is_light type then 1.05 else 0.9) in
    targetPos <- new_Vector3 (cos spiralAngle * rFinal) y
                             (sin spiralAngle * rFinal) ;;
    a <- Math_random ;;
    b <- Math_random ;;
    c <- Math_random ;;
    targetRot <- new_Euler (a * PI) (b * PI) (c * PI) ;;
    (* Colors: gold, red, silver scheme *)
    color <- new_Color ;;
    (if is_light type
     then Color_set color "#ffccaa"%string
     else
       k <- Math_random ;;
       match array_get palette (Math_floor (k * INR (List.length palette))) with
       | Some style => Color_set color style
       | None => ret tt
       end) ;;;
    let speed := if is_light type then 2.0
                 else if is_ball type then 1.5 else 0.8 in
    let scale := if is_light type then 0.1
                 else if is_ball type then 0.25 else 0.35 in
    ret (mkOrnamentData chaosPos targetPos targetRot color scale speed)
  )%world.

(** The [for] loop: [n] iterations left, [data] pushed so far. *)
Fixpoint generate_loop (n : nat) (type : OrnamentType)
  (data : list OrnamentData) : M (list OrnamentData) :=
  match n with
  | O => ret data
  | S n' => (d <- generate_one type ;;
             generate_loop n' type (data ++ [d]))%world
  end.

Definition generateOrnamentData (count : nat) (type : OrnamentType)
  : M (list OrnamentData) :=
  generate_loop count type [].

(** The component: the module-level scratch objects, the progress ref, the
    three mesh refs ([None] while unmounted) and the memoised tables. *)
Record State : Type := mkState {
  store : Heap;
  dummy : Three.Object3D;
  tempVec3 : loc;
  currentProgress : R;
  ballMesh : option Three.InstancedMesh;
  boxMesh : option Three.InstancedMesh;
  lightMesh : option Three.InstancedMesh;
  balls : list OrnamentData;
  boxes : list OrnamentData;
  lights : list OrnamentData
}.

(** What the callbacks of [forEach] mutate: the scratch object, the store and
    the mesh being filled. *)
Definition Ctx : Type := (Three.Object3D * Heap * Three.InstancedMesh)%type.

Definition update_ball (isForming : bool) (progress time : R) (tmp : loc)
  (data : OrnamentData) (i : nat) (c : Ctx) : Ctx :=
  let '(d, h, mesh) := c in
  let p := progress in
  (* Interpolate position *)
  let h := Three.Vector3_lerpVectors tmp (chaosPos data) (targetPos data) p h in
  (* Add floaty noise *)
  let h :=
    if Rltb p 0.99
    then Three.Vector3_add_x tmp (cos (time + INR i) * 0.05 * (1 - p))
           (Three.Vector3_add_y tmp (sin (time + INR i) * 0.05 * (1 - p)) h)
    else h in
  let h := Three.Vector3_copy (Three.position d) tmp h in
  (* Spin logic *)
  let r := eulers h (targetRot data) in
  let '(d, h) := Three.rotation_set (vx r + (1 - p) * time)
                                    (vy r + (1 - p) * time)
                                    (vz r) (d, h) in
  let h := Three.Vector3_setScalar (Three.scale d) (scale data * p) h in
  let h :=
    if negb isForming && Rltb p 0.1
    then Three.Vector3_setScalar (Three.scale d) (scale data * p) h
    else Three.Vector3_setScalar (Three.scale d) (scale data) h in
  let '(d, h) := Three.updateMatrix (d, h) in
  (d, h, Three.setMatrixAt i (Three.matrix d) mesh).

Definition update_box (progress time : R) (tmp : loc)
  (data : OrnamentData) (i : nat) (c : Ctx) : Ctx :=
  let '(d, h, mesh) := c in
  let p := progress in
  (* Delay slightly *)
  let p := MathUtils.clamp ((p - 0.1) * 1.1) 0 1 in
  let h := Three.Vector3_lerpVectors tmp (chaosPos data) (targetPos data) p h in
  let h := Three.Vector3_copy (Three.position d) tmp h in
  let r := eulers h (targetRot data) in
  let '(d, h) := Three.rotation_set (vx r + (1 - p) * sin time)
                                    (vy r + (1 - p) * time * 0.5)
                                    (vz r) (d, h) in
  let h := Three.Vector3_setScalar (Three.scale d) (scale data) h in
  let '(d, h) := Three.updateMatrix (d, h) in
  (d, h, Three.setMatrixAt i (Three.matrix d) mesh).

Definition update_light (progress time : R) (tmp : loc)
  (data : OrnamentData) (i : nat) (c : Ctx) : Ctx :=
  let '(d, h, mesh) := c in
  let p := progress in
  (* Arrive first *)
  let p := MathUtils.clamp (p * 1.2) 0 1 in
  let h := Three.Vector3_lerpVectors tmp (chaosPos data) (targetPos data) p h in
  let h := Three.Vector3_copy (Three.position d) tmp h in
  let h := Three.Vector3_setScalar (Three.scale d)
             (scale data * (0.8 + 0.4 * sin (time * 5 + INR i))) h in
  let '(d, h) := Three.rotation_set 0 0 0 (d, h) in
  let '(d, h) := Three.updateMatrix (d, h) in
  (d, h, Three.setMatrixAt i (Three.matrix d) mesh).

(** One population of the frame callback: skipped while its mesh ref is
    null, otherwise every instance is rewritten and the matrix attribute is
    flagged once. *)
Definition update_population
  (f : OrnamentData -> nat -> Ctx -> Ctx) (table : list OrnamentData)
  (d : Three.Object3D) (h : Heap) (mesh : option Three.InstancedMesh)
  : Three.Object3D * Heap * option Three.InstancedMesh :=
  match mesh with
  | Some m =>
      let '(d', h', m') := forEach f table (d, h, m) in
      (d', h', Some (Three.mark_instanceMatrix m'))
  | None => (d, h, None)
  end.

(** The callback given to [useFrame]: [time] is [state.clock.elapsedTime]. *)
Definition useFrame (treeState : TreeState) (time delta : R) (s : State)
  : State :=
  let isForming := TreeState_eqb treeState FORMED in
  let tTarget := if isForming then 1 else 0 in
  (* Base lerp speed *)
  let progress := MathUtils.lerp (currentProgress s) tTarget (delta * 0.8) in
  let '(d, h, bm) :=
    update_population (update_ball isForming progress time (tempVec3 s))
      (balls s) (dummy s) (store s) (ballMesh s) in
  let '(d, h, xm) :=
    update_population (update_box progress time (tempVec3 s))
      (boxes s) d h (boxMesh s) in
  let '(d, h, lm) :=
    update_population (update_light progress time (tempVec3 s))
      (lights s) d h (lightMesh s) in
  mkState h d (tempVec3 s) progress bm xm lm (balls s) (boxes s) (lights s).

(** One population of the layout effect that sets the initial colours.
    [None] is a [TypeError]: the non-null assertion on an unmounted mesh, or
    the flag written to an [instanceColor] that was never allocated. *)
Definition set_colors (h : Heap) (table : list OrnamentData)
  (mesh : option Three.InstancedMesh) : option (option Three.InstancedMesh) :=
  match mesh with
  | None => match table with [] => Some None | _ :: _ => None end
  | Some m =>
      let m' := forEach (fun data i m0 =>
                           Three.setColorAt i (colors h (color data)) m0)
                        table m in
      match Three.instanceColor m' with
      | Some _ => Some (Some (Three.mark_instanceColor m'))
      | None => None
      end
  end.

Definition useLayoutEffect (s : State) : option State :=
  match set_colors (store s) (balls s) (ballMesh s) with
  | None => None
  | Some bm =>
    match set_colors (store s) (boxes s) (boxMesh s) with
    | None => None
    | Some xm =>
      match set_colors (store s) (lights s) (lightMesh s) with
      | None => None
      | Some lm =>
          Some (mkState (store s) (dummy s) (tempVec3 s) (currentProgress s)
                        bm xm lm (balls s) (boxes s) (lights s))
      end
    end
  end.

(** Module initialisation followed by the first render: the scratch objects
    are created, then the three tables; the renderer supplies the meshes. *)
Definition mount (bm xm lm : option Three.InstancedMesh) : M State :=
  (d <- Three.new_Object3D ;;
   tmp <- new_Vector3 0 0 0 ;;
   bs <- generateOrnamentData BALL_COUNT ball ;;
   xs <- generateOrnamentData BOX_COUNT box ;;
   ls <- generateOrnamentData LIGHT_COUNT light ;;
   fun w => (mkState (heap w) d tmp 0 bm xm lm bs xs ls, w))%world.

(** The frames of a session: the mode, the clock and the frame time of each
    callback, oldest first. *)
Definition Frame : Type := (TreeState * R * R)%type.

Definition run_frames (frames : list Frame) (s : State) : State :=
  fold_left (fun s '(treeState, time, delta) => useFrame treeState time delta s)
            frames s.

End Ornaments.


(** ** The foliage component *)

Module TreeFoliage.

Definition COUNT : nat := Z.to_nat 15000.
Definition TREE_HEIGHT : R := 16.
Definition TREE_RADIUS : R := 6.

(** *** The vertex shader *)

(** Cubic ease out function for smooth landing. *)
Definition easeOutCubic (x : R) : option R :=
  match GLSL.pow (1.0 - x) 3.0 with
  | Some c => Some (1.0 - c)
  | None => None
  end.

Definition vec3_mix (a b : Vec3) (t : R) : Vec3 :=
  mkVec3 (GLSL.mix (vx a) (vx b) t) (GLSL.mix (vy a) (vy b) t)
         (GLSL.mix (vz a) (vz b) t).

Definition vec3_add (a b : Vec3) : Vec3 :=
  mkVec3 (vx a + vx b) (vy a + vy b) (vz a + vz b).

Definition vec3_scale (a : Vec3) (s : R) : Vec3 :=
  mkVec3 (vx a * s) (vy a * s) (vz a * s).

(** The noise vector of [main]. *)
Definition noise (uTime aRandom : R) : Vec3 :=
  mkVec3 (sin (uTime * 2.0 + aRandom * 100.0) * 0.1)
         (cos (uTime * 1.5 + aRandom * 50.0) * 0.1)
         (sin (uTime * 1.0 + aRandom * 25.0) * 0.1).

(** The interpolated position of [main], before the noise is added. *)
Definition interpolated (uProgress : R) (aChaosPos aTargetPos : Vec3)
  : option Vec3 :=
  match easeOutCubic uProgress with
  | Some easeProgress => Some (vec3_mix aChaosPos aTargetPos easeProgress)
  | None => None
  end.

(** The value of [pos] that [main] hands to the model-view transform.  The
    camera transform and the point size that follow are not modelled. *)
Definition vertex_pos (uTime uProgress : R) (aChaosPos aTargetPos : Vec3)
  (aRandom : R) : option Vec3 :=
  match interpolated uProgress aChaosPos aTargetPos with
  | Some pos =>
      if Rgtb uProgress 0.9
      then Some (vec3_add pos (vec3_scale (noise uTime aRandom) 0.5))
      else Some (vec3_add pos (vec3_scale (noise uTime aRandom) 2.0))
  | None => None
  end.

(** *** The component *)

Record Uniforms : Type := mkUniforms {
  uTime : R;
  uProgress : R;
  uColorBase : ColorValue;
  uColorTip : ColorValue;
  uColorSparkle : ColorValue
}.

Definition initial_uniforms : Uniforms :=
  mkUniforms 0 0 "#003311"%string "#006622"%string "#ffd700"%string.

Record Geometry : Type := mkGeometry {
  chaosPositions : Float32Array;
  targetPositions : Float32Array;
  randoms : Float32Array
}.

Record State : Type := mkState {
  currentProgress : R;
  material : option Uniforms;   (* materialRef.current *)
  geometry : Geometry
}.

(** The callback given to [useFrame]. *)
Definition useFrame (treeState : TreeState) (time delta : R) (s : State)
  : State :=
  let targetProgress := if TreeState_eqb treeState FORMED then 1 else 0 in
  match material s with
  | Some u =>
      (* Smooth lerp for state transition *)
      let progress :=
        MathUtils.lerp (currentProgress s) targetProgress (delta * 1.5) in
      mkState progress
        (Some (mkUniforms time progress (uColorBase u) (uColorTip u)
                          (uColorSparkle u)))
        (geometry s)
  | None => s
  end.

(** One iteration of the loop that fills the three attribute arrays. *)
Definition generate_point (i : nat) (g : Geometry) : M Geometry :=
  (let i3 := (i * 3)%nat in
   (* 1. Chaos positions: random point in sphere *)
   u <- Math_random ;;
   v <- Math_random ;;
   let theta := 2 * PI * u in
   let phi := acos (2 * v - 1) in
   k <- Math_random ;;
   let r := 25 * Math_cbrt k in
   let chaos := f32_set (chaosPositions g) i3 (r * sin phi * cos theta) in
   let chaos := f32_set chaos (i3 + 1) (r * sin phi * sin theta + 10) in
   let chaos := f32_set chaos (i3 + 2) (r * cos phi) in
   (* 2. Target positions: cone shape *)
   hNorm <- Math_random ;;
   let y := hNorm * TREE_HEIGHT in
   let rCone := (1 - hNorm) * TREE_RADIUS in
   a <- Math_random ;;
   let angle := a * PI * 2 in
   q <- Math_random ;;
   let rFinal := sqrt q * rCone in
   let target := f32_set (targetPositions g) i3 (cos angle * rFinal) in
   let target := f32_set target (i3 + 1) y in
   let target := f32_set target (i3 + 2) (sin angle * rFinal) in
   (* 3. Random attribute for sparkle variety *)
   z <- Math_random ;;
   let rands := f32_set (randoms g) i z in
   ret (mkGeometry chaos target rands))%world.

(** The [for] loop: [n] iterations left, the next index is [i]. *)
Fixpoint generate_loop (n i : nat) (g : Geometry) : M Geometry :=
  match n with
  | O => ret g
  | S n' => (g' <- generate_point i g ;; generate_loop n' (S i) g')%world
  end.

(** The body of [useMemo], for a population of [count] points. *)
Definition generate_geometry (count : nat) : M Geometry :=
  generate_loop count 0%nat
    (mkGeometry (new_Float32Array (count * 3)) (new_Float32Array (count * 3))
                (new_Float32Array count)).

Definition useMemo_geometry : M Geometry := generate_geometry COUNT.

(** Particle [i] of a geometry: its chaos and target positions. *)
Definition chaos_of (g : Geometry) (i : nat) : Vec3 :=
  mkVec3 (f32_at (chaosPositions g) (i * 3))
         (f32_at (chaosPositions g) (i * 3 + 1))
         (f32_at (chaosPositions g) (i * 3 + 2)).

Definition target_of (g : Geometry) (i : nat) : Vec3 :=
  mkVec3 (f32_at (targetPositions g) (i * 3))
         (f32_at (targetPositions g) (i * 3 + 1))
         (f32_at (targetPositions g) (i * 3 + 2)).

Definition Frame : Type := (TreeState * R * R)%type.

Definition run_frames (frames : list Frame) (s : State) : State :=
  fold_left (fun s '(treeState, time, delta) => useFrame treeState time delta s)
            frames s.

End TreeFoliage.


(** ** The foliage shaders: point size and fragment stage *)

Module FoliageShader.

(** GLSL [step(edge, x)]: 0 below the edge, 1 from the edge on. *)
Definition step (edge x : R) : R := if Rlt_dec x edge then 0.0 else 1.0.

(** [gl_PointSize] of the vertex shader, for the camera-space depth
    [mvPosition.z] of the vertex. *)
Definition point_size (aRandom mvPosition_z : R) : R :=
  (4.0 * aRandom + 2.0) * (20.0 / - mvPosition_z).

(** The fragment shader, at [gl_PointCoord = (cx, cy)]: [None] is
    [discard], otherwise the colour and the alpha of [gl_FragColor]. *)
Definition fragment (uColorBase uColorTip uColorSparkle : Vec3)
  (uTime vAlpha cx cy : R) : option (Vec3 * R) :=
  (* Circular particle *)
  let x := cx - 0.5 in
  let y := cy - 0.5 in
  let ll := sqrt (x * x + y * y) in
  if Rgtb ll 0.5 then None
  else
    (* Gradient color based on point coord *)
    let color := TreeFoliage.vec3_mix uColorBase uColorTip (cy + 0.3) in
    (* Sparkle effect *)
    let sparkle := step 0.98 (sin (uTime * 5.0 + vAlpha * 100.0)) in
    let color := TreeFoliage.vec3_mix color uColorSparkle (sparkle * 0.8) in
    Some (color, 1.0).

End FoliageShader.


(** ** The application shell and the component it renders *)

Module App.

(** [useState<TreeState>(TreeState.CHAOS)]. *)
Definition initial : TreeState := CHAOS.

(** The updater given to [setTreeState] by [toggleState]. *)
Definition toggleState (prev : TreeState) : TreeState :=
  if TreeState_eqb prev CHAOS then FORMED else CHAOS.

Definition isFormed (treeState : TreeState) : bool :=
  TreeState_eqb treeState FORMED.

(** The text of the button. *)
Definition buttonLabel (treeState : TreeState) : string :=
  if isFormed treeState then "RELEASE CHAOS"%string
  else "ASSEMBLE MAJESTY"%string.

(** The state after a number of clicks on the button. *)
Fixpoint after_clicks (n : nat) (treeState : TreeState) : TreeState :=
  match n with
  | O => treeState
  | S n' => after_clicks n' (toggleState treeState)
  end.

End App.

(** The string value of a member of the [TreeState] enum. *)
Definition TreeState_value (treeState : TreeState) : string :=
  match treeState with
  | CHAOS => "CHAOS"%string
  | FORMED => "FORMED"%string
  end.

(** The [Experience] component that [App] imports from
    [./components/Experience]: a placeholder that shows the state. *)
Module Experience.

(** The text of the [div] it renders. *)
Definition text (treeState : TreeState) : string :=
  ("3D Tree Placeholder. State: " ++ TreeState_value treeState)%string.

End Experience.


(** ** Vocabulary of the specification *)

(** The target of the progress controller: 1 when formed, 0 in chaos. *)
Definition tTarget (mode : TreeState) : R :=
  if TreeState_eqb mode FORMED then 1 else 0.

(** The far end a transition starts from: 0 towards formed, 1 towards
    chaos. *)
Definition tStart (mode : TreeState) : R := 1 - tTarget mode.

(** Frames that hold the mode and the frame time fixed; only the clock
    varies. *)
Definition steady (mode : TreeState) (dt : R) (times : list R)
  : list (TreeState * R * R) :=
  map (fun t => (mode, t, dt)) times.

Definition ornaments_progress (mode : TreeState) (dt : R)
  (s : Ornaments.State) (times : list R) : R :=
  Ornaments.currentProgress (Ornaments.run_frames (steady mode dt times) s).

Definition foliage_progress (mode : TreeState) (dt : R)
  (s : TreeFoliage.State) (times : list R) : R :=
  TreeFoliage.currentProgress
    (TreeFoliage.run_frames (steady mode dt times) s).

(** The per-class remaps of the shared progress. *)
Definition box_remap (progress : R) : R :=
  MathUtils.clamp ((progress - 0.1) * 1.1) 0 1.

Definition light_remap (progress : R) : R :=
  MathUtils.clamp (progress * 1.2) 0 1.

(** Distance of a point from the vertical axis of the tree. *)
Definition lateral (v : Vec3) : R := sqrt (vx v * vx v + vz v * vz v).

(** The cone of height [H] and base radius [Rd], widened by [factor]. *)
Definition in_cone (factor H Rd : R) (v : Vec3) : Prop :=
  0 <= vy v <= H /\ lateral v <= factor * ((1 - vy v / H) * Rd).

(** The direction of spherical angles [theta], [phi], in the axis order the
    generators use. *)
Definition sphere_direction (theta phi : R) : Vec3 :=
  mkVec3 (sin phi * cos theta) (sin phi * sin theta) (cos phi).

(** [c] is the point at radius [r] in the direction drawn from [u], [v],
    lifted by [lift]. *)
Definition chaos_point (u v r lift : R) (c : Vec3) : Prop :=
  let d := sphere_direction (2 * PI * u) (acos (2 * v - 1)) in
  vx c = r * vx d /\ vy c = r * vy d + lift /\ vz c = r * vz d.

(** Distance of a chaos point from the centre of the lifted cloud. *)
Definition chaos_radius (lift : R) (c : Vec3) : R :=
  sqrt (vx c * vx c + (vy c - lift) * (vy c - lift) + vz c * vz c).

Definition unit_interval (f : nat -> R) : Prop := forall n, 0 <= f n < 1.

(** Small concrete states for examples. *)
Definition empty_heap : Heap :=
  mkHeap (fun _ => mkVec3 0 0 0) 0%nat (fun _ => mkVec3 0 0 0) 0%nat
         (fun _ => EmptyString) 0%nat.

Definition world_of (f : nat -> R) : World := mkWorld empty_heap f 0%nat.

Definition bare_ornaments (progress : R) : Ornaments.State :=
  Ornaments.mkState empty_heap
    (Three.mkObject3D 0%nat 0%nat (Three.mkQuaternion 0 0 0 1) 1%nat
                      Three.Matrix4_identity)
    2%nat progress None None None [] [] [].

Definition bare_foliage (progress : R) : TreeFoliage.State :=
  TreeFoliage.mkState progress (Some TreeFoliage.initial_uniforms)
    (TreeFoliage.mkGeometry (new_Float32Array 0%nat) (new_Float32Array 0%nat)
                            (new_Float32Array 0%nat)).

(** What convergence of a controller means for a family of runs [p], indexed
    by the clock values of the frames run so far: the progress stays in the
    unit interval, every further frame brings it strictly closer to the
    target while it is off the target, and it ends up within any tolerance. *)
Definition converges_within_unit (target : R) (p : list R -> R) : Prop :=
  (forall times, 0 <= p times <= 1) /\
  (forall times t, p times <> target ->
     Rabs (p (times ++ [t]) - target) < Rabs (p times - target)) /\
  (forall eps, 0 < eps ->
     exists N, forall times, (N <= List.length times)%nat ->
       Rabs (p times - target) < eps).

(** The radial offset of an ornament class: lights sit just outside the cone
    surface, balls and boxes just inside. *)
Definition depth_offset (type : Ornaments.OrnamentType) : R :=
  if Ornaments.is_light type then 1.05 else 0.9.

(** The objects of a record exist in a store. *)
Definition allocated (h : Heap) (d : OrnamentData) : Prop :=
  (chaosPos d < nvectors h)%nat /\ (targetPos d < nvectors h)%nat /\
  (targetRot d < neulers h)%nat /\ (color d < ncolors h)%nat.

(** The objects of a record lie at or above the allocation marks of a
    store: they were created after it. *)
Definition fresh_from (h : Heap) (d : OrnamentData) : Prop :=
  (nvectors h <= chaosPos d)%nat /\ (nvectors h <= targetPos d)%nat /\
  (neulers h <= targetRot d)%nat /\ (ncolors h <= color d)%nat.

(** [h'] has every object of [h], unchanged, and possibly more. *)
Definition extends (h h' : Heap) : Prop :=
  (nvectors h <= nvectors h')%nat /\ (neulers h <= neulers h')%nat /\
  (ncolors h <= ncolors h')%nat /\
  (forall l, (l < nvectors h)%nat -> vectors h' l = vectors h l) /\
  (forall l, (l < neulers h)%nat -> eulers h' l = eulers h l) /\
  (forall l, (l < ncolors h)%nat -> colors h' l = colors h l).

(** A record whose two positions were placed by the ornament generator:
    the chaos point from three draws, the target point from two. *)
Definition ornament_placed (type : Ornaments.OrnamentType) (h : Heap)
  (d : OrnamentData) : Prop :=
  exists u v k hNorm j,
    0 <= u < 1 /\ 0 <= v < 1 /\ 0 <= k < 1 /\ 0 <= hNorm < 1 /\ 0 <= j < 1 /\
    chaos_point u v (20 + k * 15) 10 (vectors h (chaosPos d)) /\
    vectors h (targetPos d) =
      mkVec3
        (cos (hNorm * PI * 10 + j * PI * 2) *
           ((1 - hNorm) * Ornaments.TREE_RADIUS * depth_offset type))
        (hNorm * Ornaments.TREE_HEIGHT)
        (sin (hNorm * PI * 10 + j * PI * 2) *
           ((1 - hNorm) * Ornaments.TREE_RADIUS * depth_offset type)).

(** Point [i] of a foliage geometry was placed by the generator: the chaos
    point from three draws, the target point from three more. *)
Definition foliage_placed (g : TreeFoliage.Geometry) (i : nat) : Prop :=
  exists u v k hNorm a q,
    0 <= u < 1 /\ 0 <= v < 1 /\ 0 <= k < 1 /\ 0 <= hNorm < 1 /\
    0 <= a < 1 /\ 0 <= q < 1 /\
    chaos_point u v (25 * Math_cbrt k) 10 (TreeFoliage.chaos_of g i) /\
    TreeFoliage.target_of g i =
      mkVec3
        (cos (a * PI * 2) * (sqrt q * ((1 - hNorm) * TreeFoliage.TREE_RADIUS)))
        (hNorm * TreeFoliage.TREE_HEIGHT)
        (sin (a * PI * 2) * (sqrt q * ((1 - hNorm) * TreeFoliage.TREE_RADIUS))).

(** The three attribute arrays hold [n] points. *)
Definition holds_points (g : TreeFoliage.Geometry) (n : nat) : Prop :=
  f32_length (TreeFoliage.chaosPositions g) = (n * 3)%nat /\
  f32_length (TreeFoliage.targetPositions g) = (n * 3)%nat /\
  f32_length (TreeFoliage.randoms g) = n.

(** Linear interpolation between two points. *)
Definition lerp3 (a b : Vec3) (t : R) : Vec3 :=
  mkVec3 (vx a + (vx b - vx a) * t) (vy a + (vy b - vy a) * t)
         (vz a + (vz b - vz a) * t).

(** The jitter the foliage shader adds: three sinusoids of the clock, seeded
    by the particle's random attribute, at a common amplitude. *)
Definition jitter (amplitude uTime aRandom : R) : Vec3 :=
  mkVec3 (amplitude * sin (uTime * 2 + aRandom * 100))
         (amplitude * cos (uTime * 1.5 + aRandom * 50))
         (amplitude * sin (uTime * 1 + aRandom * 25)).

(** The static attributes of a particle, as a record denotes them in a
    store. *)
Record ParticleRecord : Type := mkParticleRecord {
  chaosPosition : Vec3;
  targetPosition : Vec3;
  targetOrientation : Vec3;
  particleColor : ColorValue;
  baselineScale : R
}.

Definition record_in (h : Heap) (d : OrnamentData) : ParticleRecord :=
  mkParticleRecord (vectors h (chaosPos d)) (vectors h (targetPos d))
                   (eulers h (targetRot d)) (colors h (color d)) (scale d).

(** The three tables of the ornaments component. *)
Definition tables (s : Ornaments.State) : list OrnamentData :=
  Ornaments.balls s ++ Ornaments.boxes s ++ Ornaments.lights s.

(** The vectors the frame callback writes to. *)
Definition scratch_vectors (tmp : loc) (d : Three.Object3D) : list loc :=
  [tmp; Three.position d; Three.scale d].

(** A record shares no object with the scratch objects. *)
Definition clear_of_scratch (tmp : loc) (dm : Three.Object3D)
  (d : OrnamentData) : Prop :=
  ~ In (chaosPos d) (scratch_vectors tmp dm) /\
  ~ In (targetPos d) (scratch_vectors tmp dm) /\
  targetRot d <> Three.rotation dm.

Definition separated (s : Ornaments.State) : Prop :=
  Forall (clear_of_scratch (Ornaments.tempVec3 s) (Ornaments.dummy s))
         (tables s).

(** The footprint of the frame callback: the scratch object keeps its parts,
    and outside the scratch objects the store is unchanged. *)
Definition scratch_only (tmp : loc) (d : Three.Object3D) (h : Heap)
  (d' : Three.Object3D) (h' : Heap) : Prop :=
  Three.position d' = Three.position d /\
  Three.rotation d' = Three.rotation d /\
  Three.scale d' = Three.scale d /\
  (forall l, ~ In l (scratch_vectors tmp d) -> vectors h' l = vectors h l) /\
  (forall l, l <> Three.rotation d -> eulers h' l = eulers h l) /\
  colors h' = colors h.

(** Two records that agree on every field but [speed]. *)
Definition same_but_speed (d1 d2 : OrnamentData) : Prop :=
  chaosPos d1 = chaosPos d2 /\ targetPos d1 = targetPos d2 /\
  targetRot d1 = targetRot d2 /\ color d1 = color d2 /\ scale d1 = scale d2.

(** Two states of the ornaments component that agree on everything but the
    [speed] fields of their tables. *)
Definition speed_blind (s1 s2 : Ornaments.State) : Prop :=
  Ornaments.store s1 = Ornaments.store s2 /\
  Ornaments.dummy s1 = Ornaments.dummy s2 /\
  Ornaments.tempVec3 s1 = Ornaments.tempVec3 s2 /\
  Ornaments.currentProgress s1 = Ornaments.currentProgress s2 /\
  Ornaments.ballMesh s1 = Ornaments.ballMesh s2 /\
  Ornaments.boxMesh s1 = Ornaments.boxMesh s2 /\
  Ornaments.lightMesh s1 = Ornaments.lightMesh s2 /\
  Forall2 same_but_speed (Ornaments.balls s1) (Ornaments.balls s2) /\
  Forall2 same_but_speed (Ornaments.boxes s1) (Ornaments.boxes s2) /\
  Forall2 same_but_speed (Ornaments.lights s1) (Ornaments.lights s2).

(** The meshes of a state: what is rendered. *)
Definition meshes (s : Ornaments.State)
  : option Three.InstancedMesh * option Three.InstancedMesh *
    option Three.InstancedMesh :=
  (Ornaments.ballMesh s, Ornaments.boxMesh s, Ornaments.lightMesh s).

(** A small mounted component for examples: one ball, one box and one light
    whose objects lie above the scratch objects, and a mesh of one instance
    each. *)
Definition sample_heap : Heap :=
  mkHeap (fun l => mkVec3 (INR l) 1 2) 9%nat
         (fun l => mkVec3 0 (INR l) 0) 4%nat
         (fun _ => "#D4AF37"%string) 3%nat.

Definition sample_mesh : Three.InstancedMesh :=
  Three.mkInstancedMesh 1 (fun _ => Three.Matrix4_identity) false None false.

Definition sample_ornaments (speed_of_ball : R) : Ornaments.State :=
  Ornaments.mkState sample_heap
    (Three.mkObject3D 0%nat 0%nat (Three.mkQuaternion 0 0 0 1) 1%nat
                      Three.Matrix4_identity)
    2%nat 0
    (Some sample_mesh) (Some sample_mesh) (Some sample_mesh)
    [mkOrnamentData 3%nat 4%nat 1%nat 0%nat 0.25 speed_of_ball]
    [mkOrnamentData 5%nat 6%nat 2%nat 1%nat 0.35 0.8]
    [mkOrnamentData 7%nat 8%nat 3%nat 2%nat 0.1 2.0].

(** Two runs of the layout effect agree: both fail, or both succeed in
    related states. *)
Definition layout_agree (r1 r2 : option Ornaments.State) : Prop :=
  match r1, r2 with
  | Some s1, Some s2 => speed_blind s1 s2
  | None, None => True
  | _, _ => False
  end.

(** Every frame of a run lasts between 0 and [bound] seconds. *)
Definition frame_times_within (bound : R) (frames : list (TreeState * R * R))
  : Prop :=
  Forall (fun f => 0 <= snd f <= bound) frames.

(** [x] lies between [a] and [b], whichever is the smaller. *)
Definition between (a b x : R) : Prop :=
  (a <= x <= b) \/ (b <= x <= a).

(** The three colour uniforms of the foliage material. *)
Definition uniform_colors (u : TreeFoliage.Uniforms)
  : ColorValue * ColorValue * ColorValue :=
  (TreeFoliage.uColorBase u, TreeFoliage.uColorTip u,
   TreeFoliage.uColorSparkle u).

(** The clock value of the last frame of a run. *)
Definition last_clock (frames : list (TreeState * R * R)) : R :=
  last (map (fun f => snd (fst f)) frames) 0.

(** After a frame the material holds the progress of the component, the
    clock of the frame and the colours [c]. *)
Definition uniforms_in_step (c : ColorValue * ColorValue * ColorValue)
  (time : R) (s : TreeFoliage.State) : Prop :=
  exists u, TreeFoliage.material s = Some u /\
    TreeFoliage.uProgress u = TreeFoliage.currentProgress s /\
    TreeFoliage.uTime u = time /\ uniform_colors u = c.

(** The pose the frame callback gives one instance: where it puts the
    scratch object before composing its matrix. *)
Record Pose : Type := mkPose {
  pose_position : Vec3;
  pose_rotation : Vec3;   (* Euler angles, order XYZ *)
  pose_scale : Vec3
}.

Definition pose_matrix (P : Pose) : Three.Matrix4 :=
  Three.Matrix4_compose (pose_position P)
    (Three.Quaternion_setFromEuler (pose_rotation P)) (pose_scale P).

(** The pose of ball [i], as a function of its static record, the progress
    and the clock. *)
Definition ball_pose (isForming : bool) (p time : R) (r : ParticleRecord)
  (i : nat) : Pose :=
  let base := lerp3 (chaosPosition r) (targetPosition r) p in
  let pos :=
    if Rltb p 0.99
    then mkVec3 (vx base + cos (time + INR i) * 0.05 * (1 - p))
                (vy base + sin (time + INR i) * 0.05 * (1 - p))
                (vz base)
    else base in
  let rot := mkVec3 (vx (targetOrientation r) + (1 - p) * time)
                    (vy (targetOrientation r) + (1 - p) * time)
                    (vz (targetOrientation r)) in
  let sc := if negb isForming && Rltb p 0.1
            then baselineScale r * p else baselineScale r in
  mkPose pos rot (mkVec3 sc sc sc).

Definition box_pose (p time : R) (r : ParticleRecord) (i : nat) : Pose :=
  let q := box_remap p in
  mkPose (lerp3 (chaosPosition r) (targetPosition r) q)
         (mkVec3 (vx (targetOrientation r) + (1 - q) * sin time)
                 (vy (targetOrientation r) + (1 - q) * time * 0.5)
                 (vz (targetOrientation r)))
         (mkVec3 (baselineScale r) (baselineScale r) (baselineScale r)).

Definition light_pose (p time : R) (r : ParticleRecord) (i : nat) : Pose :=
  let q := light_remap p in
  let sc := baselineScale r * (0.8 + 0.4 * sin (time * 5 + INR i)) in
  mkPose (lerp3 (chaosPosition r) (targetPosition r) q) (mkVec3 0 0 0)
         (mkVec3 sc sc sc).

(** The scratch object holds the pose [P] and its matrix. *)
Definition holds_pose (P : Pose) (d : Three.Object3D) (h : Heap) : Prop :=
  vectors h (Three.position d) = pose_position P /\
  eulers h (Three.rotation d) = pose_rotation P /\
  vectors h (Three.scale d) = pose_scale P /\
  Three.matrix d = pose_matrix P.

(** [mesh'] is [mesh] with the matrix of every instance that has a record in
    [table] replaced by [G] of that record; instances past the table or past
    the instance count keep their matrix, and colours are not touched. *)
Definition mesh_filled (G : ParticleRecord -> nat -> Three.Matrix4)
  (h : Heap) (table : list OrnamentData)
  (mesh mesh' : Three.InstancedMesh) : Prop :=
  Three.count mesh' = Three.count mesh /\
  Three.instanceColor mesh' = Three.instanceColor mesh /\
  Three.instanceColor_needsUpdate mesh' =
    Three.instanceColor_needsUpdate mesh /\
  forall j,
    Three.instanceMatrix mesh' j =
    match nth_error table j with
    | Some data =>
        if Nat.ltb j (Three.count mesh) then G (record_in h data) j
        else Three.instanceMatrix mesh j
    | None => Three.instanceMatrix mesh j
    end.

(** The same for a mesh ref: a null ref stays null, a mounted mesh is filled
    and flagged. *)
Definition population_filled (G : ParticleRecord -> nat -> Three.Matrix4)
  (h : Heap) (table : list OrnamentData)
  (mesh mesh' : option Three.InstancedMesh) : Prop :=
  match mesh, mesh' with
  | None, None => True
  | Some m, Some m' =>
      mesh_filled G h table m m' /\
      Three.instanceMatrix_needsUpdate m' = true
  | _, _ => False
  end.

(** [mesh'] is [mesh] with the colour of every instance that has a record in
    [table] set to the colour of that record, and the colour attribute
    flagged; matrices are not touched. *)
Definition mesh_colored (h : Heap) (table : list OrnamentData)
  (mesh mesh' : Three.InstancedMesh) : Prop :=
  Three.count mesh' = Three.count mesh /\
  Three.instanceMatrix mesh' = Three.instanceMatrix mesh /\
  Three.instanceMatrix_needsUpdate mesh' =
    Three.instanceMatrix_needsUpdate mesh /\
  Three.instanceColor_needsUpdate mesh' = true /\
  exists arr,
    Three.instanceColor mesh' = Some arr /\
    forall j data,
      nth_error table j = Some data -> (j < Three.count mesh)%nat ->
      arr j = colors h (color data).

(** The cases in which one population of the layout effect throws: records
    to colour but no mesh, or a mesh that never got a colour array. *)
Definition colors_throw (table : list OrnamentData)
  (mesh : option Three.InstancedMesh) : Prop :=
  match mesh with
  | None => table <> []
  | Some m => table = [] /\ Three.instanceColor m = None
  end.

(** The colour arrays, the instance counts and the mounting of the three
    meshes. *)
Definition mesh_colors (mesh : option Three.InstancedMesh)
  : option (nat * option (nat -> ColorValue) * bool) :=
  match mesh with
  | Some m => Some (Three.count m, Three.instanceColor m,
                    Three.instanceColor_needsUpdate m)
  | None => None
  end.

(** The colour array of a mesh, white where [setColorAt] was never called. *)
Definition color_array (mesh : Three.InstancedMesh) : nat -> ColorValue :=
  match Three.instanceColor mesh with
  | Some a => a
  | None => fun _ => "#ffffff"%string
  end.

(** The effect of the layout effect on one mesh ref when it does not throw:
    a null ref had nothing to colour, a mounted mesh is coloured. *)
Definition population_colored (h : Heap) (table : list OrnamentData)
  (mesh mesh' : option Three.InstancedMesh) : Prop :=
  match mesh, mesh' with
  | None, None => table = []
  | Some m, Some m' => mesh_colored h table m m'
  | _, _ => False
  end.

(** The scale and the speed weight of a class of ornaments. *)
Definition class_scale (type : Ornaments.OrnamentType) : R :=
  if Ornaments.is_light type then 0.1
  else if Ornaments.is_ball type then 0.25 else 0.35.

Definition class_speed (type : Ornaments.OrnamentType) : R :=
  if Ornaments.is_light type then 2.0
  else if Ornaments.is_ball type then 1.5 else 0.8.

(** A record that carries the attributes of its class: the warm white of
    the lights or a colour of the palette, the scale and speed of the class,
    and Euler angles in [0, pi). *)
Definition ornament_dressed (type : Ornaments.OrnamentType) (h : Heap)
  (d : OrnamentData) : Prop :=
  (if Ornaments.is_light type
   then colors h (color d) = "#ffccaa"%string
   else In (colors h (color d)) Ornaments.palette) /\
  scale d = class_scale type /\ speed d = class_speed type /\
  0 <= vx (eulers h (targetRot d)) < PI /\
  0 <= vy (eulers h (targetRot d)) < PI /\
  0 <= vz (eulers h (targetRot d)) < PI.

(** The vectors of a record, and tables whose records share no object. *)
Definition record_vectors (d : OrnamentData) : list loc :=
  [chaosPos d; targetPos d].

Definition distinct_objects (data : list OrnamentData) : Prop :=
  NoDup (flat_map record_vectors data) /\
  NoDup (map targetRot data) /\ NoDup (map color data).

(** The number of [Math.random] calls of one iteration of the ornament
    loop: three for the chaos position, two for the target position, three
    for the rotation, and one more for the palette unless the particle is a
    light.  One iteration of the foliage loop makes seven calls. *)
Definition ornament_draws (type : Ornaments.OrnamentType) : nat :=
  if Ornaments.is_light type then 8%nat else 9%nat.

Definition foliage_draws : nat := 7%nat.

(** * Properties *)

(** ** Numeric primitives *)

Ltac split_all := repeat match goal with |- _ /\ _ => split end.

Lemma Rltb_true (x y : R) : Rltb x y = true <-> x < y.
Proof. unfold Rltb; destruct (Rlt_dec x y); split; intros; congruence || auto. Qed.

Lemma Rltb_false (x y : R) : Rltb x y = false <-> y <= x.
Proof.
  unfold Rltb; destruct (Rlt_dec x y); split; intros;
    try reflexivity; try discriminate; try lra; exfalso; lra.
Qed.

Lemma clamp_unit_cases (x : R) :
  (x <= 0 /\ MathUtils.clamp x 0 1 = 0) \/
  (0 <= x <= 1 /\ MathUtils.clamp x 0 1 = x) \/
  (1 <= x /\ MathUtils.clamp x 0 1 = 1).
Proof.
  unfold MathUtils.clamp, Math_max, Math_min.
  destruct (Rlt_dec x 1); [ destruct (Rlt_dec 0 x) | destruct (Rlt_dec 0 1) ];
    first [ left; split; lra
          | right; left; split; lra
          | right; right; split; lra ].
Qed.

Lemma clamp_unit_range (x : R) : 0 <= MathUtils.clamp x 0 1 <= 1.
Proof. destruct (clamp_unit_cases x) as [[? ->]|[[? ->]|[? ->]]]; lra. Qed.

Lemma clamp_unit_mono (x y : R) :
  x <= y -> MathUtils.clamp x 0 1 <= MathUtils.clamp y 0 1.
Proof.
  intros Hxy.
  destruct (clamp_unit_cases x) as [[? ->]|[[? ->]|[? ->]]];
    destruct (clamp_unit_cases y) as [[? ->]|[[? ->]|[? ->]]]; lra.
Qed.

(** ** The progress controllers *)

Lemma tTarget_cases (mode : TreeState) :
  (mode = FORMED /\ tTarget mode = 1) \/ (mode = CHAOS /\ tTarget mode = 0).
Proof. destruct mode; [right | left]; split; reflexivity. Qed.

(** The ornaments callback moves the progress by one [lerp] at rate 0.8,
    whatever the meshes and tables are. *)
Lemma ornaments_useFrame_progress mode time delta s :
  Ornaments.currentProgress (Ornaments.useFrame mode time delta s) =
  MathUtils.lerp (Ornaments.currentProgress s) (tTarget mode) (delta * 0.8).
Proof.
  unfold Ornaments.useFrame, tTarget.
  destruct (Ornaments.update_population _ (Ornaments.balls s) _ _ _)
    as [[d1 h1] m1].
  destruct (Ornaments.update_population _ (Ornaments.boxes s) _ _ _)
    as [[d2 h2] m2].
  destruct (Ornaments.update_population _ (Ornaments.lights s) _ _ _)
    as [[d3 h3] m3].
  reflexivity.
Qed.

(** The foliage callback does the same at rate 1.5 once the material is
    mounted, and keeps it mounted. *)
Lemma foliage_useFrame_progress mode time delta s :
  TreeFoliage.material s <> None ->
  TreeFoliage.currentProgress (TreeFoliage.useFrame mode time delta s) =
    MathUtils.lerp (TreeFoliage.currentProgress s) (tTarget mode) (delta * 1.5)
  /\ TreeFoliage.material (TreeFoliage.useFrame mode time delta s) <> None.
Proof.
  unfold TreeFoliage.useFrame, tTarget.
  destruct (TreeFoliage.material s) as [u|]; [ | congruence ].
  intros _; simpl; split; [ reflexivity | discriminate ].
Qed.

(** The error of a [lerp] step is the old error scaled by [1 - t]. *)
Lemma lerp_error (x y t : R) :
  MathUtils.lerp x y t - y = (1 - t) * (x - y).
Proof. unfold MathUtils.lerp; ring. Qed.

(** Closed form of the progress after a run of steady frames. *)
Lemma ornaments_progress_closed mode dt times : forall s,
  ornaments_progress mode dt s times - tTarget mode =
  (1 - dt * 0.8) ^ List.length times * (Ornaments.currentProgress s - tTarget mode).
Proof.
  unfold ornaments_progress, Ornaments.run_frames, steady.
  induction times as [|t times IH]; intros s; simpl.
  - ring.
  - rewrite IH, ornaments_useFrame_progress, lerp_error. ring.
Qed.

Lemma foliage_progress_closed mode dt times : forall s,
  TreeFoliage.material s <> None ->
  foliage_progress mode dt s times - tTarget mode =
  (1 - dt * 1.5) ^ List.length times * (TreeFoliage.currentProgress s - tTarget mode).
Proof.
  unfold foliage_progress, TreeFoliage.run_frames, steady.
  induction times as [|t times IH]; intros s Hm; simpl.
  - ring.
  - destruct (foliage_useFrame_progress mode t dt s Hm) as [Hp Hm'].
    rewrite (IH _ Hm'), Hp, lerp_error. ring.
Qed.

Lemma pow_unit (q : R) (n : nat) : 0 <= q <= 1 -> 0 <= q ^ n <= 1.
Proof.
  intros Hq; split; [ apply pow_le; lra | ].
  rewrite <- (pow1 n). apply pow_incr; lra.
Qed.

(** A geometric error with ratio in [0, 1) and a unit start converges in the
    sense above. *)
Lemma geometric_converges (mode : TreeState) (q : R) (p : list R -> R) :
  0 <= q < 1 ->
  (forall times,
     p times - tTarget mode = q ^ List.length times * (tStart mode - tTarget mode)) ->
  converges_within_unit (tTarget mode) p.
Proof.
  intros Hq Hp.
  assert (Hpow : forall n, 0 <= q ^ n <= 1)
    by (intros n; apply pow_unit; lra).
  assert (He : tStart mode - tTarget mode = 1 \/ tStart mode - tTarget mode = -1).
  { unfold tStart; destruct (tTarget_cases mode) as [[_ ->]|[_ ->]]; lra. }
  repeat split.
  - specialize (Hp times); specialize (Hpow (List.length times)).
    unfold tStart in Hp.
    destruct (tTarget_cases mode) as [[_ Ht]|[_ Ht]]; rewrite Ht in Hp; nra.
  - specialize (Hp times); specialize (Hpow (List.length times)).
    unfold tStart in Hp.
    destruct (tTarget_cases mode) as [[_ Ht]|[_ Ht]]; rewrite Ht in Hp; nra.
  - intros times t Hne.
    pose proof (Hp times) as H0. pose proof (Hp (times ++ [t])) as H1.
    rewrite length_app, Nat.add_comm in H1; simpl in H1.
    rewrite H1, Rmult_assoc, <- H0, Rabs_mult, (Rabs_pos_eq q) by lra.
    assert (0 < Rabs (p times - tTarget mode)) by (apply Rabs_pos_lt; lra).
    nra.
  - intros eps Heps.
    destruct (pow_lt_1_zero q) with (y := eps) as [N HN];
      [ rewrite Rabs_pos_eq; lra | exact Heps | ].
    exists N; intros times Hlen.
    rewrite Hp, Rabs_mult.
    replace (Rabs (tStart mode - tTarget mode)) with 1.
    + rewrite Rmult_1_r. apply HN. lia.
    + destruct He as [-> | ->]; [ | rewrite Rabs_left by lra ];
        try rewrite Rabs_R1; lra.
Qed.

(** C1 (amended).  For a fixed frame time [dt > 0] that keeps the [lerp]
    parameter [k * dt] at most 1 (k = 0.8 for the ornaments, k = 1.5 for the
    foliage), a controller that starts at 0 towards formed, or at 1 towards
    chaos, keeps its progress in [0,1], moves strictly closer to the target on
    every call while off the target, and comes within every epsilon. *)
Theorem progress_converges_for_small_steps :
  forall (mode : TreeState) (dt : R), 0 < dt ->
    (dt * 0.8 <= 1 ->
     forall s, Ornaments.currentProgress s = tStart mode ->
       converges_within_unit (tTarget mode) (ornaments_progress mode dt s)) /\
    (dt * 1.5 <= 1 ->
     forall s, TreeFoliage.material s <> None ->
       TreeFoliage.currentProgress s = tStart mode ->
       converges_within_unit (tTarget mode) (foliage_progress mode dt s)).
Proof.
  intros mode dt Hdt; split.
  - intros Hk s Hs. apply geometric_converges with (q := 1 - dt * 0.8).
    + lra.
    + intros times. rewrite ornaments_progress_closed, Hs. reflexivity.
  - intros Hk s Hm Hs. apply geometric_converges with (q := 1 - dt * 1.5).
    + lra.
    + intros times. rewrite (foliage_progress_closed _ _ _ _ Hm), Hs.
      reflexivity.
Qed.

Lemma progress_converges_for_small_steps_witness :
  converges_within_unit 1 (ornaments_progress FORMED (1 / 2) (bare_ornaments 0))
  /\ converges_within_unit 0 (foliage_progress CHAOS (1 / 2) (bare_foliage 1)).
Proof.
  split.
  - apply (proj1 (progress_converges_for_small_steps FORMED (1 / 2) ltac:(lra))).
    + lra.
    + unfold tStart, tTarget; simpl; lra.
  - apply (proj2 (progress_converges_for_small_steps CHAOS (1 / 2) ltac:(lra))).
    + lra.
    + simpl; discriminate.
    + unfold tStart, tTarget; simpl; lra.
Defined.

(** C1 as stated fails.  One foliage frame of one second from progress 0
    towards formed lands on 1.5, outside [0,1]; one ornaments frame of three
    seconds lands on 2.4, farther from the target than the start was. *)
Lemma progress_overshoots_for_large_steps :
  foliage_progress FORMED 1 (bare_foliage 0) [0] = 1.5 /\
  ~ (0 <= foliage_progress FORMED 1 (bare_foliage 0) [0] <= 1) /\
  ornaments_progress FORMED 3 (bare_ornaments 0) [0] = 2.4 /\
  ~ (Rabs (ornaments_progress FORMED 3 (bare_ornaments 0) [0] - 1)
     < Rabs (ornaments_progress FORMED 3 (bare_ornaments 0) [] - 1)).
Proof.
  assert (HF : foliage_progress FORMED 1 (bare_foliage 0) [0] = 1.5).
  { pose proof (foliage_progress_closed FORMED 1 [0] (bare_foliage 0)) as H.
    unfold tTarget in H; simpl in H.
    assert (Some TreeFoliage.initial_uniforms <> None) as Hm by discriminate.
    specialize (H Hm). lra. }
  assert (HO : ornaments_progress FORMED 3 (bare_ornaments 0) [0] = 2.4).
  { pose proof (ornaments_progress_closed FORMED 3 [0] (bare_ornaments 0)) as H.
    unfold tTarget in H; simpl in H. lra. }
  assert (HO0 : ornaments_progress FORMED 3 (bare_ornaments 0) [] = 0)
    by reflexivity.
  repeat split; try assumption.
  - rewrite HF. lra.
  - rewrite HO, HO0. unfold Rabs.
    destruct (Rcase_abs (2.4 - 1)); destruct (Rcase_abs (0 - 1)); lra.
Qed.

(** C6.  From progress 0 towards formed, with the foliage rate 1.5 and frames
    of one second, the progress is above 0.99 after the seventh call and after
    every later one; in particular before the tenth call. *)
Theorem formed_within_ten_calls :
  forall s times,
    TreeFoliage.material s <> None ->
    TreeFoliage.currentProgress s = 0 ->
    (7 <= List.length times)%nat ->
    0.99 < foliage_progress FORMED 1.0 s times.
Proof.
  intros s times Hm Hs Hlen.
  pose proof (foliage_progress_closed FORMED 1.0 times s Hm) as H.
  rewrite Hs in H. unfold tTarget in H; simpl in H.
  replace (1 - 1.0 * 1.5) with (- (1 / 2)) in H by lra.
  assert (Hb : Rabs ((- (1 / 2)) ^ List.length times) <= (1 / 2) ^ 7).
  { rewrite <- RPow_abs, Rabs_Ropp, Rabs_pos_eq by lra.
    replace (List.length times) with (7 + (List.length times - 7))%nat by lia.
    rewrite pow_add.
    assert (0 <= (1 / 2) ^ (List.length times - 7) <= 1)
      by (apply pow_unit; lra).
    assert (0 < (1 / 2) ^ 7) by (apply pow_lt; lra).
    nra. }
  assert (H7 : (1 / 2) ^ 7 = 1 / 128) by (simpl; lra).
  rewrite H7 in Hb. unfold Rabs in Hb.
  destruct (Rcase_abs ((- (1 / 2)) ^ List.length times)); lra.
Qed.

Lemma formed_within_ten_calls_witness :
  0.99 < foliage_progress FORMED 1.0 (bare_foliage 0) [1; 2; 3; 4; 5; 6; 7; 8; 9].
Proof.
  apply formed_within_ten_calls.
  - simpl; discriminate.
  - reflexivity.
  - simpl; lia.
Defined.

(** C7.  A frame of zero duration leaves the stored progress as it was, in
    both components, from any progress and towards either mode; in particular
    at progress 1 when the mode has just flipped to chaos. *)
Theorem zero_duration_frame_keeps_progress :
  (forall mode time s,
     Ornaments.currentProgress (Ornaments.useFrame mode time 0 s) =
     Ornaments.currentProgress s) /\
  (forall mode time s,
     TreeFoliage.currentProgress (TreeFoliage.useFrame mode time 0 s) =
     TreeFoliage.currentProgress s) /\
  ornaments_progress CHAOS 0 (bare_ornaments 1) [0] = 1 /\
  foliage_progress CHAOS 0 (bare_foliage 1) [0] = 1.
Proof.
  assert (HO : forall mode time s,
     Ornaments.currentProgress (Ornaments.useFrame mode time 0 s) =
     Ornaments.currentProgress s).
  { intros. rewrite ornaments_useFrame_progress. unfold MathUtils.lerp. ring. }
  assert (HF : forall mode time s,
     TreeFoliage.currentProgress (TreeFoliage.useFrame mode time 0 s) =
     TreeFoliage.currentProgress s).
  { intros mode time s. unfold TreeFoliage.useFrame.
    destruct (TreeFoliage.material s); simpl; [ | reflexivity ].
    unfold MathUtils.lerp. ring. }
  repeat split; try assumption.
  - unfold ornaments_progress, Ornaments.run_frames, steady.
    cbn [map fold_left]. rewrite HO. reflexivity.
  - unfold foliage_progress, TreeFoliage.run_frames, steady.
    cbn [map fold_left]. rewrite HF. reflexivity.
Qed.

(** ** The per-class remaps *)

Lemma upd_same {A : Type} (f : loc -> A) (l : loc) (a : A) : upd f l a l = a.
Proof. unfold upd. rewrite Nat.eqb_refl. reflexivity. Qed.

Lemma upd_other {A : Type} (f : loc -> A) (l l' : loc) (a : A) :
  l' <> l -> upd f l a l' = f l'.
Proof.
  intros Hne. unfold upd. destruct (Nat.eqb_spec l' l); congruence.
Qed.

(** The box callback places the instance at the interpolation of the two
    stored positions at [box_remap progress]. *)
Lemma update_box_position progress time tmp data i d h mesh :
  Three.position d <> Three.scale d ->
  let '(d', h', _) :=
    Ornaments.update_box progress time tmp data i (d, h, mesh) in
  let a := vectors h (chaosPos data) in
  let b := vectors h (targetPos data) in
  let p := box_remap progress in
  vectors h' (Three.position d') =
  mkVec3 (vx a + (vx b - vx a) * p) (vy a + (vy b - vy a) * p)
         (vz a + (vz b - vz a) * p).
Proof.
  intros Hps. unfold Ornaments.update_box, box_remap; simpl.
  rewrite upd_other by exact Hps. rewrite !upd_same. reflexivity.
Qed.

Lemma update_light_position progress time tmp data i d h mesh :
  Three.position d <> Three.scale d ->
  let '(d', h', _) :=
    Ornaments.update_light progress time tmp data i (d, h, mesh) in
  let a := vectors h (chaosPos data) in
  let b := vectors h (targetPos data) in
  let p := light_remap progress in
  vectors h' (Three.position d') =
  mkVec3 (vx a + (vx b - vx a) * p) (vy a + (vy b - vy a) * p)
         (vz a + (vz b - vz a) * p).
Proof.
  intros Hps. unfold Ornaments.update_light, light_remap; simpl.
  rewrite upd_other by exact Hps. rewrite !upd_same. reflexivity.
Qed.

Lemma box_remap_zero : box_remap 0 = 0.
Proof.
  unfold box_remap.
  destruct (clamp_unit_cases ((0 - 0.1) * 1.1)) as [[? ->]|[[? ->]|[? ->]]]; lra.
Qed.

Lemma box_remap_mono (p q : R) : p <= q -> box_remap p <= box_remap q.
Proof. intros Hpq. unfold box_remap. apply clamp_unit_mono. lra. Qed.

Lemma box_remap_range (p : R) : 0 <= box_remap p <= 1.
Proof. apply clamp_unit_range. Qed.

Lemma light_remap_one : light_remap 1 = 1.
Proof.
  unfold light_remap.
  destruct (clamp_unit_cases (1 * 1.2)) as [[? ->]|[[? ->]|[? ->]]]; lra.
Qed.

Lemma light_remap_early (p : R) : p < 1 -> p <= light_remap p.
Proof.
  intros Hp. unfold light_remap.
  destruct (clamp_unit_cases (p * 1.2)) as [[? ->]|[[? ->]|[? ->]]]; lra.
Qed.

Lemma light_remap_mono (p q : R) : p <= q -> light_remap p <= light_remap q.
Proof. intros Hpq. unfold light_remap. apply clamp_unit_mono. lra. Qed.

Lemma box_remap_below_one (p : R) : p <= 1 -> box_remap p <= 0.99.
Proof.
  intros Hp. unfold box_remap.
  destruct (clamp_unit_cases ((p - 0.1) * 1.1)) as [[? ->]|[[? ->]|[? ->]]];
    lra.
Qed.

(** C2, at the input where the code departs from it.  A frame of 1.25
    seconds towards formed brings the shared progress to exactly 1, and at
    progress 1 the box remap yields 0.99, not 1: the scale 1.1 falls short of
    the 1/0.9 that would carry the delayed interval [0.1, 1] onto [0, 1].
    The other parts of the claim are [box_remap_zero], [box_remap_mono],
    [light_remap_early] and [light_remap_one]. *)
Theorem box_remap_at_full_progress :
  (forall time s,
     Ornaments.currentProgress (Ornaments.useFrame FORMED time 1.25 s) = 1) /\
  box_remap 1 = 0.99 /\ box_remap 1 <> 1.
Proof.
  assert (H1 : box_remap 1 = 0.99).
  { unfold box_remap.
    destruct (clamp_unit_cases ((1 - 0.1) * 1.1)) as [[? ->]|[[? ->]|[? ->]]];
      lra. }
  split_all.
  - intros time s. rewrite ornaments_useFrame_progress.
    unfold MathUtils.lerp, tTarget; simpl. lra.
  - exact H1.
  - rewrite H1. lra.
Qed.

(** ** Generation of the ornament tables *)

Ltac run_world :=
  cbv beta iota zeta delta
    [Ornaments.generate_one bind ret Math_random new_Vector3 new_Euler
     new_Color Color_set Ornaments.is_light Ornaments.is_ball
     heap rng drawn vectors nvectors eulers neulers colors ncolors set_color].

(** One iteration, spelled out: the five draws that place the particle, the
    two vectors and the Euler angles it allocates, and what it leaves
    alone. *)
Lemma generate_one_eq type w :
  let h := heap w in
  let n := drawn w in
  let u := rng w n in
  let v := rng w (S n) in
  let k := rng w (S (S n)) in
  let hNorm := rng w (3 + n)%nat in
  let j := rng w (4 + n)%nat in
  let theta := 2 * PI * u in
  let phi := acos (2 * v - 1) in
  let rChaos := 20 + k * 15 in
  let spiralAngle := hNorm * PI * 10 + j * PI * 2 in
  let rFinal := (1 - hNorm) * Ornaments.TREE_RADIUS * depth_offset type in
  exists cs dr sc sp,
    (forall l, l <> ncolors h -> cs l = colors h l) /\
    Ornaments.generate_one type w =
    (mkOrnamentData (nvectors h) (S (nvectors h)) (neulers h) (ncolors h) sc sp,
     mkWorld
       (mkHeap
          (upd (upd (vectors h) (nvectors h)
                  (mkVec3 (rChaos * sin phi * cos theta)
                          (rChaos * sin phi * sin theta + 10)
                          (rChaos * cos phi)))
               (S (nvectors h))
               (mkVec3 (cos spiralAngle * rFinal)
                       (hNorm * Ornaments.TREE_HEIGHT)
                       (sin spiralAngle * rFinal)))
          (S (S (nvectors h)))
          (upd (eulers h) (neulers h)
               (mkVec3 (rng w (5 + n)%nat * PI) (rng w (6 + n)%nat * PI)
                       (rng w (7 + n)%nat * PI)))
          (S (neulers h))
          cs (S (ncolors h)))
       (rng w) dr).
Proof.
  destruct w as [[V nv E ne C nc] rnd dr].
  cbv zeta. unfold depth_offset.
  destruct type; run_world;
    try destruct (array_get _ _);
    (do 4 eexists; split; [ | reflexivity ]);
    intros l Hl; rewrite ?upd_other by exact Hl; reflexivity.
Qed.

Lemma extends_refl h : extends h h.
Proof. unfold extends; split_all; auto. Qed.

Lemma extends_trans h1 h2 h3 : extends h1 h2 -> extends h2 h3 -> extends h1 h3.
Proof.
  unfold extends.
  intros (A1 & A2 & A3 & A4 & A5 & A6) (B1 & B2 & B3 & B4 & B5 & B6).
  split_all; try lia; intros l Hl.
  - rewrite B4 by lia. apply A4; exact Hl.
  - rewrite B5 by lia. apply A5; exact Hl.
  - rewrite B6 by lia. apply A6; exact Hl.
Qed.

Lemma allocated_extends h h' d : extends h h' -> allocated h d -> allocated h' d.
Proof. unfold extends, allocated. intros (? & ? & ? & _) (? & ? & ? & ?). lia. Qed.

Lemma fresh_from_extends h h' d :
  extends h h' -> fresh_from h' d -> fresh_from h d.
Proof.
  unfold extends, fresh_from. intros (? & ? & ? & _) (? & ? & ? & ?). lia.
Qed.

Lemma ornament_placed_extends type h h' d :
  extends h h' -> allocated h d ->
  ornament_placed type h d -> ornament_placed type h' d.
Proof.
  intros (_ & _ & _ & Hv & _ & _) (Hc & Ht & _ & _).
  unfold ornament_placed. rewrite !Hv by assumption. exact (fun H => H).
Qed.

(** What one iteration allocates, whatever the draws are. *)
Lemma generate_one_alloc type w d w' :
  Ornaments.generate_one type w = (d, w') ->
  extends (heap w) (heap w') /\ rng w' = rng w /\
  allocated (heap w') d /\ fresh_from (heap w) d.
Proof.
  intros Heq.
  destruct (generate_one_eq type w) as (cs & dr & sc & sp & Hcs & E).
  cbv zeta in E. rewrite E in Heq. injection Heq as <- <-.
  unfold extends, allocated, fresh_from; simpl.
  split_all; try lia; try reflexivity.
  - intros l Hl. rewrite !upd_other by lia. reflexivity.
  - intros l Hl. rewrite upd_other by lia. reflexivity.
  - intros l Hl. apply Hcs. lia.
Qed.

(** Where one iteration places the particle, for draws in [0, 1). *)
Lemma generate_one_placed type w d w' :
  unit_interval (rng w) ->
  Ornaments.generate_one type w = (d, w') ->
  ornament_placed type (heap w') d.
Proof.
  intros Hr Heq.
  destruct (generate_one_eq type w) as (cs & dr & sc & sp & Hcs & E).
  cbv zeta in E. rewrite E in Heq. injection Heq as <- <-.
  unfold ornament_placed; simpl.
  exists (rng w (drawn w)), (rng w (S (drawn w))), (rng w (S (S (drawn w)))),
    (rng w (S (S (S (drawn w))))), (rng w (S (S (S (S (drawn w)))))).
  split_all; try apply Hr.
  - rewrite upd_other by lia. rewrite upd_same.
    unfold chaos_point, sphere_direction; simpl. split_all; ring.
  - rewrite upd_same. reflexivity.
Qed.

Lemma generate_loop_S type n data w :
  Ornaments.generate_loop (S n) type data w =
  Ornaments.generate_loop n type (data ++ [fst (Ornaments.generate_one type w)])
                          (snd (Ornaments.generate_one type w)).
Proof.
  cbn [Ornaments.generate_loop]. unfold bind.
  destruct (Ornaments.generate_one type w); reflexivity.
Qed.

(** The loop of [generateOrnamentData] keeps the records pushed so far and
    appends one freshly allocated record per iteration. *)
Lemma generate_loop_alloc type n : forall data w data' w',
  Ornaments.generate_loop n type data w = (data', w') ->
  extends (heap w) (heap w') /\ rng w' = rng w /\
  exists new, data' = data ++ new /\ List.length new = n /\
              Forall (fresh_from (heap w)) new.
Proof.
  induction n as [|n IH]; intros data w data' w' Heq.
  - cbn [Ornaments.generate_loop] in Heq. unfold ret in Heq.
    injection Heq as <- <-.
    split_all; auto using extends_refl.
    exists []. rewrite app_nil_r. auto.
  - rewrite generate_loop_S in Heq.
    destruct (Ornaments.generate_one type w) as [d w1] eqn:E1.
    cbn [fst snd] in Heq.
    destruct (generate_one_alloc type w d w1 E1) as (Hext & Hrng & _ & Hfr).
    destruct (IH _ _ _ _ Heq) as (Hext' & Hrng' & new & Hnew & Hlen & Hfresh).
    split_all.
    + eapply extends_trans; eassumption.
    + congruence.
    + exists (d :: new). rewrite Hnew, <- app_assoc. simpl.
      split_all; auto.
      constructor; [ exact Hfr | ].
      eapply Forall_impl; [ | exact Hfresh ].
      intros a Ha. eapply fresh_from_extends; eassumption.
Qed.

(** With draws in [0, 1) every record of the loop is well placed in the
    final store. *)
Lemma generate_loop_spec type n : forall data w,
  unit_interval (rng w) ->
  Forall (fun d => allocated (heap w) d /\ ornament_placed type (heap w) d)
         data ->
  forall data' w', Ornaments.generate_loop n type data w = (data', w') ->
    Forall (fun d => allocated (heap w') d /\
                     ornament_placed type (heap w') d) data'.
Proof.
  induction n as [|n IH]; intros data w Hr Hdata data' w' Heq.
  - cbn [Ornaments.generate_loop] in Heq. unfold ret in Heq.
    injection Heq as <- <-. exact Hdata.
  - rewrite generate_loop_S in Heq.
    destruct (Ornaments.generate_one type w) as [d w1] eqn:E1.
    cbn [fst snd] in Heq.
    destruct (generate_one_alloc type w d w1 E1) as (Hext & Hrng & Hal & _).
    pose proof (generate_one_placed type w d w1 Hr E1) as Hpl.
    apply (IH (data ++ [d]) w1); [ rewrite Hrng; exact Hr | | exact Heq ].
    apply Forall_app; split.
    + eapply Forall_impl; [ | exact Hdata ].
      intros a [Ha Hp]; split;
        eauto using allocated_extends, ornament_placed_extends.
    + constructor; auto.
Qed.

(** The table made by [generateOrnamentData]: its objects are new. *)
Lemma generateOrnamentData_alloc count type w data w' :
  Ornaments.generateOrnamentData count type w = (data, w') ->
  extends (heap w) (heap w') /\ rng w' = rng w /\
  List.length data = count /\ Forall (fresh_from (heap w)) data.
Proof.
  intros Heq. unfold Ornaments.generateOrnamentData in Heq.
  destruct (generate_loop_alloc type count [] w _ _ Heq)
    as (Hext & Hrng & new & Hnew & Hlen & Hfresh).
  simpl in Hnew. subst data. auto.
Qed.

(** ** Geometry of the generated points *)

Lemma sqrt_of_square (r : R) : 0 <= r -> sqrt (r * r) = r.
Proof. intros Hr. apply sqrt_square. exact Hr. Qed.

Lemma sin_cos_square (a : R) : sin a * sin a + cos a * cos a = 1.
Proof. pose proof (sin2_cos2 a) as H. unfold Rsqr in H. exact H. Qed.

(** A point at angle [a] and radius [r >= 0] around the axis is at lateral
    distance [r]. *)
Lemma lateral_polar (a r y : R) :
  0 <= r -> lateral (mkVec3 (cos a * r) y (sin a * r)) = r.
Proof.
  intros Hr. unfold lateral; simpl.
  replace (cos a * r * (cos a * r) + sin a * r * (sin a * r))
    with (r * r * (sin a * sin a + cos a * cos a)) by ring.
  rewrite sin_cos_square, Rmult_1_r. apply sqrt_of_square. exact Hr.
Qed.

(** The direction of two spherical angles is a unit vector. *)
Lemma sphere_direction_unit (theta phi : R) :
  let d := sphere_direction theta phi in
  vx d * vx d + vy d * vy d + vz d * vz d = 1.
Proof.
  unfold sphere_direction; simpl.
  replace (sin phi * cos theta * (sin phi * cos theta) +
           sin phi * sin theta * (sin phi * sin theta) + cos phi * cos phi)
    with (sin phi * sin phi * (sin theta * sin theta + cos theta * cos theta)
          + cos phi * cos phi) by ring.
  rewrite sin_cos_square, Rmult_1_r. apply sin_cos_square.
Qed.

(** A chaos point of radius [r >= 0] lies at distance [r] from the lifted
    centre. *)
Lemma chaos_point_radius (u v r lift : R) (c : Vec3) :
  0 <= r -> chaos_point u v r lift c -> chaos_radius lift c = r.
Proof.
  intros Hr (Hx & Hy & Hz). unfold chaos_radius. rewrite Hx, Hy, Hz.
  set (d := sphere_direction (2 * PI * u) (acos (2 * v - 1))).
  replace (r * vx d * (r * vx d) + (r * vy d + lift - lift) * (r * vy d + lift - lift)
           + r * vz d * (r * vz d))
    with (r * r * (vx d * vx d + vy d * vy d + vz d * vz d)) by ring.
  unfold d. rewrite sphere_direction_unit, Rmult_1_r.
  apply sqrt_of_square. exact Hr.
Qed.

(** A target point of height fraction [hNorm] at radius [f] times the cone
    radius lies in the cone widened by any factor from [f] up. *)
Lemma cone_point (factor f hNorm a H Rd : R) :
  0 <= hNorm < 1 -> 0 <= f <= factor -> 0 < H -> 0 <= Rd ->
  in_cone factor H Rd
    (mkVec3 (cos a * ((1 - hNorm) * Rd * f)) (hNorm * H)
            (sin a * ((1 - hNorm) * Rd * f))).
Proof.
  intros Hh Hf HH HR. unfold in_cone.
  rewrite lateral_polar by (apply Rmult_le_pos; [ apply Rmult_le_pos | ]; lra).
  simpl.
  replace (hNorm * H / H) with hNorm by (field; lra).
  split; [ nra | ].
  assert (0 <= (1 - hNorm) * Rd) by (apply Rmult_le_pos; lra).
  nra.
Qed.

Lemma depth_offset_cases type :
  (Ornaments.is_light type = true /\ depth_offset type = 1.05) \/
  (Ornaments.is_light type = false /\ depth_offset type = 0.9).
Proof. unfold depth_offset. destruct type; simpl; auto. Qed.

Lemma ornament_placed_in_cone type h d :
  ornament_placed type h d ->
  in_cone (if Ornaments.is_light type then 1.05 else 1)
          Ornaments.TREE_HEIGHT Ornaments.TREE_RADIUS
          (vectors h (targetPos d)).
Proof.
  intros (u & v & k & hNorm & j & _ & _ & _ & Hh & _ & _ & ->).
  unfold Ornaments.TREE_HEIGHT, Ornaments.TREE_RADIUS.
  destruct (depth_offset_cases type) as [[-> ->]|[-> ->]];
    apply cone_point; lra.
Qed.

Lemma ornament_placed_chaos type h d :
  ornament_placed type h d ->
  exists u v r, 0 <= u < 1 /\ 0 <= v < 1 /\ 20 <= r < 35 /\
    chaos_point u v r 10 (vectors h (chaosPos d)) /\
    chaos_radius 10 (vectors h (chaosPos d)) = r.
Proof.
  intros (u & v & k & hNorm & j & Hu & Hv & Hk & _ & _ & Hc & _).
  exists u, v, (20 + k * 15). split_all; try lra; try exact Hc.
  eapply chaos_point_radius; [ lra | exact Hc ].
Qed.

(** The records of a table made by [generateOrnamentData]. *)
Lemma generateOrnamentData_spec count type w data w' :
  unit_interval (rng w) ->
  Ornaments.generateOrnamentData count type w = (data, w') ->
  Forall (ornament_placed type (heap w')) data.
Proof.
  intros Hr Heq. unfold Ornaments.generateOrnamentData in Heq.
  pose proof (generate_loop_spec type count [] w Hr (Forall_nil _) _ _ Heq)
    as Hall.
  eapply Forall_impl; [ | exact Hall ]. intros d [_ Hp]. exact Hp.
Qed.

(** ** Generation of the foliage geometry *)

Lemma f32_length_set a i v : f32_length (f32_set a i v) = f32_length a.
Proof. unfold f32_set. destruct (Nat.ltb i (f32_length a)); reflexivity. Qed.

Lemma f32_at_set_same a i v :
  (i < f32_length a)%nat -> f32_at (f32_set a i v) i = v.
Proof.
  intros Hi. unfold f32_set.
  destruct (Nat.ltb_spec i (f32_length a)); [ | lia ].
  simpl. apply upd_same.
Qed.

Lemma f32_at_set_other a i v j :
  j <> i -> f32_at (f32_set a i v) j = f32_at a j.
Proof.
  intros Hj. unfold f32_set.
  destruct (Nat.ltb i (f32_length a)); [ | reflexivity ].
  simpl. apply upd_other. exact Hj.
Qed.

(** One iteration, spelled out. *)
Lemma generate_point_eq i g w :
  let n := drawn w in
  let theta := 2 * PI * rng w n in
  let phi := acos (2 * rng w (1 + n)%nat - 1) in
  let r := 25 * Math_cbrt (rng w (2 + n)%nat) in
  let hNorm := rng w (3 + n)%nat in
  let angle := rng w (4 + n)%nat * PI * 2 in
  let rFinal :=
    sqrt (rng w (5 + n)%nat) * ((1 - hNorm) * TreeFoliage.TREE_RADIUS) in
  TreeFoliage.generate_point i g w =
  (TreeFoliage.mkGeometry
     (f32_set (f32_set (f32_set (TreeFoliage.chaosPositions g) (i * 3)
                                (r * sin phi * cos theta))
                       (i * 3 + 1) (r * sin phi * sin theta + 10))
              (i * 3 + 2) (r * cos phi))
     (f32_set (f32_set (f32_set (TreeFoliage.targetPositions g) (i * 3)
                                (cos angle * rFinal))
                       (i * 3 + 1) (hNorm * TreeFoliage.TREE_HEIGHT))
              (i * 3 + 2) (sin angle * rFinal))
     (f32_set (TreeFoliage.randoms g) i (rng w (6 + n)%nat)),
   mkWorld (heap w) (rng w) (7 + n)).
Proof. destruct w as [h rnd dr]. reflexivity. Qed.

Lemma foliage_loop_S n i g w :
  TreeFoliage.generate_loop (S n) i g w =
  TreeFoliage.generate_loop n (S i) (fst (TreeFoliage.generate_point i g w))
                            (snd (TreeFoliage.generate_point i g w)).
Proof.
  cbn [TreeFoliage.generate_loop]. unfold bind.
  destruct (TreeFoliage.generate_point i g w); reflexivity.
Qed.

Ltac f32_simpl :=
  repeat first
    [ rewrite f32_at_set_same by (rewrite ?f32_length_set; lia)
    | rewrite f32_at_set_other by lia ].

(** What one iteration establishes: point [i] is placed, the others are
    kept, the lengths stay. *)
Lemma generate_point_spec count i g w :
  unit_interval (rng w) -> holds_points g count -> (i < count)%nat ->
  forall g' w', TreeFoliage.generate_point i g w = (g', w') ->
    rng w' = rng w /\ holds_points g' count /\ foliage_placed g' i /\
    forall j, j <> i ->
      TreeFoliage.chaos_of g' j = TreeFoliage.chaos_of g j /\
      TreeFoliage.target_of g' j = TreeFoliage.target_of g j.
Proof.
  intros Hr (L1 & L2 & L3) Hi g' w' Heq.
  rewrite generate_point_eq in Heq. cbv zeta in Heq. injection Heq as <- <-.
  split_all.
  - reflexivity.
  - unfold holds_points; simpl. rewrite !f32_length_set. auto.
  - exists (rng w (drawn w)), (rng w (1 + drawn w)%nat),
      (rng w (2 + drawn w)%nat), (rng w (3 + drawn w)%nat),
      (rng w (4 + drawn w)%nat), (rng w (5 + drawn w)%nat).
    split_all; try apply Hr.
    + unfold chaos_point, sphere_direction, TreeFoliage.chaos_of; simpl.
      f32_simpl. split_all; ring.
    + unfold TreeFoliage.target_of; simpl. f32_simpl. reflexivity.
  - intros j Hj. split.
    + unfold TreeFoliage.chaos_of; simpl. f32_simpl. reflexivity.
    + unfold TreeFoliage.target_of; simpl. f32_simpl. reflexivity.
Qed.

(** The loop invariant: [n] iterations from index [i] place the points
    [i .. i + n - 1] and keep the earlier ones. *)
Lemma foliage_loop_spec count n : forall i g w,
  unit_interval (rng w) -> holds_points g count -> (i + n <= count)%nat ->
  forall g' w', TreeFoliage.generate_loop n i g w = (g', w') ->
    rng w' = rng w /\ holds_points g' count /\
    (forall j, (i <= j < i + n)%nat -> foliage_placed g' j) /\
    (forall j, (j < i)%nat ->
       TreeFoliage.chaos_of g' j = TreeFoliage.chaos_of g j /\
       TreeFoliage.target_of g' j = TreeFoliage.target_of g j).
Proof.
  induction n as [|n IH]; intros i g w Hr Hg Hin g' w' Heq.
  - cbn [TreeFoliage.generate_loop] in Heq. unfold ret in Heq.
    injection Heq as <- <-. split_all; auto. intros j Hj. lia.
  - rewrite foliage_loop_S in Heq.
    destruct (TreeFoliage.generate_point i g w) as [g1 w1] eqn:E1.
    cbn [fst snd] in Heq.
    destruct (generate_point_spec count i g w Hr Hg ltac:(lia) g1 w1 E1)
      as (Hrng & Hg1 & Hpl & Hkeep).
    assert (Hr1 : unit_interval (rng w1)) by (rewrite Hrng; exact Hr).
    destruct (IH (S i) g1 w1 Hr1 Hg1 ltac:(lia) g' w' Heq)
      as (Hrng' & Hg' & Hnew & Hold).
    split_all.
    + congruence.
    + exact Hg'.
    + intros j Hj. destruct (Nat.eq_dec j i) as [-> | Hne].
      * destruct (Hold i ltac:(lia)) as [Hc Ht].
        unfold foliage_placed in *. rewrite Hc, Ht. exact Hpl.
      * apply Hnew. lia.
    + intros j Hj. destruct (Hold j ltac:(lia)) as [Hc Ht].
      destruct (Hkeep j ltac:(lia)) as [Hc1 Ht1]. split; congruence.
Qed.

Lemma generate_geometry_spec count w g w' :
  unit_interval (rng w) ->
  TreeFoliage.generate_geometry count w = (g, w') ->
  holds_points g count /\ forall i, (i < count)%nat -> foliage_placed g i.
Proof.
  intros Hr Heq. unfold TreeFoliage.generate_geometry in Heq.
  assert (H0 : holds_points
                 (TreeFoliage.mkGeometry (new_Float32Array (count * 3))
                    (new_Float32Array (count * 3)) (new_Float32Array count))
                 count)
    by (unfold holds_points; simpl; auto).
  destruct (foliage_loop_spec count count 0%nat _ w Hr H0 ltac:(lia) g w' Heq)
    as (_ & Hg & Hnew & _).
  split; [ exact Hg | ]. intros i Hi. apply Hnew. lia.
Qed.

(** The cube root of a draw lies in the unit interval too. *)
Lemma Math_cbrt_unit (k : R) : 0 <= k < 1 -> 0 <= Math_cbrt k < 1.
Proof.
  intros [Hk0 Hk1]. unfold Math_cbrt.
  destruct (Rlt_dec 0 k) as [Hpos | Hnpos].
  - unfold Rpower. split; [ left; apply exp_pos | ].
    rewrite <- exp_0. apply exp_increasing.
    assert (ln k < 0) by (rewrite <- ln_1; apply ln_increasing; lra).
    nra.
  - destruct (Rlt_dec k 0); lra.
Qed.

Lemma Math_cbrt_zero : Math_cbrt 0 = 0.
Proof.
  unfold Math_cbrt. destruct (Rlt_dec 0 0); [ lra | reflexivity ].
Qed.

(** [Math_cbrt] is the cube root on the positive numbers. *)
Lemma Math_cbrt_cube (k : R) : 0 <= k -> Math_cbrt k ^ 3 = k.
Proof.
  intros Hk. unfold Math_cbrt.
  destruct (Rlt_dec 0 k) as [Hpos | Hnpos].
  - rewrite <- Rpower_pow by (apply exp_pos).
    rewrite Rpower_mult. replace (/ 3 * INR 3) with 1 by (simpl; field).
    apply Rpower_1. exact Hpos.
  - destruct (Rlt_dec k 0); simpl; lra.
Qed.

Lemma foliage_placed_in_cone g i :
  foliage_placed g i ->
  in_cone 1 TreeFoliage.TREE_HEIGHT TreeFoliage.TREE_RADIUS
          (TreeFoliage.target_of g i).
Proof.
  intros (u & v & k & hNorm & a & q & _ & _ & _ & Hh & _ & Hq & _ & ->).
  unfold TreeFoliage.TREE_HEIGHT, TreeFoliage.TREE_RADIUS.
  replace (sqrt q * ((1 - hNorm) * 6)) with ((1 - hNorm) * 6 * sqrt q) by ring.
  apply cone_point; try lra.
  split; [ apply sqrt_pos | ].
  rewrite <- sqrt_1. apply sqrt_le_1_alt. lra.
Qed.

Lemma foliage_placed_chaos g i :
  foliage_placed g i ->
  exists u v r, 0 <= u < 1 /\ 0 <= v < 1 /\ 0 <= r < 25 /\
    chaos_point u v r 10 (TreeFoliage.chaos_of g i) /\
    chaos_radius 10 (TreeFoliage.chaos_of g i) = r.
Proof.
  intros (u & v & k & hNorm & a & q & Hu & Hv & Hk & _ & _ & _ & Hc & _).
  pose proof (Math_cbrt_unit k Hk) as Hcb.
  exists u, v, (25 * Math_cbrt k). split_all; try lra; try exact Hc.
  eapply chaos_point_radius; [ lra | exact Hc ].
Qed.

(** ** The generated tables: counts, cone and chaos cloud *)

Lemma generate_loop_length type n : forall data w,
  List.length (fst (Ornaments.generate_loop n type data w)) =
  (List.length data + n)%nat.
Proof.
  induction n as [|n IH]; intros data w.
  - simpl. lia.
  - rewrite generate_loop_S, IH, length_app. simpl. lia.
Qed.

Lemma generate_point_lengths count i g w :
  holds_points g count ->
  holds_points (fst (TreeFoliage.generate_point i g w)) count.
Proof.
  intros (L1 & L2 & L3). rewrite generate_point_eq. cbv zeta.
  unfold holds_points; simpl. rewrite !f32_length_set. auto.
Qed.

Lemma foliage_loop_lengths count n : forall i g w,
  holds_points g count ->
  holds_points (fst (TreeFoliage.generate_loop n i g w)) count.
Proof.
  induction n as [|n IH]; intros i g w Hg.
  - exact Hg.
  - rewrite foliage_loop_S. apply IH. apply generate_point_lengths. exact Hg.
Qed.

(** Tables of one record and geometries of one point, for examples. *)
Lemma generateOrnamentData_single type w :
  Ornaments.generateOrnamentData 1 type w =
  ([fst (Ornaments.generate_one type w)], snd (Ornaments.generate_one type w)).
Proof.
  unfold Ornaments.generateOrnamentData. rewrite generate_loop_S. reflexivity.
Qed.

Lemma generate_geometry_single w :
  TreeFoliage.generate_geometry 1 w =
  TreeFoliage.generate_point 0
    (TreeFoliage.mkGeometry (new_Float32Array 3) (new_Float32Array 3)
                            (new_Float32Array 1)) w.
Proof.
  unfold TreeFoliage.generate_geometry. rewrite foliage_loop_S.
  cbn [TreeFoliage.generate_loop]. unfold ret.
  symmetry. apply surjective_pairing.
Qed.

Lemma rng_world_of (f : nat -> R) : rng (world_of f) = f.
Proof. reflexivity. Qed.

(** The chaos position of a foliage point, spelled out. *)
Lemma generate_point_chaos count i g w :
  holds_points g count -> (i < count)%nat ->
  let theta := 2 * PI * rng w (drawn w) in
  let phi := acos (2 * rng w (1 + drawn w)%nat - 1) in
  let r := 25 * Math_cbrt (rng w (2 + drawn w)%nat) in
  TreeFoliage.chaos_of (fst (TreeFoliage.generate_point i g w)) i =
  mkVec3 (r * sin phi * cos theta) (r * sin phi * sin theta + 10)
         (r * cos phi).
Proof.
  intros (L1 & L2 & L3) Hi. rewrite generate_point_eq. cbv zeta.
  unfold TreeFoliage.chaos_of; simpl. f32_simpl. reflexivity.
Qed.

(** C8.  For every count and every ornament class [generateOrnamentData]
    returns a table of exactly that many records, the empty table for count
    0; the foliage generation fills arrays for exactly [count] points (three
    coordinates each for the two positions, one random attribute), [COUNT]
    of them in the component.  Both generators are total functions: no input
    makes them fail. *)
Theorem generator_returns_count_records :
  (forall count type w,
     List.length (fst (Ornaments.generateOrnamentData count type w)) = count) /\
  (forall type w, fst (Ornaments.generateOrnamentData 0 type w) = []) /\
  (forall count w,
     holds_points (fst (TreeFoliage.generate_geometry count w)) count) /\
  (forall w, fst (TreeFoliage.generate_geometry 0 w) =
             TreeFoliage.mkGeometry (new_Float32Array 0) (new_Float32Array 0)
                                    (new_Float32Array 0)) /\
  (forall w,
     holds_points (fst (TreeFoliage.useMemo_geometry w)) TreeFoliage.COUNT).
Proof.
  assert (HF : forall count w,
             holds_points (fst (TreeFoliage.generate_geometry count w)) count).
  { intros count w. unfold TreeFoliage.generate_geometry.
    apply foliage_loop_lengths. unfold holds_points; simpl; auto. }
  split_all.
  - intros count type w. unfold Ornaments.generateOrnamentData.
    rewrite generate_loop_length. reflexivity.
  - intros type w. reflexivity.
  - exact HF.
  - intros w. reflexivity.
  - intros w. apply HF.
Qed.

(** C3 (amended).  The target position of every generated record has its
    height in [0, TreeHeight]; its lateral distance is at most the cone
    radius at that height for foliage, balls and boxes, and at most 1.05
    times that radius for lights, which are placed just outside the
    surface. *)
Theorem target_within_class_cone :
  (forall count type w data w',
     unit_interval (rng w) ->
     Ornaments.generateOrnamentData count type w = (data, w') ->
     forall d, In d data ->
       in_cone (if Ornaments.is_light type then 1.05 else 1)
               Ornaments.TREE_HEIGHT Ornaments.TREE_RADIUS
               (vectors (heap w') (targetPos d))) /\
  (forall count w g w',
     unit_interval (rng w) ->
     TreeFoliage.generate_geometry count w = (g, w') ->
     forall i, (i < count)%nat ->
       in_cone 1 TreeFoliage.TREE_HEIGHT TreeFoliage.TREE_RADIUS
               (TreeFoliage.target_of g i)).
Proof.
  split.
  - intros count type w data w' Hr Heq d Hd.
    pose proof (generateOrnamentData_spec count type w data w' Hr Heq)
      as Hall.
    rewrite Forall_forall in Hall.
    apply ornament_placed_in_cone. apply Hall. exact Hd.
  - intros count w g w' Hr Heq i Hi.
    destruct (generate_geometry_spec count w g w' Hr Heq) as [_ Hp].
    apply foliage_placed_in_cone. apply Hp. exact Hi.
Qed.

Lemma target_within_class_cone_witness :
  in_cone 1.05 Ornaments.TREE_HEIGHT Ornaments.TREE_RADIUS
    (vectors
       (heap (snd (Ornaments.generateOrnamentData 1 Ornaments.light
                     (world_of (fun _ => 1 / 2)))))
       (targetPos (fst (Ornaments.generate_one Ornaments.light
                          (world_of (fun _ => 1 / 2)))))) /\
  in_cone 1 TreeFoliage.TREE_HEIGHT TreeFoliage.TREE_RADIUS
    (TreeFoliage.target_of
       (fst (TreeFoliage.generate_geometry 1 (world_of (fun _ => 1 / 2))))
       0).
Proof.
  assert (Hr : unit_interval (rng (world_of (fun _ => 1 / 2))))
    by (intros n; simpl; lra).
  split.
  - apply (proj1 target_within_class_cone 1%nat Ornaments.light
             (world_of (fun _ => 1 / 2)) _ _ Hr (surjective_pairing _)).
    rewrite generateOrnamentData_single. left. reflexivity.
  - apply (proj2 target_within_class_cone 1%nat
             (world_of (fun _ => 1 / 2)) _ _ Hr (surjective_pairing _)).
    lia.
Defined.

(** Every light lies strictly outside the cone: its lateral distance is
    1.05 times the cone radius at its height, and that radius is positive
    because the height fraction is below 1. *)
Lemma light_outside_cone h d :
  ornament_placed Ornaments.light h d ->
  ~ in_cone 1 Ornaments.TREE_HEIGHT Ornaments.TREE_RADIUS
      (vectors h (targetPos d)).
Proof.
  intros (u & v & k & hNorm & j & _ & _ & _ & Hh & _ & _ & ->).
  unfold in_cone, depth_offset, Ornaments.TREE_HEIGHT, Ornaments.TREE_RADIUS.
  cbn [Ornaments.is_light].
  intros [_ H]. rewrite lateral_polar in H by nra.
  cbn [vy] in H.
  replace (hNorm * 16 / 16) with hNorm in H by (field; lra).
  lra.
Qed.

(** The one record of a table of one is the record of one iteration. *)
Lemma generateOrnamentData_one type w data w' :
  Ornaments.generateOrnamentData 1 type w = (data, w') ->
  exists d, Ornaments.generate_one type w = (d, w') /\ data = [d].
Proof.
  intros E. rewrite generateOrnamentData_single in E.
  destruct (Ornaments.generate_one type w) as [d w1].
  cbn [fst snd] in E. injection E as <- <-.
  exists d. split; reflexivity.
Qed.

(** The target position of one iteration, in terms of its draws. *)
Lemma generate_one_target type w d w' :
  Ornaments.generate_one type w = (d, w') ->
  let hNorm := rng w (3 + drawn w)%nat in
  let spiralAngle := hNorm * PI * 10 + rng w (4 + drawn w)%nat * PI * 2 in
  let rFinal := (1 - hNorm) * Ornaments.TREE_RADIUS * depth_offset type in
  vectors (heap w') (targetPos d) =
  mkVec3 (cos spiralAngle * rFinal) (hNorm * Ornaments.TREE_HEIGHT)
         (sin spiralAngle * rFinal).
Proof.
  intros Heq.
  destruct (generate_one_eq type w) as (cs & dr & sc & sp & _ & E).
  cbv zeta in E. rewrite E in Heq. injection Heq as <- <-.
  cbn [heap vectors targetPos]. rewrite upd_same. reflexivity.
Qed.

(** C3 as stated fails for lights.  With every draw equal to 0 the one light
    of a table of one is placed at height 0 and lateral distance 6.3, beyond
    the base radius 6 of the cone. *)
Lemma light_target_outside_cone :
  exists d,
    In d (fst (Ornaments.generateOrnamentData 1 Ornaments.light
                 (world_of (fun _ => 0)))) /\
    vy (vectors
          (heap (snd (Ornaments.generateOrnamentData 1 Ornaments.light
                        (world_of (fun _ => 0)))))
          (targetPos d)) = 0 /\
    lateral
      (vectors
         (heap (snd (Ornaments.generateOrnamentData 1 Ornaments.light
                       (world_of (fun _ => 0)))))
         (targetPos d)) = 6.3 /\
    ~ in_cone 1 Ornaments.TREE_HEIGHT Ornaments.TREE_RADIUS
        (vectors
           (heap (snd (Ornaments.generateOrnamentData 1 Ornaments.light
                         (world_of (fun _ => 0)))))
           (targetPos d)).
Proof.
  destruct (Ornaments.generateOrnamentData 1 Ornaments.light
              (world_of (fun _ => 0))) as [data w'] eqn:E.
  cbn [fst snd].
  destruct (generateOrnamentData_one _ _ _ _ E) as (d & E1 & ->).
  exists d. split; [ left; reflexivity | ].
  rewrite (generate_one_target _ _ _ _ E1). cbv zeta.
  rewrite rng_world_of. cbv beta.
  unfold in_cone, depth_offset, Ornaments.TREE_HEIGHT, Ornaments.TREE_RADIUS.
  cbn [Ornaments.is_light vy].
  rewrite lateral_polar by lra.
  split_all; lra.
Qed.

(** *** Which draws place a chaos point *)

Lemma generate_one_drawn type w :
  drawn (snd (Ornaments.generate_one type w)) =
  (ornament_draws type + drawn w)%nat.
Proof.
  destruct w as [[V nv E ne C nc] rnd dr]. unfold ornament_draws.
  destruct type; run_world; try destruct (array_get _ _); reflexivity.
Qed.

Lemma generate_one_chaos type w d w' :
  Ornaments.generate_one type w = (d, w') ->
  chaos_point (rng w (drawn w)) (rng w (drawn w + 1)%nat)
    (20 + rng w (drawn w + 2)%nat * 15) 10 (vectors (heap w') (chaosPos d)).
Proof.
  intros Heq.
  destruct (generate_one_eq type w) as (cs & dr & sc & sp & _ & E).
  cbv zeta in E. rewrite E in Heq. injection Heq as <- <-.
  cbn [heap vectors chaosPos]. rewrite upd_other by lia. rewrite upd_same.
  replace (drawn w + 1)%nat with (S (drawn w)) by lia.
  replace (drawn w + 2)%nat with (S (S (drawn w))) by lia.
  unfold chaos_point, sphere_direction. cbn [vx vy vz]. split_all; ring.
Qed.

(** Record [j] of the records a run of the loop pushes is placed from the
    first three draws of iteration [j]. *)
Lemma generate_loop_chaos type n : forall data w data' w',
  Ornaments.generate_loop n type data w = (data', w') ->
  exists new, data' = data ++ new /\
    forall j d, nth_error new j = Some d ->
      let k := (drawn w + j * ornament_draws type)%nat in
      chaos_point (rng w k) (rng w (k + 1)%nat)
        (20 + rng w (k + 2)%nat * 15) 10 (vectors (heap w') (chaosPos d)).
Proof.
  induction n as [|n IH]; intros data w data' w' Heq.
  - cbn [Ornaments.generate_loop] in Heq. unfold ret in Heq.
    injection Heq as <- <-.
    exists []. rewrite app_nil_r. split; [ reflexivity | ].
    intros [|j] d H; discriminate H.
  - rewrite generate_loop_S in Heq.
    pose proof (generate_one_drawn type w) as Hdr.
    destruct (Ornaments.generate_one type w) as [d w1] eqn:E1.
    cbn [fst snd] in Heq, Hdr.
    destruct (generate_one_alloc type w d w1 E1) as (_ & Hrng & Hal & _).
    pose proof (generate_one_chaos type w d w1 E1) as Hch.
    destruct (generate_loop_alloc type n _ _ _ _ Heq)
      as ((_ & _ & _ & Hv & _ & _) & _ & _).
    destruct (IH _ _ _ _ Heq) as (new & Hnew & Hrest).
    exists (d :: new). split; [ rewrite Hnew, <- app_assoc; reflexivity | ].
    intros [|j] d' Hd'; cbv zeta.
    + injection Hd' as <-. destruct Hal as (Hc & _).
      rewrite (Hv _ Hc).
      replace (drawn w + 0 * ornament_draws type)%nat with (drawn w) by lia.
      exact Hch.
    + cbn [nth_error] in Hd'. specialize (Hrest j d' Hd'). cbv zeta in Hrest.
      rewrite Hrng, Hdr in Hrest.
      replace (drawn w + S j * ornament_draws type)%nat
        with (ornament_draws type + drawn w + j * ornament_draws type)%nat
        by lia.
      exact Hrest.
Qed.

Lemma generate_point_world i g w :
  snd (TreeFoliage.generate_point i g w) =
  mkWorld (heap w) (rng w) (foliage_draws + drawn w).
Proof. rewrite generate_point_eq. reflexivity. Qed.

(** Point [j] of the points a run of the foliage loop writes is placed from
    the first three draws of its iteration. *)
Lemma foliage_loop_chaos count n : forall i g w,
  unit_interval (rng w) -> holds_points g count -> (i + n <= count)%nat ->
  forall g' w', TreeFoliage.generate_loop n i g w = (g', w') ->
  forall j, (i <= j < i + n)%nat ->
    let k := (drawn w + (j - i) * foliage_draws)%nat in
    chaos_point (rng w k) (rng w (k + 1)%nat)
      (25 * Math_cbrt (rng w (k + 2)%nat)) 10 (TreeFoliage.chaos_of g' j).
Proof.
  induction n as [|n IH]; intros i g w Hr Hg Hin g' w' Heq j Hj; cbv zeta.
  - lia.
  - rewrite foliage_loop_S in Heq.
    pose proof (generate_point_world i g w) as Hw.
    pose proof (generate_point_chaos count i g w Hg ltac:(lia)) as Hch.
    pose proof (generate_point_lengths count i g w Hg) as Hg1.
    cbv zeta in Hch.
    destruct (TreeFoliage.generate_point i g w) as [g1 w1] eqn:E1.
    cbn [fst snd] in Heq, Hw, Hch, Hg1.
    assert (Hrng : rng w1 = rng w) by (rewrite Hw; reflexivity).
    assert (Hdr : drawn w1 = (foliage_draws + drawn w)%nat)
      by (rewrite Hw; reflexivity).
    assert (Hr1 : unit_interval (rng w1)) by (rewrite Hrng; exact Hr).
    clear Hw.
    destruct (Nat.eq_dec j i) as [-> | Hne].
    + destruct (foliage_loop_spec count n (S i) g1 w1 Hr1 Hg1 ltac:(lia)
                  g' w' Heq) as (_ & _ & _ & Hold).
      destruct (Hold i ltac:(lia)) as [-> _]. rewrite Hch.
      replace (drawn w + (i - i) * foliage_draws)%nat with (drawn w) by lia.
      replace (drawn w + 1)%nat with (1 + drawn w)%nat by lia.
      replace (drawn w + 2)%nat with (2 + drawn w)%nat by lia.
      unfold chaos_point, sphere_direction. cbn [vx vy vz]. split_all; ring.
    + pose proof (IH (S i) g1 w1 Hr1 Hg1 ltac:(lia) g' w' Heq j ltac:(lia))
        as Hrest.
      cbv zeta in Hrest. rewrite Hrng, Hdr in Hrest.
      replace (drawn w + (j - i) * foliage_draws)%nat
        with (foliage_draws + drawn w + (j - S i) * foliage_draws)%nat
        by (unfold foliage_draws; lia).
      exact Hrest.
Qed.

(** C4 (amended).  Every chaos position is the point at radius [r] in the
    direction of the angles [2 pi u] and [acos (2 v - 1)], lifted by 10,
    where [u], [v] and the draw behind [r] are the first, second and third
    draw of the iteration that made the particle; it lies at distance [r]
    from the lifted centre.  For balls, boxes and lights [r] is 20 plus 15
    times the third draw, in the band [20, 35); for foliage it is 25 times
    the cube root of the third draw, in [0, 25): that cloud fills the whole
    ball. *)
Theorem chaos_point_per_class :
  (forall count type w data w' i d,
     unit_interval (rng w) ->
     Ornaments.generateOrnamentData count type w = (data, w') ->
     nth_error data i = Some d ->
     let k := (drawn w + i * ornament_draws type)%nat in
     let r := 20 + rng w (k + 2)%nat * 15 in
     chaos_point (rng w k) (rng w (k + 1)%nat) r 10
       (vectors (heap w') (chaosPos d)) /\
     20 <= r < 35 /\
     chaos_radius 10 (vectors (heap w') (chaosPos d)) = r) /\
  (forall count w g w' i,
     unit_interval (rng w) ->
     TreeFoliage.generate_geometry count w = (g, w') ->
     (i < count)%nat ->
     let k := (drawn w + i * foliage_draws)%nat in
     let r := 25 * Math_cbrt (rng w (k + 2)%nat) in
     chaos_point (rng w k) (rng w (k + 1)%nat) r 10
       (TreeFoliage.chaos_of g i) /\
     0 <= r < 25 /\
     chaos_radius 10 (TreeFoliage.chaos_of g i) = r).
Proof.
  split.
  - intros count type w data w' i d Hr Heq Hd. cbv zeta.
    unfold Ornaments.generateOrnamentData in Heq.
    destruct (generate_loop_chaos type count [] w data w' Heq)
      as (new & Hnew & Hch).
    cbn [app] in Hnew. subst new.
    specialize (Hch i d Hd). cbv zeta in Hch.
    pose proof (Hr (drawn w + i * ornament_draws type + 2)%nat) as Hk.
    split_all; try lra; try exact Hch.
    eapply chaos_point_radius; [ | exact Hch ]. lra.
  - intros count w g w' i Hr Heq Hi. cbv zeta.
    unfold TreeFoliage.generate_geometry in Heq.
    assert (H0 : holds_points
                   (TreeFoliage.mkGeometry (new_Float32Array (count * 3))
                      (new_Float32Array (count * 3)) (new_Float32Array count))
                   count)
      by (unfold holds_points; simpl; auto).
    pose proof (foliage_loop_chaos count count 0%nat _ w Hr H0 ltac:(lia)
                  g w' Heq i ltac:(lia)) as Hch.
    cbv zeta in Hch. rewrite Nat.sub_0_r in Hch.
    pose proof (Math_cbrt_unit _
                  (Hr (drawn w + i * foliage_draws + 2)%nat)) as Hk.
    split_all; try lra; try exact Hch.
    eapply chaos_point_radius; [ | exact Hch ]. lra.
Qed.

Lemma chaos_point_per_class_witness :
  (chaos_point (1 / 2) (1 / 2) (20 + 1 / 2 * 15) 10
     (vectors
        (heap (snd (Ornaments.generateOrnamentData 1 Ornaments.light
                      (world_of (fun _ => 1 / 2)))))
        (chaosPos (fst (Ornaments.generate_one Ornaments.light
                          (world_of (fun _ => 1 / 2))))))) /\
  (chaos_point (1 / 2) (1 / 2) (25 * Math_cbrt (1 / 2)) 10
     (TreeFoliage.chaos_of
        (fst (TreeFoliage.generate_geometry 2 (world_of (fun _ => 1 / 2))))
        1)).
Proof.
  assert (Hr : unit_interval (rng (world_of (fun _ => 1 / 2))))
    by (intros n; simpl; lra).
  split.
  - refine (proj1 (proj1 chaos_point_per_class 1%nat Ornaments.light
                     (world_of (fun _ => 1 / 2)) _ _ 0%nat _ Hr
                     (surjective_pairing _) _)).
    rewrite generateOrnamentData_single. reflexivity.
  - exact (proj1 (proj2 chaos_point_per_class 2%nat
                    (world_of (fun _ => 1 / 2)) _ _ 1%nat Hr
                    (surjective_pairing _) ltac:(lia))).
Defined.

(** A third draw of 0 puts a foliage point at the centre of the cloud. *)
Lemma foliage_chaos_centre w g w' :
  rng w (2 + drawn w)%nat = 0 ->
  TreeFoliage.generate_geometry 1 w = (g, w') ->
  chaos_radius 10 (TreeFoliage.chaos_of g 0) = 0.
Proof.
  intros H0 E. rewrite generate_geometry_single in E.
  apply (f_equal fst) in E. cbn [fst] in E. rewrite <- E.
  rewrite (generate_point_chaos 1)
    by (try lia; unfold holds_points; simpl; auto).
  rewrite H0, Math_cbrt_zero. unfold chaos_radius. cbn [vx vy vz].
  match goal with
  | |- sqrt ?e = 0 => replace e with 0 by ring
  end.
  apply sqrt_0.
Qed.

(** C4 as stated fails for foliage: no positive lower bound holds for the
    chaos radius, since with every draw equal to 0 the one point of a
    geometry of one lies at the centre of the cloud. *)
Lemma foliage_chaos_radius_reaches_zero :
  ~ exists lo, 0 < lo /\
      forall count w g w',
        unit_interval (rng w) ->
        TreeFoliage.generate_geometry count w = (g, w') ->
        forall i, (i < count)%nat ->
          lo <= chaos_radius 10 (TreeFoliage.chaos_of g i).
Proof.
  intros (lo & Hlo & H).
  assert (Hr : unit_interval (rng (world_of (fun _ => 0))))
    by (intros n; simpl; lra).
  destruct (TreeFoliage.generate_geometry 1 (world_of (fun _ => 0)))
    as [g w'] eqn:E.
  specialize (H 1%nat (world_of (fun _ => 0)) g w' Hr E 0%nat ltac:(lia)).
  rewrite (foliage_chaos_centre (world_of (fun _ => 0)) g w' eq_refl E) in H.
  lra.
Qed.

(** ** The foliage vertex shader *)

Lemma three_point_zero : 3.0 = INR 3.
Proof. simpl. lra. Qed.

(** Where GLSL defines it, the ease-out is [1 - (1 - x)^3]. *)
Lemma easeOutCubic_defined (x : R) :
  x <= 1 -> TreeFoliage.easeOutCubic x = Some (1 - (1 - x) ^ 3).
Proof.
  intros Hx. unfold TreeFoliage.easeOutCubic, GLSL.pow.
  replace (1.0 - x) with (1 - x) by lra.
  destruct (Rlt_dec (1 - x) 0) as [Hneg | _]; [ lra | ].
  destruct (Rlt_dec 0 (1 - x)) as [Hpos | Hzero].
  - rewrite three_point_zero, Rpower_pow by exact Hpos.
    f_equal. lra.
  - destruct (Rlt_dec 0 3.0) as [_ | H3]; [ | lra ].
    replace (1 - x) with 0 by lra. f_equal. simpl. lra.
Qed.

(** Past full progress the base of [pow] is negative and the shader has no
    defined result. *)
Lemma easeOutCubic_undefined (x : R) :
  1 < x -> TreeFoliage.easeOutCubic x = None.
Proof.
  intros Hx. unfold TreeFoliage.easeOutCubic, GLSL.pow.
  destruct (Rlt_dec (1.0 - x) 0) as [_ | H]; [ reflexivity | lra ].
Qed.

Lemma vec3_mix_lerp3 (a b : Vec3) (t : R) :
  TreeFoliage.vec3_mix a b t = lerp3 a b t.
Proof.
  unfold TreeFoliage.vec3_mix, lerp3, GLSL.mix. f_equal; ring.
Qed.

Lemma noise_scaled (uTime aRandom k : R) :
  TreeFoliage.vec3_scale (TreeFoliage.noise uTime aRandom) k =
  jitter (0.1 * k) uTime aRandom.
Proof.
  unfold TreeFoliage.vec3_scale, TreeFoliage.noise, jitter; simpl.
  f_equal.
  - replace (uTime * 2.0 + aRandom * 100.0) with (uTime * 2 + aRandom * 100)
      by lra. ring.
  - replace (uTime * 1.5 + aRandom * 50.0) with (uTime * 1.5 + aRandom * 50)
      by lra. ring.
  - replace (uTime * 1.0 + aRandom * 25.0) with (uTime * 1 + aRandom * 25)
      by lra. ring.
Qed.

(** Each component of the jitter is bounded by its amplitude. *)
Lemma jitter_bounded (amplitude uTime aRandom : R) :
  0 <= amplitude ->
  let j := jitter amplitude uTime aRandom in
  Rabs (vx j) <= amplitude /\ Rabs (vy j) <= amplitude /\
  Rabs (vz j) <= amplitude.
Proof.
  intros Ha. unfold jitter; simpl.
  assert (Hb : forall c, -1 <= c <= 1 -> Rabs (amplitude * c) <= amplitude).
  { intros c Hc. apply Rabs_le. nra. }
  split_all; apply Hb; first [ apply SIN_bound | apply COS_bound ].
Qed.

(** C5 (amended).  For every particle and clock value, at every progress up
    to 1 the foliage shader places the vertex at the linear interpolation of
    the chaos and target coordinates at [1 - (1 - progress)^3], with one
    sinusoid seeded by clock and phase added to each coordinate; the
    amplitude of the three is 0.2 while progress is at most 0.9 and 0.05
    once it is above 0.9. *)
Theorem foliage_shader_position :
  forall uTime uProgress aChaosPos aTargetPos aRandom,
    uProgress <= 1 ->
    let eased := 1 - (1 - uProgress) ^ 3 in
    let pre := lerp3 aChaosPos aTargetPos eased in
    let amplitude := if Rgtb uProgress 0.9 then 0.05 else 0.2 in
    let offset := jitter amplitude uTime aRandom in
    TreeFoliage.interpolated uProgress aChaosPos aTargetPos = Some pre /\
    TreeFoliage.vertex_pos uTime uProgress aChaosPos aTargetPos aRandom =
      Some (mkVec3 (vx pre + vx offset) (vy pre + vy offset)
                   (vz pre + vz offset)) /\
    (uProgress <= 0.9 -> amplitude = 0.2) /\
    (0.9 < uProgress -> amplitude = 0.05).
Proof.
  intros uTime uProgress a b aRandom Hp. cbv zeta.
  assert (Hi : TreeFoliage.interpolated uProgress a b =
               Some (lerp3 a b (1 - (1 - uProgress) ^ 3))).
  { unfold TreeFoliage.interpolated.
    rewrite easeOutCubic_defined by exact Hp.
    rewrite vec3_mix_lerp3. reflexivity. }
  split_all.
  - exact Hi.
  - unfold TreeFoliage.vertex_pos. rewrite Hi.
    destruct (Rgtb uProgress 0.9); rewrite noise_scaled;
      unfold TreeFoliage.vec3_add.
    + replace (0.1 * 0.5) with 0.05 by lra. reflexivity.
    + replace (0.1 * 2.0) with 0.2 by lra. reflexivity.
  - intros Hle. unfold Rgtb.
    destruct (Rltb 0.9 uProgress) eqn:E; [ | reflexivity ].
    apply Rltb_true in E. lra.
  - intros Hgt. unfold Rgtb.
    destruct (Rltb 0.9 uProgress) eqn:E; [ reflexivity | ].
    apply Rltb_false in E. lra.
Qed.

Lemma foliage_shader_position_witness :
  TreeFoliage.vertex_pos 2 (1 / 2) (mkVec3 8 18 0) (mkVec3 0 2 0) (1 / 4) =
  Some (mkVec3
          (vx (lerp3 (mkVec3 8 18 0) (mkVec3 0 2 0) (1 - (1 - 1 / 2) ^ 3)) +
           vx (jitter (if Rgtb (1 / 2) 0.9 then 0.05 else 0.2) 2 (1 / 4)))
          (vy (lerp3 (mkVec3 8 18 0) (mkVec3 0 2 0) (1 - (1 - 1 / 2) ^ 3)) +
           vy (jitter (if Rgtb (1 / 2) 0.9 then 0.05 else 0.2) 2 (1 / 4)))
          (vz (lerp3 (mkVec3 8 18 0) (mkVec3 0 2 0) (1 - (1 - 1 / 2) ^ 3)) +
           vz (jitter (if Rgtb (1 / 2) 0.9 then 0.05 else 0.2) 2 (1 / 4)))).
Proof.
  apply (foliage_shader_position 2 (1 / 2) (mkVec3 8 18 0) (mkVec3 0 2 0)
           (1 / 4)).
  lra.
Defined.

(** C5 as stated fails for some frames.  One frame of one second towards
    formed takes a mounted foliage from progress 0 to a progress uniform of
    1.5, and there the shader has no defined position for any particle: the
    base of [pow] in the ease-out is negative. *)
Lemma foliage_shader_undefined_after_long_frame :
  exists u,
    TreeFoliage.material (TreeFoliage.useFrame FORMED 0 1 (bare_foliage 0)) =
      Some u /\
    TreeFoliage.uProgress u = 1.5 /\
    forall uTime aChaosPos aTargetPos aRandom,
      TreeFoliage.interpolated (TreeFoliage.uProgress u) aChaosPos aTargetPos
        = None /\
      TreeFoliage.vertex_pos uTime (TreeFoliage.uProgress u) aChaosPos
        aTargetPos aRandom = None.
Proof.
  unfold TreeFoliage.useFrame, bare_foliage.
  cbn [TreeFoliage.material TreeFoliage.currentProgress TreeState_eqb].
  eexists. split; [ reflexivity | ].
  cbn [TreeFoliage.uProgress].
  assert (Hp : MathUtils.lerp 0 1 (1 * 1.5) = 1.5)
    by (unfold MathUtils.lerp; lra).
  split; [ exact Hp | ].
  intros uTime a b aRandom. rewrite Hp.
  assert (Hi : TreeFoliage.interpolated 1.5 a b = None).
  { unfold TreeFoliage.interpolated.
    rewrite easeOutCubic_undefined by lra. reflexivity. }
  split; [ exact Hi | ].
  unfold TreeFoliage.vertex_pos. rewrite Hi. reflexivity.
Qed.

(** ** The footprint of the frame callback *)

Lemma scratch_only_refl tmp d h : scratch_only tmp d h d h.
Proof. unfold scratch_only; split_all; auto. Qed.

Lemma scratch_only_trans tmp d1 h1 d2 h2 d3 h3 :
  scratch_only tmp d1 h1 d2 h2 -> scratch_only tmp d2 h2 d3 h3 ->
  scratch_only tmp d1 h1 d3 h3.
Proof.
  unfold scratch_only, scratch_vectors.
  intros (P1 & R1 & S1 & V1 & E1 & C1) (P2 & R2 & S2 & V2 & E2 & C2).
  split_all; try congruence.
  - intros l Hl. rewrite V2, V1; auto. rewrite P1, S1. exact Hl.
  - intros l Hl. rewrite E2, E1; auto. rewrite R1. exact Hl.
Qed.

Lemma not_in_scratch tmp d l :
  ~ In l (scratch_vectors tmp d) ->
  l <> tmp /\ l <> Three.position d /\ l <> Three.scale d.
Proof. unfold scratch_vectors; simpl. intros H. split_all; intros ->; tauto. Qed.

(** Each callback writes to the scratch objects only, whatever record it is
    given. *)
Lemma update_ball_footprint isForming progress time tmp data i d h mesh :
  let '(d', h', _) :=
    Ornaments.update_ball isForming progress time tmp data i (d, h, mesh) in
  scratch_only tmp d h d' h'.
Proof.
  unfold Ornaments.update_ball, scratch_only.
  destruct (Rltb progress 0.99); destruct (negb isForming && Rltb progress 0.1);
    cbn -[Rmult Rplus Rminus sin cos INR Three.Quaternion_setFromEuler
          Three.Matrix4_compose];
    (split_all; try reflexivity;
     [ intros l Hl; apply not_in_scratch in Hl; destruct Hl as (? & ? & ?);
       rewrite !upd_other by assumption; reflexivity
     | intros l Hl; rewrite upd_other by assumption; reflexivity ]).
Qed.

Lemma update_box_footprint progress time tmp data i d h mesh :
  let '(d', h', _) :=
    Ornaments.update_box progress time tmp data i (d, h, mesh) in
  scratch_only tmp d h d' h'.
Proof.
  unfold Ornaments.update_box, scratch_only.
  cbn -[Rmult Rplus Rminus sin cos INR MathUtils.clamp
        Three.Quaternion_setFromEuler Three.Matrix4_compose].
  split_all; try reflexivity.
  - intros l Hl. apply not_in_scratch in Hl. destruct Hl as (? & ? & ?).
    rewrite !upd_other by assumption. reflexivity.
  - intros l Hl. rewrite upd_other by assumption. reflexivity.
Qed.

Lemma update_light_footprint progress time tmp data i d h mesh :
  let '(d', h', _) :=
    Ornaments.update_light progress time tmp data i (d, h, mesh) in
  scratch_only tmp d h d' h'.
Proof.
  unfold Ornaments.update_light, scratch_only.
  cbn -[Rmult Rplus Rminus sin cos INR MathUtils.clamp
        Three.Quaternion_setFromEuler Three.Matrix4_compose].
  split_all; try reflexivity.
  - intros l Hl. apply not_in_scratch in Hl. destruct Hl as (? & ? & ?).
    rewrite !upd_other by assumption. reflexivity.
  - intros l Hl. rewrite upd_other by assumption. reflexivity.
Qed.

(** A loop of callbacks with that footprint has that footprint. *)
Lemma forEach_from_footprint tmp
  (f : OrnamentData -> nat -> Ornaments.Ctx -> Ornaments.Ctx) :
  (forall data i d h mesh,
     let '(d', h', _) := f data i (d, h, mesh) in scratch_only tmp d h d' h') ->
  forall table i d h mesh,
    let '(d', h', _) := forEach_from f table i (d, h, mesh) in
    scratch_only tmp d h d' h'.
Proof.
  intros Hf. induction table as [|data table IH]; intros i d h mesh.
  - simpl. apply scratch_only_refl.
  - cbn [forEach_from].
    specialize (Hf data i d h mesh).
    destruct (f data i (d, h, mesh)) as [[d1 h1] m1].
    specialize (IH (S i) d1 h1 m1).
    destruct (forEach_from f table (S i) (d1, h1, m1)) as [[d2 h2] m2].
    eapply scratch_only_trans; eassumption.
Qed.

Lemma update_population_footprint tmp
  (f : OrnamentData -> nat -> Ornaments.Ctx -> Ornaments.Ctx) table d h mesh :
  (forall data i d h mesh,
     let '(d', h', _) := f data i (d, h, mesh) in scratch_only tmp d h d' h') ->
  let '(d', h', _) := Ornaments.update_population f table d h mesh in
  scratch_only tmp d h d' h'.
Proof.
  intros Hf. unfold Ornaments.update_population, forEach.
  destruct mesh as [m|]; [ | apply scratch_only_refl ].
  generalize (forEach_from_footprint tmp f Hf table 0%nat d h m).
  destruct (forEach_from f table 0%nat (d, h, m)) as [[d1 h1] m1].
  exact (fun H => H).
Qed.

(** One frame: the tables and the scratch locations stay, and the store
    changes at the scratch objects only. *)
Lemma useFrame_footprint mode time delta s :
  let s' := Ornaments.useFrame mode time delta s in
  Ornaments.balls s' = Ornaments.balls s /\
  Ornaments.boxes s' = Ornaments.boxes s /\
  Ornaments.lights s' = Ornaments.lights s /\
  Ornaments.tempVec3 s' = Ornaments.tempVec3 s /\
  scratch_only (Ornaments.tempVec3 s) (Ornaments.dummy s) (Ornaments.store s)
               (Ornaments.dummy s') (Ornaments.store s').
Proof.
  unfold Ornaments.useFrame.
  set (isForming := TreeState_eqb mode FORMED).
  set (progress := MathUtils.lerp _ _ _).
  pose proof (update_population_footprint (Ornaments.tempVec3 s)
                (Ornaments.update_ball isForming progress time
                   (Ornaments.tempVec3 s))
                (Ornaments.balls s) (Ornaments.dummy s) (Ornaments.store s)
                (Ornaments.ballMesh s)
                (update_ball_footprint isForming progress time _)) as H1.
  destruct (Ornaments.update_population _ (Ornaments.balls s) _ _ _)
    as [[d1 h1] m1].
  pose proof (update_population_footprint (Ornaments.tempVec3 s)
                (Ornaments.update_box progress time (Ornaments.tempVec3 s))
                (Ornaments.boxes s) d1 h1 (Ornaments.boxMesh s)
                (update_box_footprint progress time _)) as H2.
  destruct (Ornaments.update_population _ (Ornaments.boxes s) _ _ _)
    as [[d2 h2] m2].
  pose proof (update_population_footprint (Ornaments.tempVec3 s)
                (Ornaments.update_light progress time (Ornaments.tempVec3 s))
                (Ornaments.lights s) d2 h2 (Ornaments.lightMesh s)
                (update_light_footprint progress time _)) as H3.
  destruct (Ornaments.update_population _ (Ornaments.lights s) _ _ _)
    as [[d3 h3] m3].
  cbn [Ornaments.balls Ornaments.boxes Ornaments.lights Ornaments.tempVec3
       Ornaments.dummy Ornaments.store].
  split_all; try reflexivity.
  eapply scratch_only_trans; [ | exact H3 ].
  eapply scratch_only_trans; eassumption.
Qed.

Lemma clear_of_scratch_record tmp d h d' h' r :
  scratch_only tmp d h d' h' -> clear_of_scratch tmp d r ->
  record_in h' r = record_in h r /\ clear_of_scratch tmp d' r.
Proof.
  intros (P & Ro & S & V & E & C) (Hc & Ht & Hr).
  split.
  - unfold record_in. rewrite !V, E, C by assumption. reflexivity.
  - unfold clear_of_scratch, scratch_vectors in *. rewrite P, Ro, S. auto.
Qed.

(** Any number of frames: the tables stay and denote the same records. *)
Lemma run_frames_tables frames : forall s,
  separated s ->
  let s' := Ornaments.run_frames frames s in
  Ornaments.balls s' = Ornaments.balls s /\
  Ornaments.boxes s' = Ornaments.boxes s /\
  Ornaments.lights s' = Ornaments.lights s /\
  forall d, In d (tables s) ->
    record_in (Ornaments.store s') d = record_in (Ornaments.store s) d.
Proof.
  unfold Ornaments.run_frames.
  induction frames as [|[[mode time] delta] frames IH]; intros s Hsep.
  - simpl. auto.
  - cbn [fold_left].
    destruct (useFrame_footprint mode time delta s)
      as (Hb & Hx & Hl & Htmp & Hfoot).
    set (s1 := Ornaments.useFrame mode time delta s) in *.
    assert (Htab : tables s1 = tables s)
      by (unfold tables; rewrite Hb, Hx, Hl; reflexivity).
    assert (Hsep1 : separated s1).
    { unfold separated in *. rewrite Htab, Htmp.
      eapply Forall_impl; [ | exact Hsep ].
      intros r Hr. eapply clear_of_scratch_record; eassumption. }
    destruct (IH s1 Hsep1) as (Hb' & Hx' & Hl' & Hrec).
    split_all; try congruence.
    intros r Hr. rewrite Hrec by (rewrite Htab; exact Hr).
    unfold separated in Hsep. rewrite Forall_forall in Hsep.
    eapply clear_of_scratch_record; [ exact Hfoot | apply Hsep; exact Hr ].
Qed.

Lemma foliage_run_frames_geometry frames : forall s,
  TreeFoliage.geometry (TreeFoliage.run_frames frames s) =
  TreeFoliage.geometry s.
Proof.
  unfold TreeFoliage.run_frames.
  induction frames as [|[[mode time] delta] frames IH]; intros s.
  - reflexivity.
  - cbn [fold_left]. rewrite IH. unfold TreeFoliage.useFrame.
    destruct (TreeFoliage.material s); reflexivity.
Qed.

(** ** Mounting the ornaments component *)

Lemma new_Vector3_spec x y z w l w' :
  new_Vector3 x y z w = (l, w') ->
  l = nvectors (heap w) /\ nvectors (heap w') = S (nvectors (heap w)) /\
  neulers (heap w') = neulers (heap w).
Proof.
  unfold new_Vector3. intros E. injection E as <- <-. simpl. auto.
Qed.

Lemma new_Object3D_spec w d w' :
  Three.new_Object3D w = (d, w') ->
  Three.position d = nvectors (heap w) /\
  Three.scale d = S (nvectors (heap w)) /\
  Three.rotation d = neulers (heap w) /\
  nvectors (heap w') = S (S (nvectors (heap w))) /\
  neulers (heap w') = S (neulers (heap w)).
Proof.
  unfold Three.new_Object3D, bind, new_Vector3, new_Euler, ret.
  intros E. injection E as <- <-. simpl. auto.
Qed.

Lemma fresh_clear_of_scratch h tmp dm r :
  fresh_from h r ->
  (tmp < nvectors h)%nat -> (Three.position dm < nvectors h)%nat ->
  (Three.scale dm < nvectors h)%nat -> (Three.rotation dm < neulers h)%nat ->
  clear_of_scratch tmp dm r.
Proof.
  intros (Hc & Ht & Hr & _) H1 H2 H3 H4.
  unfold clear_of_scratch, scratch_vectors; simpl.
  split_all; try lia; intros [E | [E | [E | []]]]; lia.
Qed.

(** The tables of a freshly mounted component share nothing with the
    scratch objects: those were created first. *)
Lemma mount_separated bm xm lm w :
  separated (fst (Ornaments.mount bm xm lm w)).
Proof.
  unfold Ornaments.mount, bind.
  destruct (Three.new_Object3D w) as [d w1] eqn:E0.
  destruct (new_Vector3 0 0 0 w1) as [tmp w2] eqn:E1.
  destruct (Ornaments.generateOrnamentData Ornaments.BALL_COUNT Ornaments.ball w2)
    as [bs w3] eqn:Eb.
  destruct (Ornaments.generateOrnamentData Ornaments.BOX_COUNT Ornaments.box w3)
    as [xs w4] eqn:Ex.
  destruct (Ornaments.generateOrnamentData Ornaments.LIGHT_COUNT Ornaments.light w4)
    as [ls w5] eqn:El.
  cbn [fst].
  destruct (new_Object3D_spec _ _ _ E0) as (Hp & Hs & Hr & Hn1 & He1).
  destruct (new_Vector3_spec _ _ _ _ _ _ E1) as (Ht & Hn2 & He2).
  destruct (generateOrnamentData_alloc _ _ _ _ _ Eb) as (Xb & _ & _ & Fb).
  destruct (generateOrnamentData_alloc _ _ _ _ _ Ex) as (Xx & _ & _ & Fx).
  destruct (generateOrnamentData_alloc _ _ _ _ _ El) as (_ & _ & _ & Fl).
  assert (Fresh : Forall (fresh_from (heap w2)) (bs ++ xs ++ ls)).
  { repeat (apply Forall_app; split).
    - exact Fb.
    - eapply Forall_impl; [ | exact Fx ].
      intros r Hfr. eapply fresh_from_extends; eassumption.
    - eapply Forall_impl; [ | exact Fl ].
      intros r Hfr. eapply fresh_from_extends; [ | exact Hfr ].
      eapply extends_trans; eassumption. }
  unfold separated, tables.
  cbn [Ornaments.balls Ornaments.boxes Ornaments.lights Ornaments.tempVec3
       Ornaments.dummy].
  eapply Forall_impl; [ | exact Fresh ].
  intros r Hfr. eapply fresh_clear_of_scratch; [ exact Hfr | lia .. ].
Qed.

(** The mounted component has tables of the three fixed sizes. *)
Lemma mount_counts bm xm lm w :
  let s := fst (Ornaments.mount bm xm lm w) in
  List.length (Ornaments.balls s) = Ornaments.BALL_COUNT /\
  List.length (Ornaments.boxes s) = Ornaments.BOX_COUNT /\
  List.length (Ornaments.lights s) = Ornaments.LIGHT_COUNT.
Proof.
  unfold Ornaments.mount, bind.
  destruct (Three.new_Object3D w) as [d w1].
  destruct (new_Vector3 0 0 0 w1) as [tmp w2].
  destruct (Ornaments.generateOrnamentData Ornaments.BALL_COUNT Ornaments.ball w2)
    as [bs w3] eqn:Eb.
  destruct (Ornaments.generateOrnamentData Ornaments.BOX_COUNT Ornaments.box w3)
    as [xs w4] eqn:Ex.
  destruct (Ornaments.generateOrnamentData Ornaments.LIGHT_COUNT Ornaments.light w4)
    as [ls w5] eqn:El.
  cbn [fst Ornaments.balls Ornaments.boxes Ornaments.lights].
  destruct (generateOrnamentData_alloc _ _ _ _ _ Eb) as (_ & _ & Lb & _).
  destruct (generateOrnamentData_alloc _ _ _ _ _ Ex) as (_ & _ & Lx & _).
  destruct (generateOrnamentData_alloc _ _ _ _ _ El) as (_ & _ & Ll & _).
  auto.
Qed.

(** The mounted component starts at progress 0. *)
Lemma mount_progress bm xm lm w :
  Ornaments.currentProgress (fst (Ornaments.mount bm xm lm w)) = 0.
Proof.
  unfold Ornaments.mount, bind.
  destruct (Three.new_Object3D w) as [d w1].
  destruct (new_Vector3 0 0 0 w1) as [tmp w2].
  destruct (Ornaments.generateOrnamentData Ornaments.BALL_COUNT Ornaments.ball w2)
    as [bs w3].
  destruct (Ornaments.generateOrnamentData Ornaments.BOX_COUNT Ornaments.box w3)
    as [xs w4].
  destruct (Ornaments.generateOrnamentData Ornaments.LIGHT_COUNT Ornaments.light w4)
    as [ls w5].
  reflexivity.
Qed.

(** The mounted component holds the mesh refs it was given. *)
Lemma mount_meshes bm xm lm w :
  meshes (fst (Ornaments.mount bm xm lm w)) = (bm, xm, lm).
Proof.
  unfold Ornaments.mount, bind.
  destruct (Three.new_Object3D w) as [d w1].
  destruct (new_Vector3 0 0 0 w1) as [tmp w2].
  destruct (Ornaments.generateOrnamentData Ornaments.BALL_COUNT Ornaments.ball w2)
    as [bs w3].
  destruct (Ornaments.generateOrnamentData Ornaments.BOX_COUNT Ornaments.box w3)
    as [xs w4].
  destruct (Ornaments.generateOrnamentData Ornaments.LIGHT_COUNT Ornaments.light w4)
    as [ls w5].
  reflexivity.
Qed.

Lemma sample_ornaments_separated v : separated (sample_ornaments v).
Proof.
  unfold separated, tables, sample_ornaments, clear_of_scratch,
    scratch_vectors.
  cbn [Ornaments.balls Ornaments.boxes Ornaments.lights Ornaments.tempVec3
       Ornaments.dummy Three.position Three.scale Three.rotation app
       chaosPos targetPos targetRot In].
  repeat (apply Forall_cons;
          [ cbn [chaosPos targetPos targetRot]; split_all;
            [ intros [E | [E | [E | []]]]; lia
            | intros [E | [E | [E | []]]]; lia
            | lia ]
          | ]).
  apply Forall_nil.
Qed.

(** C9.  Frame updates preserve the static particle tables.  In the
    ornaments component, whose tables share no object with the scratch
    objects (as is the case once mounted), any number of frames leaves the
    three tables as they were, record for record, and every record denotes
    the same chaos position, target position, target rotation, colour and
    baseline scale in the store afterwards.  In the foliage component any
    number of frames leaves the three attribute arrays as they were. *)
Theorem frames_preserve_static_tables :
  (forall frames s,
     separated s ->
     let s' := Ornaments.run_frames frames s in
     Ornaments.balls s' = Ornaments.balls s /\
     Ornaments.boxes s' = Ornaments.boxes s /\
     Ornaments.lights s' = Ornaments.lights s /\
     forall d, In d (tables s) ->
       record_in (Ornaments.store s') d = record_in (Ornaments.store s) d) /\
  (forall bm xm lm w, separated (fst (Ornaments.mount bm xm lm w))) /\
  (forall frames s,
     TreeFoliage.geometry (TreeFoliage.run_frames frames s) =
     TreeFoliage.geometry s).
Proof.
  split_all.
  - intros frames s Hsep. apply run_frames_tables. exact Hsep.
  - apply mount_separated.
  - intros frames s. apply foliage_run_frames_geometry.
Qed.

Lemma frames_preserve_static_tables_witness :
  Ornaments.balls
    (Ornaments.run_frames [(FORMED, 0, 1 / 60); (CHAOS, 1, 1 / 60)]
       (sample_ornaments 1.5)) =
  Ornaments.balls (sample_ornaments 1.5) /\
  record_in
    (Ornaments.store
       (Ornaments.run_frames [(FORMED, 0, 1 / 60); (CHAOS, 1, 1 / 60)]
          (sample_ornaments 1.5)))
    (mkOrnamentData 3%nat 4%nat 1%nat 0%nat 0.25 1.5) =
  record_in (Ornaments.store (sample_ornaments 1.5))
    (mkOrnamentData 3%nat 4%nat 1%nat 0%nat 0.25 1.5).
Proof.
  destruct (proj1 frames_preserve_static_tables
              [(FORMED, 0, 1 / 60); (CHAOS, 1, 1 / 60)]
              (sample_ornaments 1.5) (sample_ornaments_separated 1.5))
    as (Hb & _ & _ & Hrec).
  split; [ exact Hb | ].
  apply Hrec. left. reflexivity.
Defined.

(** ** The [speed] field is never read *)

Lemma update_ball_blind isForming progress time tmp d1 d2 i c :
  same_but_speed d1 d2 ->
  Ornaments.update_ball isForming progress time tmp d1 i c =
  Ornaments.update_ball isForming progress time tmp d2 i c.
Proof.
  intros (Hc & Ht & Hr & _ & Hs). unfold Ornaments.update_ball.
  destruct c as [[d h] m]. rewrite Hc, Ht, Hr, Hs. reflexivity.
Qed.

Lemma update_box_blind progress time tmp d1 d2 i c :
  same_but_speed d1 d2 ->
  Ornaments.update_box progress time tmp d1 i c =
  Ornaments.update_box progress time tmp d2 i c.
Proof.
  intros (Hc & Ht & Hr & _ & Hs). unfold Ornaments.update_box.
  destruct c as [[d h] m]. rewrite Hc, Ht, Hr, Hs. reflexivity.
Qed.

Lemma update_light_blind progress time tmp d1 d2 i c :
  same_but_speed d1 d2 ->
  Ornaments.update_light progress time tmp d1 i c =
  Ornaments.update_light progress time tmp d2 i c.
Proof.
  intros (Hc & Ht & _ & _ & Hs). unfold Ornaments.update_light.
  destruct c as [[d h] m]. rewrite Hc, Ht, Hs. reflexivity.
Qed.

Lemma forEach_from_blind {St : Type} (f : OrnamentData -> nat -> St -> St) :
  (forall d1 d2 i c, same_but_speed d1 d2 -> f d1 i c = f d2 i c) ->
  forall t1 t2, Forall2 same_but_speed t1 t2 ->
  forall i c, forEach_from f t1 i c = forEach_from f t2 i c.
Proof.
  intros Hf t1 t2 H. induction H as [|d1 d2 t1 t2 Hd _ IH]; intros i c.
  - reflexivity.
  - cbn [forEach_from]. rewrite (Hf d1 d2 i c Hd). apply IH.
Qed.

Lemma update_population_blind
  (f : OrnamentData -> nat -> Ornaments.Ctx -> Ornaments.Ctx) t1 t2 d h mesh :
  (forall d1 d2 i c, same_but_speed d1 d2 -> f d1 i c = f d2 i c) ->
  Forall2 same_but_speed t1 t2 ->
  Ornaments.update_population f t1 d h mesh =
  Ornaments.update_population f t2 d h mesh.
Proof.
  intros Hf H. unfold Ornaments.update_population, forEach.
  destruct mesh as [m|]; [ | reflexivity ].
  rewrite (forEach_from_blind f Hf t1 t2 H). reflexivity.
Qed.

Lemma useFrame_speed_blind mode time delta s1 s2 :
  speed_blind s1 s2 ->
  speed_blind (Ornaments.useFrame mode time delta s1)
              (Ornaments.useFrame mode time delta s2).
Proof.
  intros (Hst & Hd & Ht & Hp & Hbm & Hxm & Hlm & Fb & Fx & Fl).
  unfold speed_blind, Ornaments.useFrame.
  rewrite Hst, Hd, Ht, Hp, Hbm, Hxm, Hlm.
  rewrite (update_population_blind _ (Ornaments.balls s1) (Ornaments.balls s2)
             _ _ _ (update_ball_blind _ _ _ _) Fb).
  destruct (Ornaments.update_population _ (Ornaments.balls s2) _ _ _)
    as [[d1 h1] m1].
  rewrite (update_population_blind _ (Ornaments.boxes s1) (Ornaments.boxes s2)
             _ _ _ (update_box_blind _ _ _) Fx).
  destruct (Ornaments.update_population _ (Ornaments.boxes s2) _ _ _)
    as [[d2 h2] m2].
  rewrite (update_population_blind _ (Ornaments.lights s1)
             (Ornaments.lights s2) _ _ _ (update_light_blind _ _ _) Fl).
  destruct (Ornaments.update_population _ (Ornaments.lights s2) _ _ _)
    as [[d3 h3] m3].
  cbn [Ornaments.store Ornaments.dummy Ornaments.tempVec3
       Ornaments.currentProgress Ornaments.ballMesh Ornaments.boxMesh
       Ornaments.lightMesh Ornaments.balls Ornaments.boxes Ornaments.lights].
  split_all; auto.
Qed.

Lemma run_frames_speed_blind frames : forall s1 s2,
  speed_blind s1 s2 ->
  speed_blind (Ornaments.run_frames frames s1)
              (Ornaments.run_frames frames s2).
Proof.
  unfold Ornaments.run_frames.
  induction frames as [|[[mode time] delta] frames IH]; intros s1 s2 H.
  - exact H.
  - cbn [fold_left]. apply IH. apply useFrame_speed_blind. exact H.
Qed.

Lemma set_colors_blind h t1 t2 mesh :
  Forall2 same_but_speed t1 t2 ->
  Ornaments.set_colors h t1 mesh = Ornaments.set_colors h t2 mesh.
Proof.
  intros H. unfold Ornaments.set_colors, forEach.
  destruct mesh as [m|].
  - rewrite (forEach_from_blind
               (fun data i m0 => Three.setColorAt i (colors h (color data)) m0))
      with (t2 := t2); [ reflexivity | | exact H ].
    intros d1 d2 i c (_ & _ & _ & Hcol & _). rewrite Hcol. reflexivity.
  - destruct H; reflexivity.
Qed.

Lemma useLayoutEffect_speed_blind s1 s2 :
  speed_blind s1 s2 ->
  layout_agree (Ornaments.useLayoutEffect s1) (Ornaments.useLayoutEffect s2).
Proof.
  intros (Hst & Hd & Ht & Hp & Hbm & Hxm & Hlm & Fb & Fx & Fl).
  unfold layout_agree, Ornaments.useLayoutEffect.
  rewrite Hst, Hd, Ht, Hp, Hbm, Hxm, Hlm.
  rewrite (set_colors_blind _ _ _ _ Fb), (set_colors_blind _ _ _ _ Fx),
    (set_colors_blind _ _ _ _ Fl).
  destruct (Ornaments.set_colors _ (Ornaments.balls s2) _); [ | exact I ].
  destruct (Ornaments.set_colors _ (Ornaments.boxes s2) _); [ | exact I ].
  destruct (Ornaments.set_colors _ (Ornaments.lights s2) _); [ | exact I ].
  unfold speed_blind.
  cbn [Ornaments.store Ornaments.dummy Ornaments.tempVec3
       Ornaments.currentProgress Ornaments.ballMesh Ornaments.boxMesh
       Ornaments.lightMesh Ornaments.balls Ornaments.boxes Ornaments.lights].
  split_all; auto.
Qed.

Lemma sample_ornaments_speed_blind v1 v2 :
  speed_blind (sample_ornaments v1) (sample_ornaments v2).
Proof.
  unfold speed_blind, sample_ornaments.
  cbn [Ornaments.store Ornaments.dummy Ornaments.tempVec3
       Ornaments.currentProgress Ornaments.ballMesh Ornaments.boxMesh
       Ornaments.lightMesh Ornaments.balls Ornaments.boxes Ornaments.lights].
  split_all; try reflexivity;
    (apply Forall2_cons; [ | apply Forall2_nil ]);
    unfold same_but_speed; cbn [chaosPos targetPos targetRot color scale];
    split_all; reflexivity.
Qed.

(** C10.  The [speed] field of a record never reaches the rendered output.
    Two states of the ornaments component that agree on everything but the
    [speed] fields of their tables still do so after a frame, after any
    number of frames and after the colour layout effect; in particular their
    meshes - the instance matrices and the instance colours - are equal at
    every time and progress. *)
Theorem speed_never_rendered :
  (forall mode time delta s1 s2,
     speed_blind s1 s2 ->
     speed_blind (Ornaments.useFrame mode time delta s1)
                 (Ornaments.useFrame mode time delta s2)) /\
  (forall s1 s2,
     speed_blind s1 s2 ->
     layout_agree (Ornaments.useLayoutEffect s1)
                  (Ornaments.useLayoutEffect s2)) /\
  (forall frames s1 s2,
     speed_blind s1 s2 ->
     meshes (Ornaments.run_frames frames s1) =
     meshes (Ornaments.run_frames frames s2)).
Proof.
  split_all.
  - intros. apply useFrame_speed_blind. assumption.
  - intros. apply useLayoutEffect_speed_blind. assumption.
  - intros frames s1 s2 H.
    destruct (run_frames_speed_blind frames s1 s2 H)
      as (_ & _ & _ & _ & Hb & Hx & Hl & _).
    unfold meshes. rewrite Hb, Hx, Hl. reflexivity.
Qed.

Lemma speed_never_rendered_witness :
  meshes (Ornaments.run_frames [(FORMED, 0, 1 / 60); (FORMED, 1, 1 / 60)]
            (sample_ornaments 1.5)) =
  meshes (Ornaments.run_frames [(FORMED, 0, 1 / 60); (FORMED, 1, 1 / 60)]
            (sample_ornaments 99)).
Proof.
  apply (proj2 (proj2 speed_never_rendered)).
  apply sample_ornaments_speed_blind.
Defined.

(** * Further properties of the code *)

(** ** The progress controllers under arbitrary frames *)

Lemma lerp_between (p T t : R) :
  0 <= t <= 1 -> between p T (MathUtils.lerp p T t).
Proof.
  intros Ht. unfold between, MathUtils.lerp.
  destruct (Rle_dec p T); [ left | right ]; nra.
Qed.

Lemma lerp_fixed (T t : R) : MathUtils.lerp T T t = T.
Proof. unfold MathUtils.lerp. ring. Qed.

Lemma tTarget_unit (mode : TreeState) : 0 <= tTarget mode <= 1.
Proof. destruct (tTarget_cases mode) as [[_ ->]|[_ ->]]; lra. Qed.

Lemma between_unit (a b x : R) :
  0 <= a <= 1 -> 0 <= b <= 1 -> between a b x -> 0 <= x <= 1.
Proof. unfold between. intros Ha Hb [H | H]; lra. Qed.

(** The foliage callback either takes a [lerp] step or, unmounted, none. *)
Lemma foliage_useFrame_cases mode time delta s :
  (TreeFoliage.material s <> None /\
   TreeFoliage.currentProgress (TreeFoliage.useFrame mode time delta s) =
   MathUtils.lerp (TreeFoliage.currentProgress s) (tTarget mode) (delta * 1.5))
  \/ (TreeFoliage.material s = None /\
      TreeFoliage.useFrame mode time delta s = s).
Proof.
  unfold TreeFoliage.useFrame, tTarget.
  destruct (TreeFoliage.material s) as [u|].
  - left. split; [ discriminate | reflexivity ].
  - right. split; reflexivity.
Qed.

Lemma useFrame_between :
  (forall mode time delta s,
     0 <= delta <= 1.25 ->
     between (Ornaments.currentProgress s) (tTarget mode)
       (Ornaments.currentProgress (Ornaments.useFrame mode time delta s))) /\
  (forall mode time delta s,
     0 <= delta <= 2 / 3 ->
     between (TreeFoliage.currentProgress s) (tTarget mode)
       (TreeFoliage.currentProgress (TreeFoliage.useFrame mode time delta s))).
Proof.
  split.
  - intros mode time delta s Hd. rewrite ornaments_useFrame_progress.
    apply lerp_between. lra.
  - intros mode time delta s Hd.
    destruct (foliage_useFrame_cases mode time delta s) as [[_ ->] | [_ ->]].
    + apply lerp_between. lra.
    + unfold between.
      destruct (Rle_dec (TreeFoliage.currentProgress s) (tTarget mode));
        [ left | right ]; lra.
Qed.

(** X1.  A frame whose [lerp] parameter is in [0, 1] moves the progress
    towards the target of the current mode and not past it: the new progress
    lies between the old one and the target.  Once the progress equals the
    target it stays there for every frame time, however large. *)
Theorem frame_moves_toward_target :
  (forall mode time delta s,
     0 <= delta <= 1.25 ->
     between (Ornaments.currentProgress s) (tTarget mode)
       (Ornaments.currentProgress (Ornaments.useFrame mode time delta s))) /\
  (forall mode time delta s,
     0 <= delta <= 2 / 3 ->
     between (TreeFoliage.currentProgress s) (tTarget mode)
       (TreeFoliage.currentProgress (TreeFoliage.useFrame mode time delta s))) /\
  (forall mode time delta s,
     Ornaments.currentProgress s = tTarget mode ->
     Ornaments.currentProgress (Ornaments.useFrame mode time delta s) =
     tTarget mode) /\
  (forall mode time delta s,
     TreeFoliage.currentProgress s = tTarget mode ->
     TreeFoliage.currentProgress (TreeFoliage.useFrame mode time delta s) =
     tTarget mode).
Proof.
  destruct useFrame_between as [HO HF].
  split_all.
  - exact HO.
  - exact HF.
  - intros mode time delta s Hs. rewrite ornaments_useFrame_progress, Hs.
    apply lerp_fixed.
  - intros mode time delta s Hs.
    destruct (foliage_useFrame_cases mode time delta s) as [[_ ->] | [_ ->]].
    + rewrite Hs. apply lerp_fixed.
    + exact Hs.
Qed.

Lemma frame_moves_toward_target_witness :
  between 0 1
    (Ornaments.currentProgress
       (Ornaments.useFrame FORMED 0 (1 / 60) (bare_ornaments 0))) /\
  between 1 0
    (TreeFoliage.currentProgress
       (TreeFoliage.useFrame CHAOS 0 (1 / 60) (bare_foliage 1))) /\
  Ornaments.currentProgress
    (Ornaments.useFrame FORMED 0 1000 (bare_ornaments 1)) = 1 /\
  TreeFoliage.currentProgress
    (TreeFoliage.useFrame CHAOS 0 1000 (bare_foliage 0)) = 0.
Proof.
  destruct frame_moves_toward_target as (HO & HF & FO & FF).
  split_all.
  - apply (HO FORMED 0 (1 / 60) (bare_ornaments 0)). lra.
  - apply (HF CHAOS 0 (1 / 60) (bare_foliage 1)). lra.
  - apply (FO FORMED 0 1000 (bare_ornaments 1)). reflexivity.
  - apply (FF CHAOS 0 1000 (bare_foliage 0)). reflexivity.
Defined.

(** X2.  The unit interval is an invariant of both controllers: from a
    progress in [0, 1], any run of frames that last at most 1.25 s
    (ornaments) or 2/3 s (foliage) each, with the mode changing at will
    between frames, keeps the progress in [0, 1]. *)
Theorem progress_stays_in_unit_interval :
  (forall frames s,
     frame_times_within 1.25 frames ->
     0 <= Ornaments.currentProgress s <= 1 ->
     0 <= Ornaments.currentProgress (Ornaments.run_frames frames s) <= 1) /\
  (forall frames s,
     frame_times_within (2 / 3) frames ->
     0 <= TreeFoliage.currentProgress s <= 1 ->
     0 <= TreeFoliage.currentProgress (TreeFoliage.run_frames frames s) <= 1).
Proof.
  destruct useFrame_between as [HO HF].
  unfold frame_times_within, Ornaments.run_frames, TreeFoliage.run_frames.
  split.
  - induction frames as [|[[mode time] delta] frames IH]; intros s Hf Hs.
    + exact Hs.
    + cbn [fold_left]. inversion Hf as [|? ? Hd Hf']; subst.
      apply IH; [ exact Hf' | ].
      eapply between_unit; [ exact Hs | apply tTarget_unit | ].
      apply HO. exact Hd.
  - induction frames as [|[[mode time] delta] frames IH]; intros s Hf Hs.
    + exact Hs.
    + cbn [fold_left]. inversion Hf as [|? ? Hd Hf']; subst.
      apply IH; [ exact Hf' | ].
      eapply between_unit; [ exact Hs | apply tTarget_unit | ].
      apply HF. exact Hd.
Qed.

Lemma progress_stays_in_unit_interval_witness :
  0 <= Ornaments.currentProgress
         (Ornaments.run_frames [(FORMED, 0, 1); (CHAOS, 1, 1 / 2)]
            (bare_ornaments (1 / 3))) <= 1 /\
  0 <= TreeFoliage.currentProgress
         (TreeFoliage.run_frames [(FORMED, 0, 1 / 2); (CHAOS, 1, 2 / 3)]
            (bare_foliage (1 / 3))) <= 1.
Proof.
  split.
  - apply (proj1 progress_stays_in_unit_interval).
    + repeat constructor; simpl; lra.
    + simpl. lra.
  - apply (proj2 progress_stays_in_unit_interval).
    + repeat constructor; simpl; lra.
    + simpl. lra.
Defined.

(** X3.  Release mirrors assembly: from mirrored starts, the progress of a
    steady run towards chaos is one minus the progress of the same run
    towards formed. *)
Theorem release_mirrors_assembly :
  (forall dt times s1 s2,
     Ornaments.currentProgress s2 = 1 - Ornaments.currentProgress s1 ->
     ornaments_progress CHAOS dt s2 times =
     1 - ornaments_progress FORMED dt s1 times) /\
  (forall dt times s1 s2,
     TreeFoliage.material s1 <> None -> TreeFoliage.material s2 <> None ->
     TreeFoliage.currentProgress s2 = 1 - TreeFoliage.currentProgress s1 ->
     foliage_progress CHAOS dt s2 times =
     1 - foliage_progress FORMED dt s1 times).
Proof.
  split.
  - intros dt times s1 s2 H.
    pose proof (ornaments_progress_closed CHAOS dt times s2) as HC.
    pose proof (ornaments_progress_closed FORMED dt times s1) as HF.
    rewrite H in HC. unfold tTarget in HC, HF; simpl in HC, HF. lra.
  - intros dt times s1 s2 M1 M2 H.
    pose proof (foliage_progress_closed CHAOS dt times s2 M2) as HC.
    pose proof (foliage_progress_closed FORMED dt times s1 M1) as HF.
    rewrite H in HC. unfold tTarget in HC, HF; simpl in HC, HF. lra.
Qed.

Lemma release_mirrors_assembly_witness :
  ornaments_progress CHAOS (1 / 60) (bare_ornaments (3 / 4)) [0; 1] =
  1 - ornaments_progress FORMED (1 / 60) (bare_ornaments (1 / 4)) [0; 1] /\
  foliage_progress CHAOS (1 / 60) (bare_foliage (3 / 4)) [0; 1] =
  1 - foliage_progress FORMED (1 / 60) (bare_foliage (1 / 4)) [0; 1].
Proof.
  split.
  - apply (proj1 release_mirrors_assembly). simpl. lra.
  - apply (proj2 release_mirrors_assembly).
    + simpl; discriminate.
    + simpl; discriminate.
    + simpl. lra.
Defined.

(** X4.  The foliage leads the ornaments: from the same progress, over the
    same steady frames of at most 2/3 s, the foliage is never farther from
    the target than the ornaments are. *)
Theorem foliage_leads_ornaments :
  forall mode dt times so sf,
    0 <= dt <= 2 / 3 ->
    TreeFoliage.material sf <> None ->
    TreeFoliage.currentProgress sf = Ornaments.currentProgress so ->
    Rabs (foliage_progress mode dt sf times - tTarget mode) <=
    Rabs (ornaments_progress mode dt so times - tTarget mode).
Proof.
  intros mode dt times so sf Hdt Hm Hs.
  rewrite (foliage_progress_closed mode dt times sf Hm),
    (ornaments_progress_closed mode dt times so), Hs, !Rabs_mult.
  apply Rmult_le_compat_r; [ apply Rabs_pos | ].
  rewrite !Rabs_pos_eq by (apply pow_le; lra).
  apply pow_incr. lra.
Qed.

Lemma foliage_leads_ornaments_witness :
  Rabs (foliage_progress FORMED (1 / 60) (bare_foliage 0) [0; 1; 2] - 1) <=
  Rabs (ornaments_progress FORMED (1 / 60) (bare_ornaments 0) [0; 1; 2] - 1).
Proof.
  apply (foliage_leads_ornaments FORMED (1 / 60) [0; 1; 2]
           (bare_ornaments 0) (bare_foliage 0)).
  - lra.
  - simpl; discriminate.
  - reflexivity.
Defined.

(** ** Mounted and unmounted components *)

(** X5.  A component that is not mounted is skipped.  While the material
    ref of the foliage is null a frame changes nothing, so its progress does
    not advance.  While the three mesh refs of the ornaments are null a frame
    leaves the store, the scratch object and the refs as they are, yet the
    progress still takes its [lerp] step. *)
Theorem unmounted_components_are_skipped :
  (forall mode time delta s,
     TreeFoliage.material s = None ->
     TreeFoliage.useFrame mode time delta s = s) /\
  (forall mode time delta s,
     meshes s = (None, None, None) ->
     let s' := Ornaments.useFrame mode time delta s in
     Ornaments.store s' = Ornaments.store s /\
     Ornaments.dummy s' = Ornaments.dummy s /\
     meshes s' = (None, None, None) /\
     Ornaments.currentProgress s' =
     MathUtils.lerp (Ornaments.currentProgress s) (tTarget mode)
                    (delta * 0.8)).
Proof.
  split.
  - intros mode time delta s Hm. unfold TreeFoliage.useFrame.
    rewrite Hm. reflexivity.
  - intros mode time delta s Hm.
    unfold meshes in Hm. injection Hm as Hb Hx Hl.
    cbv zeta. split_all; try apply ornaments_useFrame_progress.
    all: unfold Ornaments.useFrame, meshes, Ornaments.update_population;
      rewrite Hb, Hx, Hl; reflexivity.
Qed.

Lemma unmounted_components_are_skipped_witness :
  TreeFoliage.useFrame FORMED 3 (1 / 60)
    (TreeFoliage.mkState (1 / 2) None
       (TreeFoliage.geometry (bare_foliage 0))) =
  TreeFoliage.mkState (1 / 2) None (TreeFoliage.geometry (bare_foliage 0)) /\
  Ornaments.store (Ornaments.useFrame FORMED 3 (1 / 60) (bare_ornaments 0)) =
  Ornaments.store (bare_ornaments 0).
Proof.
  destruct unmounted_components_are_skipped as [HF HO].
  split.
  - apply HF. reflexivity.
  - apply (HO FORMED 3 (1 / 60) (bare_ornaments 0)). reflexivity.
Defined.

Lemma foliage_useFrame_uniforms mode time delta s u :
  TreeFoliage.material s = Some u ->
  uniforms_in_step (uniform_colors u) time
    (TreeFoliage.useFrame mode time delta s).
Proof.
  intros Hm. unfold TreeFoliage.useFrame, uniforms_in_step. rewrite Hm.
  eexists. split; [ reflexivity | ]. split_all; reflexivity.
Qed.

(** X6.  The uniforms follow the component: after any non-empty run of
    frames on a mounted foliage, the [uProgress] uniform equals the stored
    progress, [uTime] is the clock of the last frame, and the three colour
    uniforms are the ones the material was mounted with. *)
Theorem uniforms_track_progress :
  forall frames s u,
    TreeFoliage.material s = Some u -> frames <> [] ->
    uniforms_in_step (uniform_colors u) (last_clock frames)
      (TreeFoliage.run_frames frames s).
Proof.
  unfold TreeFoliage.run_frames, last_clock.
  induction frames as [|[[mode time] delta] frames IH]; intros s u Hm Hne.
  - congruence.
  - cbn [fold_left].
    pose proof (foliage_useFrame_uniforms mode time delta s u Hm) as H1.
    destruct frames as [|f frames].
    + exact H1.
    + destruct H1 as (u1 & Hm1 & _ & _ & Hc).
      rewrite <- Hc.
      change (last (map (fun f0 : TreeState * R * R => snd (fst f0))
                    ((mode, time, delta) :: f :: frames)) 0)
        with (last (map (fun f0 : TreeState * R * R => snd (fst f0))
                    (f :: frames)) 0).
      apply IH; [ exact Hm1 | discriminate ].
Qed.

Lemma uniforms_track_progress_witness :
  uniforms_in_step
    ("#003311"%string, "#006622"%string, "#ffd700"%string) 7
    (TreeFoliage.run_frames [(FORMED, 5, 1 / 60); (FORMED, 7, 1 / 60)]
       (bare_foliage 0)).
Proof.
  apply (uniforms_track_progress
           [(FORMED, 5, 1 / 60); (FORMED, 7, 1 / 60)] (bare_foliage 0)
           TreeFoliage.initial_uniforms).
  - reflexivity.
  - discriminate.
Defined.

(** ** What the frame callbacks write *)

(** How the operations on vectors and Euler angles read back. *)
Lemma lerpVectors_same this a b t h :
  vectors (Three.Vector3_lerpVectors this a b t h) this =
  lerp3 (vectors h a) (vectors h b) t.
Proof. unfold Three.Vector3_lerpVectors; simpl. apply upd_same. Qed.

Lemma copy_same this v h :
  vectors (Three.Vector3_copy this v h) this = vectors h v.
Proof. unfold Three.Vector3_copy; simpl. apply upd_same. Qed.

Lemma setScalar_same this s h :
  vectors (Three.Vector3_setScalar this s h) this = mkVec3 s s s.
Proof. unfold Three.Vector3_setScalar; simpl. apply upd_same. Qed.

Lemma setScalar_other this s h l :
  l <> this -> vectors (Three.Vector3_setScalar this s h) l = vectors h l.
Proof.
  intros Hl. unfold Three.Vector3_setScalar; simpl. apply upd_other. exact Hl.
Qed.

Lemma add_x_same this dx h :
  vectors (Three.Vector3_add_x this dx h) this =
  mkVec3 (vx (vectors h this) + dx) (vy (vectors h this)) (vz (vectors h this)).
Proof. unfold Three.Vector3_add_x; simpl. apply upd_same. Qed.

Lemma add_y_same this dy h :
  vectors (Three.Vector3_add_y this dy h) this =
  mkVec3 (vx (vectors h this)) (vy (vectors h this) + dy) (vz (vectors h this)).
Proof. unfold Three.Vector3_add_y; simpl. apply upd_same. Qed.

Lemma vector_ops_eulers :
  (forall this a b t h,
     eulers (Three.Vector3_lerpVectors this a b t h) = eulers h) /\
  (forall this v h, eulers (Three.Vector3_copy this v h) = eulers h) /\
  (forall this s h, eulers (Three.Vector3_setScalar this s h) = eulers h) /\
  (forall this dx h, eulers (Three.Vector3_add_x this dx h) = eulers h) /\
  (forall this dy h, eulers (Three.Vector3_add_y this dy h) = eulers h).
Proof. split_all; reflexivity. Qed.

Lemma set_euler_reads h l e :
  vectors (set_euler h l e) = vectors h /\ eulers (set_euler h l e) l = e.
Proof. split; [ reflexivity | apply upd_same ]. Qed.

Ltac heap_reads Hps :=
  destruct vector_ops_eulers as (El & Ec & Es & Ex & Ey);
  unfold Three.rotation_set, Three.updateMatrix; cbv zeta;
  cbn [Three.position Three.rotation Three.scale Three.quaternion Three.matrix];
  repeat first
    [ rewrite (proj1 (set_euler_reads _ _ _))
    | rewrite (proj2 (set_euler_reads _ _ _))
    | rewrite setScalar_same
    | rewrite (setScalar_other _ _ _ _ Hps)
    | rewrite copy_same
    | rewrite add_x_same
    | rewrite add_y_same
    | rewrite lerpVectors_same
    | rewrite Es | rewrite Ec | rewrite Ex | rewrite Ey | rewrite El ];
  unfold lerp3; cbn [vx vy vz].

(** The ball callback leaves the scratch object in the pose of the ball and
    writes the matrix of that pose at the index of the ball. *)
Lemma update_ball_pose isForming progress time tmp data i d h mesh :
  Three.position d <> Three.scale d ->
  let P := ball_pose isForming progress time (record_in h data) i in
  let '(d', h', mesh') :=
    Ornaments.update_ball isForming progress time tmp data i (d, h, mesh) in
  holds_pose P d' h' /\ mesh' = Three.setMatrixAt i (pose_matrix P) mesh.
Proof.
  intros Hps. cbv zeta.
  unfold Ornaments.update_ball, holds_pose, pose_matrix, ball_pose, record_in.
  cbn [chaosPosition targetPosition targetOrientation baselineScale].
  destruct (Rltb progress 0.99); destruct (negb isForming && Rltb progress 0.1);
    heap_reads Hps; cbn [pose_position pose_rotation pose_scale];
    split_all; reflexivity.
Qed.

Lemma update_box_pose progress time tmp data i d h mesh :
  Three.position d <> Three.scale d ->
  let P := box_pose progress time (record_in h data) i in
  let '(d', h', mesh') :=
    Ornaments.update_box progress time tmp data i (d, h, mesh) in
  holds_pose P d' h' /\ mesh' = Three.setMatrixAt i (pose_matrix P) mesh.
Proof.
  intros Hps. cbv zeta.
  unfold Ornaments.update_box, holds_pose, pose_matrix, box_pose, box_remap,
    record_in.
  cbn [chaosPosition targetPosition targetOrientation baselineScale].
  heap_reads Hps; cbn [pose_position pose_rotation pose_scale];
    split_all; reflexivity.
Qed.

Lemma update_light_pose progress time tmp data i d h mesh :
  Three.position d <> Three.scale d ->
  let P := light_pose progress time (record_in h data) i in
  let '(d', h', mesh') :=
    Ornaments.update_light progress time tmp data i (d, h, mesh) in
  holds_pose P d' h' /\ mesh' = Three.setMatrixAt i (pose_matrix P) mesh.
Proof.
  intros Hps. cbv zeta.
  unfold Ornaments.update_light, holds_pose, pose_matrix, light_pose,
    light_remap, record_in.
  cbn [chaosPosition targetPosition targetOrientation baselineScale].
  heap_reads Hps; cbn [pose_position pose_rotation pose_scale];
    split_all; reflexivity.
Qed.

(** ** Filling the instance matrices *)

Section PoseLoop.

Variable tmp : loc.
Variable f : OrnamentData -> nat -> Ornaments.Ctx -> Ornaments.Ctx.
Variable G : ParticleRecord -> nat -> Three.Matrix4.

Hypothesis f_footprint :
  forall data i d h mesh,
    let '(d', h', _) := f data i (d, h, mesh) in scratch_only tmp d h d' h'.

Hypothesis f_writes :
  forall data i d h mesh,
    Three.position d <> Three.scale d ->
    let '(_, _, mesh') := f data i (d, h, mesh) in
    mesh' = Three.setMatrixAt i (G (record_in h data) i) mesh.

(** A loop of such callbacks from index [i0] fills the instances
    [i0, i0 + 1, ...] from the records of the table, in order, and leaves
    the others. *)
Lemma forEach_from_fills : forall table i0 d h mesh,
  Three.position d <> Three.scale d ->
  Forall (clear_of_scratch tmp d) table ->
  let '(_, _, mesh') := forEach_from f table i0 (d, h, mesh) in
  Three.count mesh' = Three.count mesh /\
  Three.instanceColor mesh' = Three.instanceColor mesh /\
  Three.instanceColor_needsUpdate mesh' =
    Three.instanceColor_needsUpdate mesh /\
  Three.instanceMatrix_needsUpdate mesh' =
    Three.instanceMatrix_needsUpdate mesh /\
  forall j,
    Three.instanceMatrix mesh' j =
    if Nat.ltb j i0 then Three.instanceMatrix mesh j
    else match nth_error table (j - i0) with
         | Some data =>
             if Nat.ltb j (Three.count mesh) then G (record_in h data) j
             else Three.instanceMatrix mesh j
         | None => Three.instanceMatrix mesh j
         end.
Proof.
  induction table as [|data table IH]; intros i0 d h mesh Hps Hclear.
  - cbn [forEach_from]. split_all; try reflexivity.
    intros j. destruct (Nat.ltb j i0); [ reflexivity | ].
    destruct (j - i0)%nat; reflexivity.
  - cbn [forEach_from].
    pose proof (f_footprint data i0 d h mesh) as Hfoot.
    pose proof (f_writes data i0 d h mesh Hps) as Hw.
    destruct (f data i0 (d, h, mesh)) as [[d1 h1] m1].
    pose proof (Forall_inv_tail Hclear) as Hrest.
    assert (Hps1 : Three.position d1 <> Three.scale d1).
    { destruct Hfoot as (P & _ & S & _). rewrite P, S. exact Hps. }
    assert (Hrest1 : Forall (clear_of_scratch tmp d1) table).
    { eapply Forall_impl; [ | exact Hrest ].
      intros r Hr. eapply clear_of_scratch_record; eassumption. }
    specialize (IH (S i0) d1 h1 m1 Hps1 Hrest1).
    destruct (forEach_from f table (S i0) (d1, h1, m1)) as [[d2 h2] m2].
    destruct IH as (Hc & Hcol & Hcf & Hmf & Hm).
    subst m1. cbn [Three.setMatrixAt Three.count Three.instanceColor
                   Three.instanceColor_needsUpdate
                   Three.instanceMatrix_needsUpdate Three.instanceMatrix]
      in Hc, Hcol, Hcf, Hmf, Hm.
    split_all; try assumption.
    intros j. rewrite Hm.
    destruct (Nat.ltb_spec j (S i0)) as [Hlt | Hge].
    + destruct (Nat.ltb_spec j i0) as [Hlt0 | Hge0].
      * destruct (Nat.ltb i0 (Three.count mesh));
          [ apply upd_other; lia | reflexivity ].
      * assert (j = i0) by lia. subst j.
        replace (i0 - i0)%nat with 0%nat by lia. cbn [nth_error].
        destruct (Nat.ltb i0 (Three.count mesh));
          [ apply upd_same | reflexivity ].
    + destruct (Nat.ltb_spec j i0) as [Hlt0 | _]; [ lia | ].
      replace (j - i0)%nat with (S (j - S i0)) by lia. cbn [nth_error].
      assert (Hkeep : (if Nat.ltb i0 (Three.count mesh)
                       then upd (Three.instanceMatrix mesh) i0
                              (G (record_in h data) i0)
                       else Three.instanceMatrix mesh) j =
                      Three.instanceMatrix mesh j).
      { destruct (Nat.ltb i0 (Three.count mesh));
          [ apply upd_other; lia | reflexivity ]. }
      destruct (nth_error table (j - S i0)) as [r|] eqn:En.
      * destruct (Nat.ltb j (Three.count mesh)); [ | exact Hkeep ].
        assert (Hr : clear_of_scratch tmp d r).
        { rewrite Forall_forall in Hrest. apply Hrest.
          eapply nth_error_In. exact En. }
        destruct (clear_of_scratch_record _ _ _ _ _ _ Hfoot Hr) as [-> _].
        reflexivity.
      * exact Hkeep.
Qed.

(** One population of the frame: a null ref is skipped, a mounted mesh is
    filled from the table and flagged. *)
Lemma update_population_fills table d h mesh :
  Three.position d <> Three.scale d ->
  Forall (clear_of_scratch tmp d) table ->
  let '(_, _, mesh') := Ornaments.update_population f table d h mesh in
  population_filled G h table mesh mesh'.
Proof.
  intros Hps Hclear. unfold Ornaments.update_population, forEach.
  destruct mesh as [m|]; [ | exact I ].
  generalize (forEach_from_fills table 0%nat d h m Hps Hclear).
  destruct (forEach_from f table 0%nat (d, h, m)) as [[d1 h1] m1].
  intros (Hc & Hcol & Hcf & _ & Hm).
  unfold population_filled, mesh_filled.
  cbn [Three.mark_instanceMatrix Three.count Three.instanceColor
       Three.instanceColor_needsUpdate Three.instanceMatrix_needsUpdate
       Three.instanceMatrix].
  split_all; try assumption; try reflexivity.
  intros j. rewrite Hm. cbn [Nat.ltb Nat.leb].
  rewrite Nat.sub_0_r. reflexivity.
Qed.

End PoseLoop.

Lemma population_filled_records G h h' table mesh mesh' :
  (forall r, In r table -> record_in h' r = record_in h r) ->
  population_filled G h' table mesh mesh' ->
  population_filled G h table mesh mesh'.
Proof.
  intros Hrec. unfold population_filled, mesh_filled.
  destruct mesh as [m|]; destruct mesh' as [m'|]; try exact (fun H => H).
  intros ((Hc & Hcol & Hcf & Hm) & Hflag). split_all; try assumption.
  intros j. rewrite Hm.
  destruct (nth_error table j) as [r|] eqn:En; [ | reflexivity ].
  rewrite (Hrec r (nth_error_In _ _ En)). reflexivity.
Qed.

Lemma update_ball_writes isForming progress time tmp data i d h mesh :
  Three.position d <> Three.scale d ->
  let '(_, _, mesh') :=
    Ornaments.update_ball isForming progress time tmp data i (d, h, mesh) in
  mesh' = Three.setMatrixAt i
            (pose_matrix (ball_pose isForming progress time (record_in h data) i))
            mesh.
Proof.
  intros Hps.
  generalize (update_ball_pose isForming progress time tmp data i d h mesh Hps).
  destruct (Ornaments.update_ball _ _ _ _ _ _ _) as [[d1 h1] m1].
  intros [_ H]. exact H.
Qed.

Lemma update_box_writes progress time tmp data i d h mesh :
  Three.position d <> Three.scale d ->
  let '(_, _, mesh') :=
    Ornaments.update_box progress time tmp data i (d, h, mesh) in
  mesh' = Three.setMatrixAt i
            (pose_matrix (box_pose progress time (record_in h data) i)) mesh.
Proof.
  intros Hps.
  generalize (update_box_pose progress time tmp data i d h mesh Hps).
  destruct (Ornaments.update_box _ _ _ _ _ _) as [[d1 h1] m1].
  intros [_ H]. exact H.
Qed.

Lemma update_light_writes progress time tmp data i d h mesh :
  Three.position d <> Three.scale d ->
  let '(_, _, mesh') :=
    Ornaments.update_light progress time tmp data i (d, h, mesh) in
  mesh' = Three.setMatrixAt i
            (pose_matrix (light_pose progress time (record_in h data) i)) mesh.
Proof.
  intros Hps.
  generalize (update_light_pose progress time tmp data i d h mesh Hps).
  destruct (Ornaments.update_light _ _ _ _ _ _) as [[d1 h1] m1].
  intros [_ H]. exact H.
Qed.

Lemma separated_parts s :
  separated s ->
  Forall (clear_of_scratch (Ornaments.tempVec3 s) (Ornaments.dummy s))
         (Ornaments.balls s) /\
  Forall (clear_of_scratch (Ornaments.tempVec3 s) (Ornaments.dummy s))
         (Ornaments.boxes s) /\
  Forall (clear_of_scratch (Ornaments.tempVec3 s) (Ornaments.dummy s))
         (Ornaments.lights s).
Proof.
  unfold separated, tables. intros H.
  apply Forall_app in H. destruct H as [Hb H].
  apply Forall_app in H. destruct H as [Hx Hl]. auto.
Qed.

Lemma scratch_only_clear tmp d h d' h' table :
  scratch_only tmp d h d' h' ->
  Forall (clear_of_scratch tmp d) table ->
  Forall (clear_of_scratch tmp d') table /\
  forall r, In r table -> record_in h' r = record_in h r.
Proof.
  intros Hfoot Hclear. split.
  - eapply Forall_impl; [ | exact Hclear ].
    intros r Hr. eapply clear_of_scratch_record; eassumption.
  - intros r Hr. rewrite Forall_forall in Hclear.
    eapply clear_of_scratch_record; [ exact Hfoot | apply Hclear; exact Hr ].
Qed.

(** The scratch object of a mounted component has its position and its
    scale in two different vectors. *)
Lemma mount_scratch_distinct bm xm lm w :
  let s := fst (Ornaments.mount bm xm lm w) in
  Three.position (Ornaments.dummy s) <> Three.scale (Ornaments.dummy s).
Proof.
  unfold Ornaments.mount, bind.
  destruct (Three.new_Object3D w) as [d w1] eqn:E0.
  destruct (new_Vector3 0 0 0 w1) as [tmp w2].
  destruct (Ornaments.generateOrnamentData Ornaments.BALL_COUNT Ornaments.ball w2)
    as [bs w3].
  destruct (Ornaments.generateOrnamentData Ornaments.BOX_COUNT Ornaments.box w3)
    as [xs w4].
  destruct (Ornaments.generateOrnamentData Ornaments.LIGHT_COUNT Ornaments.light w4)
    as [ls w5].
  cbn [fst Ornaments.dummy].
  destruct (new_Object3D_spec _ _ _ E0) as (Hp & Hs & _). lia.
Qed.

(** X7.  A frame recomputes every instance from scratch.  In a component
    whose tables share nothing with the scratch objects (as after mounting),
    a frame leaves in each mounted mesh, at every instance that has a record,
    the matrix composed from the pose of that record - a function of the
    static record, the new progress, the clock and the instance index alone,
    not of earlier frames - flags the matrix attribute, and touches neither
    the other instances nor the colours; a null mesh ref stays null. *)
Theorem frame_fills_instance_matrices :
  forall mode time delta s,
    separated s ->
    Three.position (Ornaments.dummy s) <> Three.scale (Ornaments.dummy s) ->
    let s' := Ornaments.useFrame mode time delta s in
    let p := Ornaments.currentProgress s' in
    let isForming := TreeState_eqb mode FORMED in
    population_filled
      (fun r i => pose_matrix (ball_pose isForming p time r i))
      (Ornaments.store s) (Ornaments.balls s)
      (Ornaments.ballMesh s) (Ornaments.ballMesh s') /\
    population_filled
      (fun r i => pose_matrix (box_pose p time r i))
      (Ornaments.store s) (Ornaments.boxes s)
      (Ornaments.boxMesh s) (Ornaments.boxMesh s') /\
    population_filled
      (fun r i => pose_matrix (light_pose p time r i))
      (Ornaments.store s) (Ornaments.lights s)
      (Ornaments.lightMesh s) (Ornaments.lightMesh s').
Proof.
  intros mode time delta s Hsep Hps.
  destruct (separated_parts s Hsep) as (Cb & Cx & Cl).
  cbv zeta. rewrite ornaments_useFrame_progress.
  unfold Ornaments.useFrame, tTarget.
  set (isForming := TreeState_eqb mode FORMED).
  set (p := MathUtils.lerp _ _ _).
  set (tmp := Ornaments.tempVec3 s) in *.
  (* balls *)
  pose proof (update_population_fills tmp
                (Ornaments.update_ball isForming p time tmp)
                (fun r i => pose_matrix (ball_pose isForming p time r i))
                (update_ball_footprint isForming p time tmp)
                (update_ball_writes isForming p time tmp)
                (Ornaments.balls s) (Ornaments.dummy s) (Ornaments.store s)
                (Ornaments.ballMesh s) Hps Cb) as Fb.
  pose proof (update_population_footprint tmp
                (Ornaments.update_ball isForming p time tmp)
                (Ornaments.balls s) (Ornaments.dummy s) (Ornaments.store s)
                (Ornaments.ballMesh s)
                (update_ball_footprint isForming p time tmp)) as H1.
  destruct (Ornaments.update_population _ (Ornaments.balls s) _ _ _)
    as [[d1 h1] m1].
  assert (Hps1 : Three.position d1 <> Three.scale d1).
  { destruct H1 as (P & _ & S & _). rewrite P, S. exact Hps. }
  destruct (scratch_only_clear _ _ _ _ _ _ H1 Cx) as [Cx1 Rx1].
  destruct (scratch_only_clear _ _ _ _ _ _ H1 Cl) as [Cl1 Rl1].
  (* boxes *)
  pose proof (update_population_fills tmp
                (Ornaments.update_box p time tmp)
                (fun r i => pose_matrix (box_pose p time r i))
                (update_box_footprint p time tmp)
                (update_box_writes p time tmp)
                (Ornaments.boxes s) d1 h1 (Ornaments.boxMesh s) Hps1 Cx1)
    as Fx.
  pose proof (update_population_footprint tmp
                (Ornaments.update_box p time tmp)
                (Ornaments.boxes s) d1 h1 (Ornaments.boxMesh s)
                (update_box_footprint p time tmp)) as H2.
  destruct (Ornaments.update_population _ (Ornaments.boxes s) _ _ _)
    as [[d2 h2] m2].
  assert (Hps2 : Three.position d2 <> Three.scale d2).
  { destruct H2 as (P & _ & S & _). rewrite P, S. exact Hps1. }
  destruct (scratch_only_clear _ _ _ _ _ _ H2 Cl1) as [Cl2 Rl2].
  (* lights *)
  pose proof (update_population_fills tmp
                (Ornaments.update_light p time tmp)
                (fun r i => pose_matrix (light_pose p time r i))
                (update_light_footprint p time tmp)
                (update_light_writes p time tmp)
                (Ornaments.lights s) d2 h2 (Ornaments.lightMesh s) Hps2 Cl2)
    as Fl.
  destruct (Ornaments.update_population _ (Ornaments.lights s) _ _ _)
    as [[d3 h3] m3].
  cbn [Ornaments.ballMesh Ornaments.boxMesh Ornaments.lightMesh].
  split_all.
  - exact Fb.
  - eapply population_filled_records; [ exact Rx1 | exact Fx ].
  - eapply population_filled_records; [ | exact Fl ].
    intros r Hr. rewrite (Rl2 r Hr). apply Rl1. exact Hr.
Qed.

Lemma frame_fills_instance_matrices_witness :
  population_filled
    (fun r i =>
       pose_matrix
         (light_pose
            (Ornaments.currentProgress
               (Ornaments.useFrame FORMED 2 (1 / 60) (sample_ornaments 1.5)))
            2 r i))
    (Ornaments.store (sample_ornaments 1.5))
    (Ornaments.lights (sample_ornaments 1.5))
    (Ornaments.lightMesh (sample_ornaments 1.5))
    (Ornaments.lightMesh
       (Ornaments.useFrame FORMED 2 (1 / 60) (sample_ornaments 1.5))).
Proof.
  apply (frame_fills_instance_matrices FORMED 2 (1 / 60)
           (sample_ornaments 1.5)).
  - apply sample_ornaments_separated.
  - simpl. discriminate.
Defined.

(** ** Per-class behaviour of the callbacks *)

Lemma lerp3_start (a b : Vec3) : lerp3 a b 0 = a.
Proof. destruct a, b. unfold lerp3; simpl. f_equal; ring. Qed.

Lemma lerp3_end (a b : Vec3) : lerp3 a b 1 = b.
Proof. destruct a, b. unfold lerp3; simpl. f_equal; ring. Qed.

Lemma box_remap_waits (p : R) : p <= 0.1 -> box_remap p = 0.
Proof.
  intros Hp. unfold box_remap.
  destruct (clamp_unit_cases ((p - 0.1) * 1.1)) as [[? ->]|[[? ->]|[? ->]]];
    lra.
Qed.

Lemma light_remap_arrives (p : R) : 5 / 6 <= p -> light_remap p = 1.
Proof.
  intros Hp. unfold light_remap.
  destruct (clamp_unit_cases (p * 1.2)) as [[? ->]|[[? ->]|[? ->]]]; lra.
Qed.

Lemma box_remap_behind (p : R) : 0 <= p <= 1 -> box_remap p <= p.
Proof.
  intros Hp. unfold box_remap.
  destruct (clamp_unit_cases ((p - 0.1) * 1.1)) as [[? ->]|[[? ->]|[? ->]]];
    lra.
Qed.

(** X8.  The floaty noise of a ball is small and dies out.  For a progress
    up to 1 the ball is placed within 0.05 (1 - progress) of the
    interpolated point in x and in y, exactly on it in z, and exactly on it
    in all three once the progress is 0.99 or more. *)
Theorem ball_noise_is_bounded :
  forall isForming p time tmp data i d h mesh,
    Three.position d <> Three.scale d -> p <= 1 ->
    let base :=
      lerp3 (vectors h (chaosPos data)) (vectors h (targetPos data)) p in
    let '(d', h', _) :=
      Ornaments.update_ball isForming p time tmp data i (d, h, mesh) in
    let pos := vectors h' (Three.position d') in
    Rabs (vx pos - vx base) <= 0.05 * (1 - p) /\
    Rabs (vy pos - vy base) <= 0.05 * (1 - p) /\
    vz pos = vz base /\
    (0.99 <= p -> pos = base).
Proof.
  intros isForming p time tmp data i d h mesh Hps Hp.
  generalize (update_ball_pose isForming p time tmp data i d h mesh Hps).
  destruct (Ornaments.update_ball _ _ _ _ _ _ _) as [[d1 h1] m1].
  cbv zeta. intros [(Hpos & _) _]. rewrite Hpos.
  unfold ball_pose, record_in.
  cbn [pose_position chaosPosition targetPosition].
  set (base := lerp3 _ _ p).
  assert (Hb : forall c, -1 <= c <= 1 ->
                 Rabs (vx base + c * 0.05 * (1 - p) - vx base) <= 0.05 * (1 - p)
                 /\ Rabs (vy base + c * 0.05 * (1 - p) - vy base)
                    <= 0.05 * (1 - p)).
  { intros c Hc. split; apply Rabs_le; nra. }
  destruct (Rltb p 0.99) eqn:E.
  - cbn [vx vy vz]. split_all.
    + apply (Hb (cos (time + INR i))). apply COS_bound.
    + apply (Hb (sin (time + INR i))). apply SIN_bound.
    + reflexivity.
    + intros H99. apply Rltb_true in E. lra.
  - split_all; try reflexivity.
    + replace (vx base - vx base) with 0 by ring. rewrite Rabs_R0. lra.
    + replace (vy base - vy base) with 0 by ring. rewrite Rabs_R0. lra.
Qed.

Lemma ball_noise_is_bounded_witness :
  let '(d', h', _) :=
    Ornaments.update_ball true (1 / 2) 3 2%nat
      (mkOrnamentData 3%nat 4%nat 1%nat 0%nat 0.25 1.5) 0%nat
      (Ornaments.dummy (sample_ornaments 1.5), sample_heap, sample_mesh) in
  Rabs (vx (vectors h' (Three.position d')) -
        vx (lerp3 (vectors sample_heap 3%nat) (vectors sample_heap 4%nat)
                  (1 / 2)))
  <= 0.05 * (1 - 1 / 2).
Proof.
  generalize (ball_noise_is_bounded true (1 / 2) 3 2%nat
                (mkOrnamentData 3%nat 4%nat 1%nat 0%nat 0.25 1.5) 0%nat
                (Ornaments.dummy (sample_ornaments 1.5)) sample_heap
                sample_mesh
                ltac:(simpl; discriminate) ltac:(lra)).
  destruct (Ornaments.update_ball _ _ _ _ _ _ _) as [[d1 h1] m1].
  intros (H & _). exact H.
Defined.

(** X9.  The scale of a ball is its baseline scale, except on the way to
    chaos below progress 0.1, where it is the baseline times the progress.
    In particular a ball keeps its full scale all through assembly: the
    scale-up written first in the callback is always overwritten. *)
Theorem ball_scale_rule :
  forall isForming p time tmp data i d h mesh,
    Three.position d <> Three.scale d ->
    let '(d', h', _) :=
      Ornaments.update_ball isForming p time tmp data i (d, h, mesh) in
    let sc := vectors h' (Three.scale d') in
    (isForming = true -> sc = mkVec3 (scale data) (scale data) (scale data)) /\
    (0.1 <= p -> sc = mkVec3 (scale data) (scale data) (scale data)) /\
    (isForming = false -> p < 0.1 ->
     sc = mkVec3 (scale data * p) (scale data * p) (scale data * p)).
Proof.
  intros isForming p time tmp data i d h mesh Hps.
  generalize (update_ball_pose isForming p time tmp data i d h mesh Hps).
  destruct (Ornaments.update_ball _ _ _ _ _ _ _) as [[d1 h1] m1].
  cbv zeta. intros [(_ & _ & Hsc & _) _]. rewrite Hsc.
  unfold ball_pose, record_in. cbn [pose_scale baselineScale].
  split_all.
  - intros ->. reflexivity.
  - intros H. apply Rltb_false in H. rewrite H, andb_false_r. reflexivity.
  - intros -> H. apply Rltb_true in H. rewrite H. reflexivity.
Qed.

Lemma ball_scale_rule_witness :
  let '(d', h', _) :=
    Ornaments.update_ball true (1 / 20) 3 2%nat
      (mkOrnamentData 3%nat 4%nat 1%nat 0%nat 0.25 1.5) 0%nat
      (Ornaments.dummy (sample_ornaments 1.5), sample_heap, sample_mesh) in
  vectors h' (Three.scale d') = mkVec3 0.25 0.25 0.25.
Proof.
  generalize (ball_scale_rule true (1 / 20) 3 2%nat
                (mkOrnamentData 3%nat 4%nat 1%nat 0%nat 0.25 1.5) 0%nat
                (Ornaments.dummy (sample_ornaments 1.5)) sample_heap
                sample_mesh ltac:(simpl; discriminate)).
  destruct (Ornaments.update_ball _ _ _ _ _ _ _) as [[d1 h1] m1].
  intros (H & _). apply H. reflexivity.
Defined.

(** X10.  A ball settles on its target.  At progress 1 the callback puts
    the ball exactly at its target position, in its target rotation and at
    its baseline scale, whatever the clock, the mode and the index are. *)
Theorem ball_settles_on_target :
  forall isForming time tmp data i d h mesh,
    Three.position d <> Three.scale d ->
    let '(d', h', _) :=
      Ornaments.update_ball isForming 1 time tmp data i (d, h, mesh) in
    vectors h' (Three.position d') = vectors h (targetPos data) /\
    eulers h' (Three.rotation d') = eulers h (targetRot data) /\
    vectors h' (Three.scale d') =
      mkVec3 (scale data) (scale data) (scale data) /\
    Three.matrix d' =
      Three.Matrix4_compose (vectors h (targetPos data))
        (Three.Quaternion_setFromEuler (eulers h (targetRot data)))
        (mkVec3 (scale data) (scale data) (scale data)).
Proof.
  intros isForming time tmp data i d h mesh Hps.
  generalize (update_ball_pose isForming 1 time tmp data i d h mesh Hps).
  destruct (Ornaments.update_ball _ _ _ _ _ _ _) as [[d1 h1] m1].
  cbv zeta. intros [(Hpos & Hrot & Hsc & Hm) _].
  assert (HP : ball_pose isForming 1 time (record_in h data) i =
               mkPose (vectors h (targetPos data)) (eulers h (targetRot data))
                      (mkVec3 (scale data) (scale data) (scale data))).
  { unfold ball_pose, record_in.
    cbn [chaosPosition targetPosition targetOrientation baselineScale].
    assert (E99 : Rltb 1 0.99 = false) by (apply Rltb_false; lra).
    assert (E01 : Rltb 1 0.1 = false) by (apply Rltb_false; lra).
    rewrite E99, E01, andb_false_r, lerp3_end.
    f_equal. destruct (eulers h (targetRot data)) as [x y z].
    cbn [vx vy vz]. f_equal; ring. }
  rewrite HP in Hpos, Hrot, Hsc, Hm.
  split_all; assumption.
Qed.

Lemma ball_settles_on_target_witness :
  let '(d', h', _) :=
    Ornaments.update_ball false 1 42 2%nat
      (mkOrnamentData 3%nat 4%nat 1%nat 0%nat 0.25 1.5) 0%nat
      (Ornaments.dummy (sample_ornaments 1.5), sample_heap, sample_mesh) in
  vectors h' (Three.position d') = vectors sample_heap 4%nat.
Proof.
  generalize (ball_settles_on_target false 42 2%nat
                (mkOrnamentData 3%nat 4%nat 1%nat 0%nat 0.25 1.5) 0%nat
                (Ornaments.dummy (sample_ornaments 1.5)) sample_heap
                sample_mesh ltac:(simpl; discriminate)).
  destruct (Ornaments.update_ball _ _ _ _ _ _ _) as [[d1 h1] m1].
  intros (H & _). exact H.
Defined.

(** X11.  Arrival is staggered.  At every shared progress in [0, 1] a box
    stands on the segment from its chaos to its target position at a
    fraction no larger than the progress, and a light at a fraction no
    smaller; a box has not left its chaos position while the progress is at
    most 0.1, and a light is on its target from progress 5/6 on. *)
Theorem arrival_is_staggered :
  forall p time tmp data i d h mesh,
    Three.position d <> Three.scale d -> 0 <= p <= 1 ->
    let chaos := vectors h (chaosPos data) in
    let target := vectors h (targetPos data) in
    let '(db, hb, _) := Ornaments.update_box p time tmp data i (d, h, mesh) in
    let '(dl, hl, _) := Ornaments.update_light p time tmp data i (d, h, mesh) in
    exists qb ql,
      0 <= qb <= p /\ p <= ql <= 1 /\
      vectors hb (Three.position db) = lerp3 chaos target qb /\
      vectors hl (Three.position dl) = lerp3 chaos target ql /\
      (p <= 0.1 -> vectors hb (Three.position db) = chaos) /\
      (5 / 6 <= p -> vectors hl (Three.position dl) = target).
Proof.
  intros p time tmp data i d h mesh Hps Hp.
  generalize (update_box_pose p time tmp data i d h mesh Hps).
  generalize (update_light_pose p time tmp data i d h mesh Hps).
  destruct (Ornaments.update_box _ _ _ _ _ _) as [[db hb] mb].
  destruct (Ornaments.update_light _ _ _ _ _ _) as [[dl hl] ml].
  cbv zeta. intros [(Hl & _) _] [(Hb & _) _].
  unfold box_pose, record_in in Hb. unfold light_pose, record_in in Hl.
  cbn [pose_position chaosPosition targetPosition] in Hb, Hl.
  exists (box_remap p), (light_remap p).
  pose proof (box_remap_range p). pose proof (box_remap_behind p Hp).
  pose proof (clamp_unit_range (p * 1.2)) as Hlr. fold (light_remap p) in Hlr.
  assert (p <= light_remap p).
  { destruct (Req_dec p 1) as [-> | Hne];
      [ rewrite light_remap_one; lra | apply light_remap_early; lra ]. }
  split_all; try lra; try assumption.
  - intros H01. rewrite Hb, (box_remap_waits p H01). apply lerp3_start.
  - intros H56. rewrite Hl, (light_remap_arrives p H56). apply lerp3_end.
Qed.

Lemma arrival_is_staggered_witness :
  let '(db, hb, _) :=
    Ornaments.update_box (1 / 20) 3 2%nat
      (mkOrnamentData 5%nat 6%nat 2%nat 1%nat 0.35 0.8) 0%nat
      (Ornaments.dummy (sample_ornaments 1.5), sample_heap, sample_mesh) in
  vectors hb (Three.position db) = vectors sample_heap 5%nat.
Proof.
  generalize (arrival_is_staggered (1 / 20) 3 2%nat
                (mkOrnamentData 5%nat 6%nat 2%nat 1%nat 0.35 0.8) 0%nat
                (Ornaments.dummy (sample_ornaments 1.5)) sample_heap
                sample_mesh ltac:(simpl; discriminate) ltac:(lra)).
  destruct (Ornaments.update_box _ _ _ _ _ _) as [[db hb] mb].
  destruct (Ornaments.update_light _ _ _ _ _ _) as [[dl hl] ml].
  intros (qb & ql & _ & _ & _ & _ & H & _). apply H. lra.
Defined.

Lemma quaternion_of_no_rotation :
  Three.Quaternion_setFromEuler (mkVec3 0 0 0) = Three.mkQuaternion 0 0 0 1.
Proof.
  unfold Three.Quaternion_setFromEuler. cbn [vx vy vz].
  replace (0 / 2) with 0 by lra. rewrite cos_0, sin_0. f_equal; ring.
Qed.

(** X12.  A light twinkles in place.  Its scale is its baseline scale times
    a factor between 0.4 and 1.2, at every progress; it is never rotated, so
    its matrix is that uniform scale on the diagonal and its position in
    the last column. *)
Theorem light_twinkles_in_place :
  forall p time tmp data i d h mesh,
    Three.position d <> Three.scale d -> 0 <= scale data ->
    let '(d', h', _) :=
      Ornaments.update_light p time tmp data i (d, h, mesh) in
    exists sc,
      0.4 * scale data <= sc <= 1.2 * scale data /\
      vectors h' (Three.scale d') = mkVec3 sc sc sc /\
      eulers h' (Three.rotation d') = mkVec3 0 0 0 /\
      Three.matrix d' =
        [ sc; 0; 0; 0;  0; sc; 0; 0;  0; 0; sc; 0;
          vx (vectors h' (Three.position d'));
          vy (vectors h' (Three.position d'));
          vz (vectors h' (Three.position d')); 1 ].
Proof.
  intros p time tmp data i d h mesh Hps Hs.
  generalize (update_light_pose p time tmp data i d h mesh Hps).
  destruct (Ornaments.update_light _ _ _ _ _ _) as [[d1 h1] m1].
  cbv zeta. intros [(Hpos & Hrot & Hsc & Hm) _].
  unfold light_pose, record_in in Hpos, Hrot, Hsc, Hm.
  unfold pose_matrix in Hm.
  cbn [pose_position pose_rotation pose_scale baselineScale] in *.
  exists (scale data * (0.8 + 0.4 * sin (time * 5 + INR i))).
  pose proof (SIN_bound (time * 5 + INR i)) as Hb.
  split_all; try assumption; try nra.
  rewrite Hm, Hpos, quaternion_of_no_rotation.
  unfold Three.Matrix4_compose. cbn [Three.qx Three.qy Three.qz Three.qw vx vy vz].
  repeat (f_equal; try ring).
Qed.

Lemma light_twinkles_in_place_witness :
  let '(d', h', _) :=
    Ornaments.update_light (1 / 2) 3 2%nat
      (mkOrnamentData 7%nat 8%nat 3%nat 2%nat 0.1 2.0) 0%nat
      (Ornaments.dummy (sample_ornaments 1.5), sample_heap, sample_mesh) in
  eulers h' (Three.rotation d') = mkVec3 0 0 0.
Proof.
  generalize (light_twinkles_in_place (1 / 2) 3 2%nat
                (mkOrnamentData 7%nat 8%nat 3%nat 2%nat 0.1 2.0) 0%nat
                (Ornaments.dummy (sample_ornaments 1.5)) sample_heap
                sample_mesh ltac:(simpl; discriminate) ltac:(simpl; lra)).
  destruct (Ornaments.update_light _ _ _ _ _ _) as [[d1 h1] m1].
  intros (sc & _ & _ & H & _). exact H.
Defined.

(** ** The colour layout effect *)

(** The loop of [setColorAt] calls from index [i0]: the colours before
    [i0] are kept, those from [i0] on are taken from the table. *)
Lemma forEach_from_colors h : forall table i0 mesh,
  let mesh' :=
    forEach_from (fun data i m0 =>
                    Three.setColorAt i (colors h (color data)) m0)
                 table i0 mesh in
  Three.count mesh' = Three.count mesh /\
  Three.instanceMatrix mesh' = Three.instanceMatrix mesh /\
  Three.instanceMatrix_needsUpdate mesh' =
    Three.instanceMatrix_needsUpdate mesh /\
  Three.instanceColor_needsUpdate mesh' =
    Three.instanceColor_needsUpdate mesh /\
  (table = [] -> Three.instanceColor mesh' = Three.instanceColor mesh) /\
  (table <> [] ->
   exists arr,
     Three.instanceColor mesh' = Some arr /\
     (forall j, (j < i0)%nat -> arr j = color_array mesh j) /\
     forall j data,
       nth_error table (j - i0) = Some data -> (i0 <= j)%nat ->
       (j < Three.count mesh)%nat -> arr j = colors h (color data)).
Proof.
  induction table as [|data table IH]; intros i0 mesh; cbv zeta.
  - cbn [forEach_from]. split_all; try reflexivity. congruence.
  - cbn [forEach_from].
    specialize (IH (S i0) (Three.setColorAt i0 (colors h (color data)) mesh)).
    cbv zeta in IH.
    destruct IH as (Hc & Hm & Hmf & Hcf & Hnil & Hcons).
    cbn [Three.setColorAt Three.count Three.instanceMatrix
         Three.instanceMatrix_needsUpdate Three.instanceColor_needsUpdate
         Three.instanceColor] in Hc, Hm, Hmf, Hcf, Hnil.
    fold (color_array mesh) in Hnil.
    split_all; try assumption; try discriminate.
    intros _.
    assert (Hfirst :
              forall j, (j <= i0)%nat ->
                (if Nat.ltb i0 (Three.count mesh)
                 then upd (color_array mesh) i0 (colors h (color data))
                 else color_array mesh) j =
                if Nat.eqb j i0 && Nat.ltb i0 (Three.count mesh)
                then colors h (color data) else color_array mesh j).
    { intros j Hj. destruct (Nat.ltb i0 (Three.count mesh)).
      - unfold upd. destruct (Nat.eqb j i0); reflexivity.
      - rewrite andb_false_r. reflexivity. }
    destruct table as [|data' table].
    + rewrite (Hnil eq_refl). eexists. split; [ reflexivity | ]. split.
      * intros j Hj. rewrite Hfirst by lia.
        destruct (Nat.eqb_spec j i0); [ lia | reflexivity ].
      * intros j r Hn Hj Hcount.
        destruct (j - i0)%nat as [|k] eqn:Ek;
          [ | destruct k; discriminate Hn ].
        cbn [nth_error] in Hn. injection Hn as <-.
        assert (j = i0) by lia. subst j. rewrite Hfirst by lia.
        rewrite Nat.eqb_refl.
        destruct (Nat.ltb_spec i0 (Three.count mesh)); [ reflexivity | lia ].
    + destruct (Hcons ltac:(discriminate)) as (arr & Harr & Hkeep & Hread).
      unfold color_array in Hkeep.
      cbn [Three.setColorAt Three.instanceColor Three.count] in Hkeep, Hread.
      fold (color_array mesh) in Hkeep.
      exists arr. split; [ exact Harr | ]. split.
      * intros j Hj. rewrite Hkeep, Hfirst by lia.
        destruct (Nat.eqb_spec j i0); [ lia | reflexivity ].
      * intros j r Hn Hj Hcount.
        destruct (Nat.eq_dec j i0) as [-> | Hne].
        -- replace (i0 - i0)%nat with 0%nat in Hn by lia.
           cbn [nth_error] in Hn. injection Hn as <-.
           rewrite Hkeep, Hfirst by lia. rewrite Nat.eqb_refl.
           destruct (Nat.ltb_spec i0 (Three.count mesh));
             [ reflexivity | lia ].
        -- apply Hread; try lia.
           replace (j - i0)%nat with (S (j - S i0)) in Hn by lia.
           exact Hn.
Qed.

(** One population of the layout effect: when it throws, and what it does
    when it does not. *)
Lemma set_colors_spec h table mesh :
  (Ornaments.set_colors h table mesh = None <-> colors_throw table mesh) /\
  (forall mesh', Ornaments.set_colors h table mesh = Some mesh' ->
                 population_colored h table mesh mesh').
Proof.
  unfold Ornaments.set_colors, colors_throw, population_colored, forEach.
  destruct mesh as [m|].
  - pose proof (forEach_from_colors h table 0%nat m) as H. cbv zeta in H.
    destruct H as (Hc & Hm & Hmf & Hcf & Hnil & Hcons).
    destruct table as [|data table].
    + rewrite (Hnil eq_refl).
      destruct (Three.instanceColor m) as [a|] eqn:Ea.
      * split; [ split; [ discriminate | intros [_ H]; discriminate ] | ].
        intros mesh' E. injection E as <-.
        cbn [forEach_from]. unfold mesh_colored.
        cbn [Three.mark_instanceColor Three.count Three.instanceMatrix
             Three.instanceMatrix_needsUpdate Three.instanceColor_needsUpdate
             Three.instanceColor].
        split_all; try reflexivity.
        exists a. split; [ exact Ea | ].
        intros j r Hn. destruct j; discriminate Hn.
      * split; [ split; auto | discriminate ].
    + destruct (Hcons ltac:(discriminate)) as (arr & Harr & _ & Hread).
      rewrite Harr.
      split; [ split; [ discriminate | intros [H _]; discriminate ] | ].
      intros mesh' E. injection E as <-. unfold mesh_colored.
      cbn [Three.mark_instanceColor Three.count Three.instanceMatrix
           Three.instanceMatrix_needsUpdate Three.instanceColor_needsUpdate
           Three.instanceColor].
      split_all; try assumption; try reflexivity.
      exists arr. split; [ exact Harr | ].
      intros j r Hn Hj. apply Hread; try lia.
      rewrite Nat.sub_0_r. exact Hn.
  - destruct table as [|data table].
    + split; [ split; [ discriminate | congruence ] | ].
      intros mesh' E. injection E as <-. reflexivity.
    + split; [ split; [ discriminate | reflexivity ] | discriminate ].
Qed.

Lemma useLayoutEffect_none_iff :
  forall s,
    Ornaments.useLayoutEffect s = None <->
    colors_throw (Ornaments.balls s) (Ornaments.ballMesh s) \/
    colors_throw (Ornaments.boxes s) (Ornaments.boxMesh s) \/
    colors_throw (Ornaments.lights s) (Ornaments.lightMesh s).
Proof.
  intros s. unfold Ornaments.useLayoutEffect.
  destruct (set_colors_spec (Ornaments.store s) (Ornaments.balls s)
              (Ornaments.ballMesh s)) as [Tb _].
  destruct (set_colors_spec (Ornaments.store s) (Ornaments.boxes s)
              (Ornaments.boxMesh s)) as [Tx _].
  destruct (set_colors_spec (Ornaments.store s) (Ornaments.lights s)
              (Ornaments.lightMesh s)) as [Tl _].
  destruct (Ornaments.set_colors _ (Ornaments.balls s) _) as [bm|].
  - destruct (Ornaments.set_colors _ (Ornaments.boxes s) _) as [xm|].
    + destruct (Ornaments.set_colors _ (Ornaments.lights s) _) as [lm|].
      * split; [ discriminate | ].
        intros [H | [H | H]];
          [ apply Tb in H | apply Tx in H | apply Tl in H ]; discriminate.
      * split; [ intros _; right; right; apply Tl; reflexivity | reflexivity ].
    + split; [ intros _; right; left; apply Tx; reflexivity | reflexivity ].
  - split; [ intros _; left; apply Tb; reflexivity | reflexivity ].
Qed.

(** X13.  When the colour effect throws.  The layout effect fails exactly
    when, for one of the three populations, there are records but the mesh
    ref is null, or the mesh is mounted with an empty table and no colour
    array yet. *)
Theorem layout_effect_throws_iff :
  forall s,
    Ornaments.useLayoutEffect s = None <->
    colors_throw (Ornaments.balls s) (Ornaments.ballMesh s) \/
    colors_throw (Ornaments.boxes s) (Ornaments.boxMesh s) \/
    colors_throw (Ornaments.lights s) (Ornaments.lightMesh s).
Proof. exact useLayoutEffect_none_iff. Qed.

(** X14.  What the colour effect does.  When it does not throw, the layout
    effect leaves the store, the scratch object, the progress and the tables
    as they are and gives every instance that has a record the colour of
    that record, flagging the colour attribute of each mounted mesh; the
    instance matrices are not touched.  On a component mounted with its
    three meshes it never throws. *)
Theorem layout_effect_colors_instances :
  (forall s s',
     Ornaments.useLayoutEffect s = Some s' ->
     Ornaments.store s' = Ornaments.store s /\
     Ornaments.dummy s' = Ornaments.dummy s /\
     Ornaments.currentProgress s' = Ornaments.currentProgress s /\
     tables s' = tables s /\
     population_colored (Ornaments.store s) (Ornaments.balls s)
       (Ornaments.ballMesh s) (Ornaments.ballMesh s') /\
     population_colored (Ornaments.store s) (Ornaments.boxes s)
       (Ornaments.boxMesh s) (Ornaments.boxMesh s') /\
     population_colored (Ornaments.store s) (Ornaments.lights s)
       (Ornaments.lightMesh s) (Ornaments.lightMesh s')) /\
  (forall bm xm lm w,
     Ornaments.useLayoutEffect
       (fst (Ornaments.mount (Some bm) (Some xm) (Some lm) w)) <> None).
Proof.
  split.
  - intros s s'. unfold Ornaments.useLayoutEffect.
    destruct (set_colors_spec (Ornaments.store s) (Ornaments.balls s)
                (Ornaments.ballMesh s)) as [_ Sb].
    destruct (set_colors_spec (Ornaments.store s) (Ornaments.boxes s)
                (Ornaments.boxMesh s)) as [_ Sx].
    destruct (set_colors_spec (Ornaments.store s) (Ornaments.lights s)
                (Ornaments.lightMesh s)) as [_ Sl].
    destruct (Ornaments.set_colors _ (Ornaments.balls s) _) as [bm|];
      [ | discriminate ].
    destruct (Ornaments.set_colors _ (Ornaments.boxes s) _) as [xm|];
      [ | discriminate ].
    destruct (Ornaments.set_colors _ (Ornaments.lights s) _) as [lm|];
      [ | discriminate ].
    intros E. injection E as <-. unfold tables.
    cbn [Ornaments.store Ornaments.dummy Ornaments.currentProgress
         Ornaments.balls Ornaments.boxes Ornaments.lights
         Ornaments.ballMesh Ornaments.boxMesh Ornaments.lightMesh].
    split_all; try reflexivity; auto.
  - intros bm xm lm w Hnone.
    apply useLayoutEffect_none_iff in Hnone.
    pose proof (mount_counts (Some bm) (Some xm) (Some lm) w) as Hc.
    pose proof (mount_meshes (Some bm) (Some xm) (Some lm) w) as Hm.
    revert Hnone Hc Hm.
    generalize (fst (Ornaments.mount (Some bm) (Some xm) (Some lm) w)).
    intros s Hnone (Lb & Lx & Ll) Hm.
    unfold meshes in Hm. injection Hm as Mb Mx Ml.
    unfold colors_throw in Hnone. rewrite Mb, Mx, Ml in Hnone.
    destruct Hnone as [[H _] | [[H _] | [H _]]];
      [ rewrite H in Lb; discriminate Lb
      | rewrite H in Lx; discriminate Lx
      | rewrite H in Ll; discriminate Ll ].
Qed.

Lemma layout_effect_colors_instances_witness :
  exists s',
    Ornaments.useLayoutEffect (sample_ornaments 1.5) = Some s' /\
    population_colored sample_heap
      [mkOrnamentData 7%nat 8%nat 3%nat 2%nat 0.1 2.0]
      (Some sample_mesh) (Ornaments.lightMesh s').
Proof.
  destruct (Ornaments.useLayoutEffect (sample_ornaments 1.5)) as [s'|] eqn:E.
  - exists s'. split; [ reflexivity | ].
    apply (proj1 layout_effect_colors_instances (sample_ornaments 1.5) s' E).
  - exfalso. apply useLayoutEffect_none_iff in E.
    unfold colors_throw in E. cbn in E.
    destruct E as [[H _] | [[H _] | [H _]]]; discriminate.
Defined.

(** ** Frames and instance colours *)

Lemma setMatrixAt_colors i m mesh :
  mesh_colors (Some (Three.setMatrixAt i m mesh)) = mesh_colors (Some mesh).
Proof. reflexivity. Qed.

Lemma update_ball_mesh isForming progress time tmp data i c :
  mesh_colors
    (Some (snd (Ornaments.update_ball isForming progress time tmp data i c))) =
  mesh_colors (Some (snd c)).
Proof.
  destruct c as [[d h] mesh]. unfold Ornaments.update_ball.
  destruct (Rltb progress 0.99); destruct (negb isForming && Rltb progress 0.1);
    unfold Three.rotation_set, Three.updateMatrix; reflexivity.
Qed.

Lemma update_box_mesh progress time tmp data i c :
  mesh_colors (Some (snd (Ornaments.update_box progress time tmp data i c))) =
  mesh_colors (Some (snd c)).
Proof.
  destruct c as [[d h] mesh]. unfold Ornaments.update_box.
  unfold Three.rotation_set, Three.updateMatrix; reflexivity.
Qed.

Lemma update_light_mesh progress time tmp data i c :
  mesh_colors (Some (snd (Ornaments.update_light progress time tmp data i c))) =
  mesh_colors (Some (snd c)).
Proof.
  destruct c as [[d h] mesh]. unfold Ornaments.update_light.
  unfold Three.rotation_set, Three.updateMatrix; reflexivity.
Qed.

Lemma forEach_from_mesh_colors
  (f : OrnamentData -> nat -> Ornaments.Ctx -> Ornaments.Ctx) :
  (forall data i c,
     mesh_colors (Some (snd (f data i c))) = mesh_colors (Some (snd c))) ->
  forall table i c,
    mesh_colors (Some (snd (forEach_from f table i c))) =
    mesh_colors (Some (snd c)).
Proof.
  intros Hf. induction table as [|data table IH]; intros i c.
  - reflexivity.
  - cbn [forEach_from]. rewrite IH. apply Hf.
Qed.

Lemma update_population_mesh_colors
  (f : OrnamentData -> nat -> Ornaments.Ctx -> Ornaments.Ctx) table d h mesh :
  (forall data i c,
     mesh_colors (Some (snd (f data i c))) = mesh_colors (Some (snd c))) ->
  mesh_colors (snd (Ornaments.update_population f table d h mesh)) =
  mesh_colors mesh.
Proof.
  intros Hf. unfold Ornaments.update_population, forEach.
  destruct mesh as [m|]; [ | reflexivity ].
  pose proof (forEach_from_mesh_colors f Hf table 0%nat (d, h, m)) as H.
  destruct (forEach_from f table 0%nat (d, h, m)) as [[d1 h1] m1].
  exact H.
Qed.

Lemma useFrame_mesh_colors mode time delta s :
  let s' := Ornaments.useFrame mode time delta s in
  mesh_colors (Ornaments.ballMesh s') = mesh_colors (Ornaments.ballMesh s) /\
  mesh_colors (Ornaments.boxMesh s') = mesh_colors (Ornaments.boxMesh s) /\
  mesh_colors (Ornaments.lightMesh s') = mesh_colors (Ornaments.lightMesh s).
Proof.
  unfold Ornaments.useFrame.
  set (isForming := TreeState_eqb mode FORMED).
  set (p := MathUtils.lerp _ _ _).
  pose proof (update_population_mesh_colors
                (Ornaments.update_ball isForming p time (Ornaments.tempVec3 s))
                (Ornaments.balls s) (Ornaments.dummy s) (Ornaments.store s)
                (Ornaments.ballMesh s)
                (update_ball_mesh isForming p time _)) as Hb.
  destruct (Ornaments.update_population _ (Ornaments.balls s) _ _ _)
    as [[d1 h1] m1].
  pose proof (update_population_mesh_colors
                (Ornaments.update_box p time (Ornaments.tempVec3 s))
                (Ornaments.boxes s) d1 h1 (Ornaments.boxMesh s)
                (update_box_mesh p time _)) as Hx.
  destruct (Ornaments.update_population _ (Ornaments.boxes s) _ _ _)
    as [[d2 h2] m2].
  pose proof (update_population_mesh_colors
                (Ornaments.update_light p time (Ornaments.tempVec3 s))
                (Ornaments.lights s) d2 h2 (Ornaments.lightMesh s)
                (update_light_mesh p time _)) as Hl.
  destruct (Ornaments.update_population _ (Ornaments.lights s) _ _ _)
    as [[d3 h3] m3].
  cbn [snd] in Hb, Hx, Hl.
  cbn [Ornaments.ballMesh Ornaments.boxMesh Ornaments.lightMesh].
  auto.
Qed.

(** X15.  Frames leave the colours alone.  After any number of frames each
    mesh ref is mounted exactly if it was before, with the same instance
    count, the same colour array and the same colour flag: the colours set
    once by the layout effect stay, and no instance is added or removed. *)
Theorem frames_keep_instance_colors :
  forall frames s,
    let s' := Ornaments.run_frames frames s in
    mesh_colors (Ornaments.ballMesh s') = mesh_colors (Ornaments.ballMesh s) /\
    mesh_colors (Ornaments.boxMesh s') = mesh_colors (Ornaments.boxMesh s) /\
    mesh_colors (Ornaments.lightMesh s') = mesh_colors (Ornaments.lightMesh s).
Proof.
  unfold Ornaments.run_frames.
  induction frames as [|[[mode time] delta] frames IH]; intros s; cbv zeta.
  - auto.
  - cbn [fold_left].
    destruct (IH (Ornaments.useFrame mode time delta s)) as (Hb & Hx & Hl).
    destruct (useFrame_mesh_colors mode time delta s) as (Hb1 & Hx1 & Hl1).
    split_all; congruence.
Qed.

(** ** Attributes of the generated records *)

Lemma floor_of_scaled_draw (k : R) :
  0 <= k < 1 -> (0 <= Math_floor (k * 4) < 4)%Z.
Proof.
  intros Hk. unfold Math_floor.
  destruct (base_Int_part (k * 4)) as [Hle Hgt].
  split.
  - assert (H : (-1 < Int_part (k * 4))%Z) by (apply lt_IZR; lra). lia.
  - apply lt_IZR. lra.
Qed.

(** A draw in [0, 1) always picks an entry of the palette. *)
Lemma palette_pick (k : R) :
  0 <= k < 1 ->
  exists style,
    array_get Ornaments.palette
      (Math_floor (k * INR (List.length Ornaments.palette))) = Some style /\
    In style Ornaments.palette.
Proof.
  intros Hk.
  replace (INR (List.length Ornaments.palette)) with 4 by (simpl; lra).
  pose proof (floor_of_scaled_draw k Hk) as Hf.
  unfold array_get.
  destruct (Z.ltb_spec (Math_floor (k * 4)) 0) as [Hneg | _]; [ lia | ].
  assert (Hn : (Z.to_nat (Math_floor (k * 4)) < 4)%nat) by lia.
  destruct (Z.to_nat (Math_floor (k * 4))) as [|[|[|[|n]]]]; try lia;
    cbn [nth_error Ornaments.palette]; eexists; (split; [ reflexivity | ]);
    simpl; auto.
Qed.

Lemma draw_angle (a : R) : 0 <= a < 1 -> 0 <= a * PI < PI.
Proof. intros Ha. pose proof PI_RGT_0. nra. Qed.

Lemma generate_one_dressed type w d w' :
  unit_interval (rng w) ->
  Ornaments.generate_one type w = (d, w') ->
  ornament_dressed type (heap w') d.
Proof.
  intros Hr. destruct w as [[V nv E ne C nc] rnd dr]. cbn [rng] in Hr.
  unfold ornament_dressed, class_scale, class_speed.
  destruct type; run_world.
  1, 2: match goal with
        | |- context [array_get _ (Math_floor (?k * _))] =>
            destruct (palette_pick k (Hr _)) as (style & -> & Hin)
        end.
  all: intros Heq; injection Heq as <- <-;
    cbn [heap colors eulers color targetRot scale speed vx vy vz];
    rewrite !upd_same; split_all; try reflexivity; try exact Hin;
    apply draw_angle, Hr.
Qed.

Lemma ornament_dressed_extends type h h' d :
  extends h h' -> allocated h d ->
  ornament_dressed type h d -> ornament_dressed type h' d.
Proof.
  intros (_ & _ & _ & _ & He & Hc) (_ & _ & Hr & Hcol).
  unfold ornament_dressed. rewrite He, Hc by assumption. exact (fun H => H).
Qed.

Section GenerateLoop.

Variable type : Ornaments.OrnamentType.
Variable Q : Heap -> OrnamentData -> Prop.

Hypothesis Q_extends :
  forall h h' d, extends h h' -> allocated h d -> Q h d -> Q h' d.

Hypothesis Q_one :
  forall w d w',
    unit_interval (rng w) -> Ornaments.generate_one type w = (d, w') ->
    Q (heap w') d.

(** A property that one iteration establishes and later allocations keep
    holds of every record of the table. *)
Lemma generate_loop_all n : forall data w,
  unit_interval (rng w) ->
  Forall (fun d => allocated (heap w) d /\ Q (heap w) d) data ->
  forall data' w', Ornaments.generate_loop n type data w = (data', w') ->
    Forall (fun d => allocated (heap w') d /\ Q (heap w') d) data'.
Proof.
  induction n as [|n IH]; intros data w Hr Hdata data' w' Heq.
  - cbn [Ornaments.generate_loop] in Heq. unfold ret in Heq.
    injection Heq as <- <-. exact Hdata.
  - rewrite generate_loop_S in Heq.
    destruct (Ornaments.generate_one type w) as [d w1] eqn:E1.
    cbn [fst snd] in Heq.
    destruct (generate_one_alloc type w d w1 E1) as (Hext & Hrng & Hal & _).
    pose proof (Q_one w d w1 Hr E1) as Hq.
    apply (IH (data ++ [d]) w1); [ rewrite Hrng; exact Hr | | exact Heq ].
    apply Forall_app; split.
    + eapply Forall_impl; [ | exact Hdata ].
      intros a [Ha Hp]; split; eauto using allocated_extends.
    + constructor; auto.
Qed.

Lemma generateOrnamentData_all count w data w' :
  unit_interval (rng w) ->
  Ornaments.generateOrnamentData count type w = (data, w') ->
  Forall (Q (heap w')) data.
Proof.
  intros Hr Heq. unfold Ornaments.generateOrnamentData in Heq.
  pose proof (generate_loop_all count [] w Hr (Forall_nil _) _ _ Heq) as Hall.
  eapply Forall_impl; [ | exact Hall ]. intros d [_ Hq]. exact Hq.
Qed.

End GenerateLoop.

(** X16.  Every record carries the attributes of its class.  With draws in
    [0, 1), each record of a table of lights has the colour #ffccaa and each
    record of a table of balls or boxes one of the four colours of the
    palette - the palette index never falls outside it; the scale and the
    speed weight are those of the class, and the three target Euler angles
    lie in [0, pi). *)
Theorem generated_records_are_dressed :
  forall count type w data w',
    unit_interval (rng w) ->
    Ornaments.generateOrnamentData count type w = (data, w') ->
    forall d, In d data -> ornament_dressed type (heap w') d.
Proof.
  intros count type w data w' Hr Heq.
  apply Forall_forall.
  apply (generateOrnamentData_all type (ornament_dressed type)
           (ornament_dressed_extends type) (generate_one_dressed type)
           count w data w' Hr Heq).
Qed.

Lemma generated_records_are_dressed_witness :
  ornament_dressed Ornaments.light
    (heap (snd (Ornaments.generateOrnamentData 1 Ornaments.light
                  (world_of (fun _ => 1 / 2)))))
    (fst (Ornaments.generate_one Ornaments.light (world_of (fun _ => 1 / 2)))).
Proof.
  apply (generated_records_are_dressed 1 Ornaments.light
           (world_of (fun _ => 1 / 2)) _ _
           ltac:(intros n; simpl; lra) (surjective_pairing _)).
  rewrite generateOrnamentData_single. left. reflexivity.
Defined.

(** ** No two records share an object *)

Lemma in_record_vectors x data :
  In x (flat_map record_vectors data) ->
  exists d, In d data /\ (x = chaosPos d \/ x = targetPos d).
Proof.
  intros H. apply in_flat_map in H. destruct H as (d & Hd & Hx).
  exists d. split; [ exact Hd | ].
  unfold record_vectors in Hx. simpl in Hx. intuition auto.
Qed.

(** Records allocated in a store and records created after it, each group
    without sharing, do not share across the groups either. *)
Lemma distinct_objects_app h l1 l2 :
  Forall (allocated h) l1 -> Forall (fresh_from h) l2 ->
  distinct_objects l1 -> distinct_objects l2 ->
  distinct_objects (l1 ++ l2).
Proof.
  intros Ha Hf (V1 & R1 & C1) (V2 & R2 & C2).
  rewrite Forall_forall in Ha, Hf.
  unfold distinct_objects. rewrite flat_map_app, !map_app.
  split_all.
  - apply NoDup_app; try assumption.
    intros x H1 H2.
    apply in_record_vectors in H1. destruct H1 as (d1 & Hd1 & Hx1).
    apply in_record_vectors in H2. destruct H2 as (d2 & Hd2 & Hx2).
    destruct (Ha d1 Hd1) as (? & ? & _). destruct (Hf d2 Hd2) as (? & ? & _).
    destruct Hx1, Hx2; lia.
  - apply NoDup_app; try assumption.
    intros x H1 H2.
    apply in_map_iff in H1. destruct H1 as (d1 & <- & Hd1).
    apply in_map_iff in H2. destruct H2 as (d2 & E & Hd2).
    destruct (Ha d1 Hd1) as (_ & _ & ? & _).
    destruct (Hf d2 Hd2) as (_ & _ & ? & _). lia.
  - apply NoDup_app; try assumption.
    intros x H1 H2.
    apply in_map_iff in H1. destruct H1 as (d1 & <- & Hd1).
    apply in_map_iff in H2. destruct H2 as (d2 & E & Hd2).
    destruct (Ha d1 Hd1) as (_ & _ & _ & ?).
    destruct (Hf d2 Hd2) as (_ & _ & _ & ?). lia.
Qed.

Lemma distinct_objects_one type w d w' :
  Ornaments.generate_one type w = (d, w') -> distinct_objects [d].
Proof.
  intros Heq.
  destruct (generate_one_eq type w) as (cs & dr & sc & sp & _ & E).
  cbv zeta in E. rewrite E in Heq. injection Heq as <- _.
  unfold distinct_objects, record_vectors.
  cbn [flat_map map app chaosPos targetPos targetRot color].
  split_all; repeat constructor; simpl; try tauto.
  intros [H | []]. lia.
Qed.

Lemma generate_loop_distinct type n : forall data w data' w',
  Ornaments.generate_loop n type data w = (data', w') ->
  exists new, data' = data ++ new /\
              Forall (fresh_from (heap w)) new /\
              Forall (allocated (heap w')) new /\ distinct_objects new.
Proof.
  induction n as [|n IH]; intros data w data' w' Heq.
  - cbn [Ornaments.generate_loop] in Heq. unfold ret in Heq.
    injection Heq as <- <-.
    exists []. rewrite app_nil_r.
    split; [ reflexivity | ]. split; [ constructor | ].
    split; [ constructor | ].
    unfold distinct_objects. cbn [flat_map map]. split_all; constructor.
  - rewrite generate_loop_S in Heq.
    destruct (Ornaments.generate_one type w) as [d w1] eqn:E1.
    cbn [fst snd] in Heq.
    destruct (generate_one_alloc type w d w1 E1) as (Hext & _ & Hal & Hfr).
    destruct (IH _ _ _ _ Heq) as (new & Hnew & Hfresh & Halloc & Hdist).
    destruct (generate_loop_alloc type n _ _ _ _ Heq) as (Hext' & _ & _).
    exists (d :: new). rewrite Hnew, <- app_assoc. split_all.
    + reflexivity.
    + constructor; [ exact Hfr | ].
      eapply Forall_impl; [ | exact Hfresh ].
      intros a Ha. eapply fresh_from_extends; eassumption.
    + constructor; [ eapply allocated_extends; eassumption | exact Halloc ].
    + apply (distinct_objects_app (heap w1) [d] new).
      * constructor; [ exact Hal | constructor ].
      * exact Hfresh.
      * eapply distinct_objects_one. exact E1.
      * exact Hdist.
Qed.

Lemma generateOrnamentData_distinct count type w data w' :
  Ornaments.generateOrnamentData count type w = (data, w') ->
  Forall (allocated (heap w')) data /\ distinct_objects data.
Proof.
  intros Heq. unfold Ornaments.generateOrnamentData in Heq.
  destruct (generate_loop_distinct type count [] w _ _ Heq)
    as (new & Hnew & _ & Hal & Hd).
  simpl in Hnew. subst data. auto.
Qed.

(** X17.  No two particles share an object.  Within one table made by
    [generateOrnamentData] all chaos and target vectors are pairwise
    different objects, and so are the Euler angles and the colours; the same
    holds across the three tables of a mounted component. *)
Theorem generated_objects_are_distinct :
  (forall count type w,
     distinct_objects (fst (Ornaments.generateOrnamentData count type w))) /\
  (forall bm xm lm w,
     distinct_objects (tables (fst (Ornaments.mount bm xm lm w)))).
Proof.
  split.
  - intros count type w.
    destruct (Ornaments.generateOrnamentData count type w) as [data w'] eqn:E.
    cbn [fst]. apply (generateOrnamentData_distinct _ _ _ _ _ E).
  - intros bm xm lm w. unfold Ornaments.mount, bind.
    destruct (Three.new_Object3D w) as [d w1].
    destruct (new_Vector3 0 0 0 w1) as [tmp w2].
    destruct (Ornaments.generateOrnamentData Ornaments.BALL_COUNT
                Ornaments.ball w2) as [bs w3] eqn:Eb.
    destruct (Ornaments.generateOrnamentData Ornaments.BOX_COUNT
                Ornaments.box w3) as [xs w4] eqn:Ex.
    destruct (Ornaments.generateOrnamentData Ornaments.LIGHT_COUNT
                Ornaments.light w4) as [ls w5] eqn:El.
    unfold tables.
    cbn [fst Ornaments.balls Ornaments.boxes Ornaments.lights].
    destruct (generateOrnamentData_distinct _ _ _ _ _ Eb) as [Ab Db].
    destruct (generateOrnamentData_distinct _ _ _ _ _ Ex) as [Ax Dx].
    destruct (generateOrnamentData_distinct _ _ _ _ _ El) as [Al Dl].
    destruct (generateOrnamentData_alloc _ _ _ _ _ Ex) as (Xx & _ & _ & Fx).
    destruct (generateOrnamentData_alloc _ _ _ _ _ El) as (Xl & _ & _ & Fl).
    apply (distinct_objects_app (heap w3)); try assumption.
    + apply Forall_app; split; [ exact Fx | ].
      eapply Forall_impl; [ | exact Fl ].
      intros r Hr. eapply fresh_from_extends; eassumption.
    + apply (distinct_objects_app (heap w4)); assumption.
Qed.

(** ** Where the ornaments and the foliage points sit *)

(** X18.  Ornaments hug the cone.  With draws in [0, 1), the target of every
    ornament lies strictly below the apex and exactly on a scaled copy of
    the cone surface: at its height its lateral distance is 0.9 times the
    cone radius for balls and boxes and 1.05 times for lights, and is never
    zero. *)
Theorem ornaments_hug_the_cone :
  forall count type w data w',
    unit_interval (rng w) ->
    Ornaments.generateOrnamentData count type w = (data, w') ->
    forall d, In d data ->
      let v := vectors (heap w') (targetPos d) in
      0 <= vy v < Ornaments.TREE_HEIGHT /\
      lateral v =
        depth_offset type *
        ((1 - vy v / Ornaments.TREE_HEIGHT) * Ornaments.TREE_RADIUS) /\
      0 < lateral v.
Proof.
  intros count type w data w' Hr Heq d Hd.
  pose proof (generateOrnamentData_spec count type w data w' Hr Heq) as Hall.
  rewrite Forall_forall in Hall.
  destruct (Hall d Hd)
    as (u & v & k & hNorm & j & _ & _ & _ & Hh & _ & _ & ->).
  cbv zeta. unfold Ornaments.TREE_HEIGHT, Ornaments.TREE_RADIUS.
  assert (Hoff : depth_offset type = 1.05 \/ depth_offset type = 0.9)
    by (destruct (depth_offset_cases type) as [[_ ->]|[_ ->]]; auto).
  assert (0 < depth_offset type) by (destruct Hoff as [-> | ->]; lra).
  rewrite lateral_polar by nra.
  cbn [vy]. replace (hNorm * 16 / 16) with hNorm by (field; lra).
  split_all; nra.
Qed.

Lemma ornaments_hug_the_cone_witness :
  0 < lateral
        (vectors
           (heap (snd (Ornaments.generateOrnamentData 1 Ornaments.light
                         (world_of (fun _ => 1 / 2)))))
           (targetPos (fst (Ornaments.generate_one Ornaments.light
                              (world_of (fun _ => 1 / 2)))))).
Proof.
  apply (ornaments_hug_the_cone 1 Ornaments.light
           (world_of (fun _ => 1 / 2)) _ _
           ltac:(intros n; simpl; lra) (surjective_pairing _)).
  rewrite generateOrnamentData_single. left. reflexivity.
Defined.

Lemma generate_point_randoms count i g w :
  holds_points g count -> (i < count)%nat ->
  let g' := fst (TreeFoliage.generate_point i g w) in
  f32_at (TreeFoliage.randoms g') i = rng w (6 + drawn w)%nat /\
  forall j, j <> i ->
    f32_at (TreeFoliage.randoms g') j = f32_at (TreeFoliage.randoms g) j.
Proof.
  intros (L1 & L2 & L3) Hi. rewrite generate_point_eq. cbv zeta.
  cbn [fst TreeFoliage.randoms]. split.
  - apply f32_at_set_same. lia.
  - intros j Hj. apply f32_at_set_other. exact Hj.
Qed.

Lemma snd_generate_point_rng i g w :
  rng (snd (TreeFoliage.generate_point i g w)) = rng w.
Proof. rewrite generate_point_eq. reflexivity. Qed.

Lemma foliage_loop_randoms count n : forall i g w,
  unit_interval (rng w) -> holds_points g count -> (i + n <= count)%nat ->
  let g' := fst (TreeFoliage.generate_loop n i g w) in
  (forall j, (i <= j < i + n)%nat ->
     0 <= f32_at (TreeFoliage.randoms g') j < 1) /\
  (forall j, (j < i)%nat ->
     f32_at (TreeFoliage.randoms g') j = f32_at (TreeFoliage.randoms g) j).
Proof.
  induction n as [|n IH]; intros i g w Hr Hg Hin; cbv zeta.
  - cbn [TreeFoliage.generate_loop]. unfold ret. cbn [fst].
    split; [ intros j Hj; lia | reflexivity ].
  - rewrite foliage_loop_S.
    destruct (generate_point_randoms count i g w Hg ltac:(lia)) as [Hi Hkeep].
    pose proof (generate_point_lengths count i g w Hg) as Hg1.
    assert (Hr1 : unit_interval (rng (snd (TreeFoliage.generate_point i g w))))
      by (rewrite snd_generate_point_rng; exact Hr).
    destruct (IH (S i) _ _ Hr1 Hg1 ltac:(lia)) as [Hnew Hold].
    split.
    + intros j Hj. destruct (Nat.eq_dec j i) as [-> | Hne].
      * rewrite Hold by lia. rewrite Hi. apply Hr.
      * apply Hnew. lia.
    + intros j Hj. rewrite Hold by lia. apply Hkeep. lia.
Qed.

(** X19.  Foliage points have a bounded size.  With draws in [0, 1), the
    random attribute of every generated point lies in [0, 1], so the point
    size the vertex shader computes for it at a camera-space depth [z < 0]
    lies between 40 / (-z) and 120 / (-z). *)
Theorem foliage_point_size_bounds :
  forall count w i z,
    unit_interval (rng w) -> (i < count)%nat -> z < 0 ->
    let a :=
      f32_at (TreeFoliage.randoms
                (fst (TreeFoliage.generate_geometry count w))) i in
    0 <= a <= 1 /\
    40 / - z <= FoliageShader.point_size a z <= 120 / - z.
Proof.
  intros count w i z Hr Hi Hz. cbv zeta.
  unfold TreeFoliage.generate_geometry.
  assert (H0 : holds_points
                 (TreeFoliage.mkGeometry (new_Float32Array (count * 3))
                    (new_Float32Array (count * 3)) (new_Float32Array count))
                 count)
    by (unfold holds_points; simpl; auto).
  destruct (foliage_loop_randoms count count 0%nat _ w Hr H0 ltac:(lia))
    as [Hnew _].
  specialize (Hnew i ltac:(lia)).
  split; [ lra | ].
  unfold FoliageShader.point_size.
  assert (Hinv : 0 < / - z) by (apply Rinv_0_lt_compat; lra).
  unfold Rdiv. split; nra.
Qed.

Lemma foliage_point_size_bounds_witness :
  40 / - (- 20) <=
  FoliageShader.point_size
    (f32_at (TreeFoliage.randoms
               (fst (TreeFoliage.generate_geometry 2
                       (world_of (fun _ => 1 / 2))))) 1)
    (- 20)
  <= 120 / - (- 20).
Proof.
  apply (foliage_point_size_bounds 2 (world_of (fun _ => 1 / 2)) 1 (- 20)).
  - intros n; simpl; lra.
  - lia.
  - lra.
Defined.

(** ** The fragment shader *)

Lemma sqrt_gt_half (s : R) : 0 <= s -> (0.5 < sqrt s <-> 0.25 < s).
Proof.
  intros Hs. replace 0.5 with (sqrt 0.25).
  - split; intros H.
    + apply sqrt_lt_0_alt. exact H.
    + apply sqrt_lt_1_alt. lra.
  - replace 0.25 with (0.5 * 0.5) by lra. apply sqrt_square. lra.
Qed.

Lemma vec3_mix_none (a b : Vec3) : TreeFoliage.vec3_mix a b (0.0 * 0.8) = a.
Proof.
  destruct a as [ax ay az]. unfold TreeFoliage.vec3_mix, GLSL.mix.
  cbn [vx vy vz]. f_equal; lra.
Qed.

(** X20.  A foliage point is drawn as an opaque disc.  The fragment shader
    discards a fragment exactly when its point coordinate is farther than
    one half from the centre of the point sprite; every fragment it keeps
    has alpha 1 and carries either the base-to-tip gradient at its height,
    taken at a factor between 0.3 and 1.3, or that gradient blended by 0.8
    towards the sparkle colour. *)
Theorem fragment_is_an_opaque_disc :
  forall base tip spark uTime vAlpha cx cy,
    let out := FoliageShader.fragment base tip spark uTime vAlpha cx cy in
    let gradient := TreeFoliage.vec3_mix base tip (cy + 0.3) in
    (out = None <->
       0.25 < (cx - 0.5) * (cx - 0.5) + (cy - 0.5) * (cy - 0.5)) /\
    (forall color alpha, out = Some (color, alpha) ->
       alpha = 1 /\
       0.3 <= cy + 0.3 <= 1.3 /\
       (color = gradient \/
        color = TreeFoliage.vec3_mix gradient spark 0.8)).
Proof.
  intros base tip spark uTime vAlpha cx cy. cbv zeta.
  unfold FoliageShader.fragment. cbv zeta.
  set (s := (cx - 0.5) * (cx - 0.5) + (cy - 0.5) * (cy - 0.5)).
  assert (Hx : 0 <= (cx - 0.5) * (cx - 0.5)) by apply Rle_0_sqr.
  assert (Hy : 0 <= (cy - 0.5) * (cy - 0.5)) by apply Rle_0_sqr.
  assert (Hs : 0 <= s) by (unfold s; lra).
  pose proof (sqrt_gt_half s Hs) as Hsq.
  unfold Rgtb.
  destruct (Rltb 0.5 (sqrt s)) eqn:E.
  - apply Rltb_true in E. split.
    + split; intros _; [ tauto | reflexivity ].
    + intros c a Hc. discriminate Hc.
  - apply Rltb_false in E. split.
    + split; intros H; [ discriminate H | exfalso; lra ].
    + intros c a Hc. injection Hc as Hcol Ha.
      assert (Hle : s <= 0.25).
      { destruct (Rle_or_lt s 0.25) as [H|H]; [ exact H | exfalso; lra ]. }
      assert (Hcy : (cy - 0.5) * (cy - 0.5) <= 0.25) by (unfold s in Hle; lra).
      split_all.
      * lra.
      * destruct (Rle_or_lt 0 cy) as [H|H]; [ lra | exfalso; nra ].
      * destruct (Rle_or_lt cy 1) as [H|H]; [ lra | exfalso; nra ].
      * rewrite <- Hcol. unfold FoliageShader.step.
        destruct (Rlt_dec _ 0.98).
        -- left. apply vec3_mix_none.
        -- right. f_equal. lra.
Qed.

(** ** The button and what it drives *)

Lemma toggleState_twice s : App.toggleState (App.toggleState s) = s.
Proof. destruct s; reflexivity. Qed.

Lemma after_clicks_succ n : forall s,
  App.after_clicks (S n) s = App.toggleState (App.after_clicks n s).
Proof.
  induction n as [|n IH]; intros s.
  - reflexivity.
  - change (App.after_clicks (S (S n)) s)
      with (App.after_clicks (S n) (App.toggleState s)).
    rewrite IH. reflexivity.
Qed.

Lemma after_clicks_parity n :
  App.after_clicks n App.initial = if Nat.odd n then FORMED else CHAOS.
Proof.
  induction n as [|n IH].
  - reflexivity.
  - rewrite after_clicks_succ, IH, Nat.odd_succ, <- Nat.negb_odd.
    destruct (Nat.odd n); reflexivity.
Qed.

(** X21.  The button alternates the tree.  The application starts in chaos
    and every click toggles the state, so after [n] clicks the tree is
    formed exactly when [n] is odd; then, and only then, the button offers
    to release the tree and the experience placeholder that the
    application renders shows the state FORMED. *)
Theorem clicks_alternate_the_tree :
  forall n,
    let s := App.after_clicks n App.initial in
    App.isFormed s = Nat.odd n /\
    App.buttonLabel s =
      (if Nat.odd n then "RELEASE CHAOS" else "ASSEMBLE MAJESTY")%string /\
    Experience.text s =
      (if Nat.odd n then "3D Tree Placeholder. State: FORMED"
       else "3D Tree Placeholder. State: CHAOS")%string.
Proof.
  intros n. cbv zeta. rewrite after_clicks_parity.
  destruct (Nat.odd n); split_all; reflexivity.
Qed.
